(** * JcQ: a shallow embedding of the trade-simulation core

    The Python sources embedded here are
      - [jcq/core/time.py]              (session_day, is_rth,
                                         minutes_since_rth_open)
      - [jcq/features/features.py]      (build_features: the frame, the
                                         order of its steps and its calls
                                         into [jcq/core/time.py])
      - [jcq/backtest/execution_sim.py] (simulate_execution)
      - [jcq/strategy/candidates.py]    (generate_candidates)
      - [jcq/strategy/scorer.py], [jcq/models/bayes.py],
        [jcq/strategy/rules.py]         (scoring, ranking, the time filter)
      - [jcq/risk/contract_specs.py], [jcq/risk/limits.py],
        [jcq/risk/risk_manager.py]      (RiskLimits, RiskManager)
      - [jcq/backtest/costs.py], [jcq/backtest/engine.py] (BacktestEngine)
      - [jcq/sim/monte_carlo.py]        (run_monte_carlo)

    Numbers.  The program computes on IEEE doubles.  A finite double is
    modelled by the rational it denotes and arithmetic is exact, without
    the rounding of the machine operation; the one non-finite value the
    code paths below distinguish, NaN (a feature that is still in
    warm-up), is kept as a separate constructor with Python's comparison
    rules (every ordered comparison with NaN is False).  The statements
    below are about the order of the checks, the propagation of NaN, the
    formula a field is computed by, signs and order; none of them rests on
    an exact cancellation that rounding would undo. *)

From Stdlib Require Import QArith Qround Qabs Lqa ZArith Lia String List Bool.
From stdpp Require Import gmap.
Import ListNotations.
Local Open Scope string_scope.
Local Open Scope list_scope.

(** ** Floating-point values *)

Inductive fl : Type :=
| NaN : fl
| Fin : Q -> fl.

Definition fle (a b : fl) : bool :=
  match a, b with
  | Fin x, Fin y => Qle_bool x y
  | _, _ => false
  end.

Definition flt (a b : fl) : bool :=
  match a, b with
  | Fin x, Fin y => negb (Qle_bool y x)
  | _, _ => false
  end.

Definition fge (a b : fl) : bool := fle b a.
Definition fgt (a b : fl) : bool := flt b a.

(** [a == b] on floats: NaN is equal to nothing. *)
Definition feq (a b : fl) : bool :=
  match a, b with
  | Fin x, Fin y => Qeq_bool x y
  | _, _ => false
  end.

Definition notna (a : fl) : bool :=
  match a with NaN => false | Fin _ => true end.

Definition lift2 (f : Q -> Q -> Q) (a b : fl) : fl :=
  match a, b with
  | Fin x, Fin y => Fin (Qred (f x y))
  | _, _ => NaN
  end.

Definition fadd : fl -> fl -> fl := lift2 Qplus.
Definition fsub : fl -> fl -> fl := lift2 Qminus.
Definition fmul : fl -> fl -> fl := lift2 Qmult.

(** Division.  The divisions of the sizing, settlement and reward:risk
    code are guarded so that the divisor is a positive number; the only
    division by zero that is reached is numpy's mean of an empty array,
    0/0, which is NaN. *)
Definition fdiv (a b : fl) : fl :=
  match a, b with
  | Fin x, Fin y => if Qeq_bool y 0 then NaN else Fin (Qred (x / y))
  | _, _ => NaN
  end.

Definition fabs (a : fl) : fl :=
  match a with
  | NaN => NaN
  | Fin x => Fin (Qabs x)
  end.

(** Python's built-in [max(a, b)] and [min(a, b)]: the first argument is
    kept unless the second compares strictly greater (smaller). *)
Definition pymax (a b : fl) : fl := if fgt b a then b else a.
Definition pymin (a b : fl) : fl := if flt b a then b else a.

Declare Scope fl_scope.
Delimit Scope fl_scope with fl.
Bind Scope fl_scope with fl.
Infix "+" := fadd : fl_scope.
Infix "-" := fsub : fl_scope.
Infix "*" := fmul : fl_scope.
Infix "/" := fdiv : fl_scope.
Infix "<=?" := fle : fl_scope.
Infix "<?" := flt : fl_scope.
Infix ">=?" := fge : fl_scope.
Infix ">?" := fgt : fl_scope.

(** Propositional order on floats, false as soon as a NaN is involved. *)
Definition fl_le (a b : fl) : Prop :=
  match a, b with
  | Fin x, Fin y => (x <= y)%Q
  | _, _ => False
  end.

Definition fl_lt (a b : fl) : Prop :=
  match a, b with
  | Fin x, Fin y => (x < y)%Q
  | _, _ => False
  end.


(** ** Exceptions

    A call either returns or raises; the exceptions are the ones the
    embedded code paths can raise. *)

Inductive exn : Type :=
| UnboundLocalError (name : string)
| KeyError (key : string)
| IndexError (msg : string)
| ValueError (msg : string).

Inductive result (A : Type) : Type :=
| Ok (a : A)
| Raise (e : exn).

Arguments Ok {A} a.
Arguments Raise {A} e.

Definition rbind {A B : Type} (m : result A) (k : A -> result B) : result B :=
  match m with
  | Ok a => k a
  | Raise e => Raise e
  end.

Notation "'do' x <- m ; k" := (rbind m (fun x => k))
  (at level 10, x name, m at level 100, k at level 200).

Definition raises {A : Type} (m : result A) : Prop :=
  match m with Ok _ => False | Raise _ => True end.

(** ** [jcq/core/time.py] *)

Module Time.

(** Time is counted in microseconds, the resolution of [datetime] and of
    [ts.time()]; the nanoseconds a pandas stamp may carry besides are read
    by none of the functions below. *)
Definition us_per_second : Z := 1000000.
Definition us_per_minute : Z := 60000000.
Definition us_per_hour : Z := 3600000000.
Definition us_per_day : Z := 86400000000.

(** A time of day written as hours and minutes. *)
Definition hm (h m : Z) : Z := (h * us_per_hour + m * us_per_minute)%Z.

(** A [pd.Timestamp]: the wall-clock reading in microseconds since the
    epoch and, for a timezone-aware stamp, the UTC offset (in microseconds)
    that the reading carries.  A naive stamp has no offset. *)
Record Timestamp : Type := mkTs {
  wall : Z;
  tzoff : option Z
}.

(** A calendar date, as a day number since the epoch. *)
Definition date : Type := Z.

(** [ts.date()]: the calendar date of the wall-clock reading. *)
Definition date_of (ts : Timestamp) : date := (wall ts / us_per_day)%Z.

(** [ts.hour] *)
Definition hour (ts : Timestamp) : Z :=
  ((wall ts mod us_per_day) / us_per_hour)%Z.

Section Zone.

(** The market time zone (pytz): UTC offset in microseconds in force at a
    given UTC instant. *)
Variable zone : Z -> Z.

(** [ts.tz_convert(market_tz)] for an aware stamp,
    [market_tz_obj.localize(ts)] for a naive one (the reading is kept
    and taken to be market-local). *)
Definition to_market (ts : Timestamp) : Timestamp :=
  match tzoff ts with
  | None => ts
  | Some off =>
      let utc := (wall ts - off)%Z in
      mkTs (utc + zone utc) (Some (zone utc))
  end.

(** [ts_market + timedelta(days=1)]: an aware pandas stamp moves by 24
    hours of absolute time and is re-read in the zone; the localized
    [datetime] of the naive path moves its wall clock. *)
Definition plus_one_day (orig ts_market : Timestamp) : Timestamp :=
  match tzoff orig with
  | None => mkTs (wall ts_market + us_per_day) (tzoff ts_market)
  | Some off =>
      let utc := (wall orig - off + us_per_day)%Z in
      mkTs (utc + zone utc) (Some (zone utc))
  end.

(** [session_day]: the Globex session date of a stamp (the date of the
    midnight-UTC stamp the function returns). *)
Definition session_day (ts : Timestamp) : date :=
  let ts_market := to_market ts in
  if (hour ts_market >=? 18)%Z
  then date_of (plus_one_day ts ts_market)
  else date_of ts_market.

(** [ts.time()]: the wall-clock reading within its day. *)
Definition time_of_day (ts : Timestamp) : Z := (wall ts mod us_per_day)%Z.

(** [is_rth]; [rth_start] and [rth_end] are the configured times of day
    (09:30 and 16:00 unless configured otherwise). *)
Definition is_rth (rth_start rth_end : Z) (ts : Timestamp) : bool :=
  let time_market := time_of_day (to_market ts) in
  (rth_start <=? time_market)%Z && (time_market <=? rth_end)%Z.

(** [delta.total_seconds() / 60.0] of a [timedelta] of [us]
    microseconds. *)
Definition total_minutes (us : Z) : fl :=
  (Fin (inject_Z us) / Fin (inject_Z us_per_second) / Fin 60)%fl.

(** [minutes_since_rth_open].  The local [market_tz_obj] is bound on the
    naive path only, and the line that localizes the open reads it on both
    paths.  On the naive path the stamp and the open are localized in the
    same zone on the same date, so they compare and subtract as their wall
    clocks do. *)
Definition minutes_since_rth_open (rth_start : Z) (ts : Timestamp)
  : result (option fl) :=
  match tzoff ts with
  | Some _ => Raise (UnboundLocalError "market_tz_obj")
  | None =>
      let ts_market := ts in
      if (time_of_day ts_market <? rth_start)%Z then Ok None
      else Ok (Some (total_minutes (time_of_day ts_market - rth_start)))
  end.

End Zone.

End Time.

(** ** [jcq/backtest/execution_sim.py] *)

Module ExecutionSim.

(** One row of the bar frame. *)
Record Bar : Type := mkBar {
  bar_ts : Time.Timestamp;
  bar_open : fl;
  bar_high : fl;
  bar_low : fl;
  bar_close : fl;
  bar_volume : fl
}.

Record ExecutionResult : Type := mkExec {
  entry_fill : fl;
  exit_fill : fl;
  exit_bar_idx : nat;
  exit_reason : string
}.

(** The side is a free-form string in the source; every test is
    [side == "long"], anything else is treated as a short. *)
Definition is_long (side : string) : bool := String.eqb side "long".

(** Lines 41-51: is the entry filled on the entry bar, and at what price. *)
Definition entry_phase (side : string) (entry_price : fl) (entry_bar : Bar)
  : option fl :=
  if is_long side then
    if (entry_price >=? bar_low entry_bar)%fl && (entry_price <=? bar_high entry_bar)%fl
    then Some (pymax entry_price (bar_open entry_bar))
    else None
  else
    if (entry_price >=? bar_low entry_bar)%fl && (entry_price <=? bar_high entry_bar)%fl
    then Some (pymin entry_price (bar_open entry_bar))
    else None.

(** Lines 57-66: the stop test on one bar. *)
Definition stop_hit (side : string) (stop_price : fl) (bar : Bar) : bool :=
  if is_long side then (bar_low bar <=? stop_price)%fl
  else (bar_high bar >=? stop_price)%fl.

(** Lines 76-85: the target test on one bar. *)
Definition target_hit (side : string) (target_price : fl) (bar : Bar) : bool :=
  if is_long side then (bar_high bar >=? target_price)%fl
  else (bar_low bar <=? target_price)%fl.

(** Lines 54-96: the forward loop [for i in range(entry_bar_idx + 1,
    len(bars))], on the bars still to be visited; [i] is the index of the
    head of [rest]. *)
Fixpoint exit_scan (side : string) (stop_price target_price efill : fl)
    (i : nat) (rest : list Bar) : option ExecutionResult :=
  match rest with
  | [] => None
  | bar :: rest' =>
      if stop_hit side stop_price bar then
        Some (mkExec efill stop_price i "stop")
      else if target_hit side target_price bar then
        Some (mkExec efill target_price i "target")
      else exit_scan side stop_price target_price efill (S i) rest'
  end.

Definition simulate_execution (bars : list Bar)
    (entry_price stop_price target_price : fl) (side : string)
    (entry_bar_idx : nat) : option ExecutionResult :=
  match bars !! entry_bar_idx with
  | None => None
  | Some entry_bar =>
      match entry_phase side entry_price entry_bar with
      | None => None
      | Some efill =>
          exit_scan side stop_price target_price efill
            (S entry_bar_idx) (drop (S entry_bar_idx) bars)
      end
  end.

End ExecutionSim.

(** ** [jcq/strategy/candidates.py] *)

Module Candidates.

(** One row of the feature frame.  A field is [None] when the frame has no
    such column (["atr_14" in latest] is False) and [Some NaN] when the
    column exists but the indicator is still warming up. *)
Record Row : Type := mkRow {
  row_ts : Time.Timestamp;
  close : option fl;
  high : option fl;
  low : option fl;
  session_vwap : option fl;
  atr_14 : option fl;
  opening_range_high : option fl;
  opening_range_low : option fl;
  prior_high : option fl;
  prior_low : option fl
}.

(** [cfg_strategy["candidates"]], every [.get(key, default)] resolved. *)
Record Cfg : Type := mkCfg {
  vwap_enabled : bool;
  atr_multipliers : list fl;
  opening_range_enabled : bool;
  opening_range_tolerance_ticks : fl;
  prior_session_enabled : bool;
  prior_session_tolerance_ticks : fl;
  swing_enabled : bool;
  pivot_lookback : nat;
  min_swing_size_atr : fl;
  min_rr : fl;
  max_rr : fl
}.

(** The defaults written in the [.get] calls of the source. *)
Definition default_cfg : Cfg :=
  {| vwap_enabled := true;
     atr_multipliers := [Fin (1#2); Fin 1; Fin (3#2); Fin 2];
     opening_range_enabled := true;
     opening_range_tolerance_ticks := Fin 2;
     prior_session_enabled := true;
     prior_session_tolerance_ticks := Fin 2;
     swing_enabled := true;
     pivot_lookback := 5;
     min_swing_size_atr := Fin 1;
     min_rr := Fin (3#2);
     max_rr := Fin 5 |}.

(** Tags; the two f-strings [f"vwap-{k}atr"] and [f"vwap+{k}atr"] keep the
    multiplier instead of its rendering. *)
Inductive tag : Type :=
| Tag (s : string)
| TagVwapMinus (k : fl)
| TagVwapPlus (k : fl).

Record Candidate : Type := mkCand {
  entry : fl;
  stop : fl;
  target : fl;
  risk_points : fl;
  reward_points : fl;
  side : string;
  tags : list tag;
  context : list (string * fl)
}.

(** [rr = reward_points / risk_points if risk_points > 0 else 0] *)
Definition rr_of (reward risk : fl) : fl :=
  if (risk >? Fin 0)%fl then (reward / risk)%fl else Fin 0.

Definition half : fl := Fin (1#2).

(** *** VWAP mean reversion (lines 40-91) *)

Definition vwap_long (cfg : Cfg) (price vwap atr k : fl) : list Candidate :=
  let entry_long := (vwap - k * atr)%fl in
  let stop_long := (entry_long - atr * half)%fl in
  let target_long := (entry_long + atr * (k + Fin 1))%fl in
  if (stop_long <? price)%fl && (price <? target_long)%fl then
    let risk := fabs (entry_long - stop_long) in
    let reward := fabs (target_long - entry_long) in
    let rr := rr_of reward risk in
    if (min_rr cfg <=? rr)%fl && (rr <=? max_rr cfg)%fl then
      [mkCand entry_long stop_long target_long risk reward "long"
         [Tag "vwap"; TagVwapMinus k]
         [("vwap", vwap); ("atr", atr); ("k", k)]]
    else []
  else [].

Definition vwap_short (cfg : Cfg) (price vwap atr k : fl) : list Candidate :=
  let entry_short := (vwap + k * atr)%fl in
  let stop_short := (entry_short + atr * half)%fl in
  let target_short := (entry_short - atr * (k + Fin 1))%fl in
  if (target_short <? price)%fl && (price <? stop_short)%fl then
    let risk := fabs (entry_short - stop_short) in
    let reward := fabs (entry_short - target_short) in
    let rr := rr_of reward risk in
    if (min_rr cfg <=? rr)%fl && (rr <=? max_rr cfg)%fl then
      [mkCand entry_short stop_short target_short risk reward "short"
         [Tag "vwap"; TagVwapPlus k]
         [("vwap", vwap); ("atr", atr); ("k", k)]]
    else []
  else [].

(** The family returns its candidates together with the binding of the
    function-local variable [atr] it leaves behind: [None] when line 44
    was not executed, so that [atr] is still unbound. *)
Definition vwap_family (cfg : Cfg) (latest : Row) (price : fl)
  : option fl * list Candidate :=
  if vwap_enabled cfg then
    match session_vwap latest, atr_14 latest with
    | Some vwap, Some atr =>
        if notna vwap then
          (Some atr,
           flat_map (fun k => (vwap_long cfg price vwap atr k
                               ++ vwap_short cfg price vwap atr k)%list)
                    (atr_multipliers cfg))
        else (None, [])
    | _, _ => (None, [])
    end
  else (None, []).

(** Reading the local variable [atr]. *)
Definition read_atr (atr : option fl) : result fl :=
  match atr with
  | Some a => Ok a
  | None => Raise (UnboundLocalError "atr")
  end.

(** *** Opening-range retests (lines 93-139) *)

Definition or_long (cfg : Cfg) (latest : Row) (atr : option fl)
    (price orh orl tolerance : fl) : result (list Candidate) :=
  if (fabs (price - orl) <=? tolerance)%fl then
    do stop <- (match atr_14 latest with
              | Some _ => do a <- read_atr atr ; Ok (orl - a * half)%fl
              | None => Ok (orl - (orh - orl) * half)%fl
              end) ;
    let target := orh in
    let risk := fabs (orl - stop) in
    let reward := fabs (target - orl) in
    let rr := rr_of reward risk in
    if (rr >=? min_rr cfg)%fl then
      Ok [mkCand orl stop target risk reward "long"
            [Tag "opening_range"; Tag "orl_retest"]
            [("orh", orh); ("orl", orl)]]
    else Ok []
  else Ok [].

Definition or_short (cfg : Cfg) (latest : Row) (atr : option fl)
    (price orh orl tolerance : fl) : result (list Candidate) :=
  if (fabs (price - orh) <=? tolerance)%fl then
    do stop <- (match atr_14 latest with
              | Some _ => do a <- read_atr atr ; Ok (orh + a * half)%fl
              | None => Ok (orh + (orh - orl) * half)%fl
              end) ;
    let target := orl in
    let risk := fabs (orh - stop) in
    let reward := fabs (orh - target) in
    let rr := rr_of reward risk in
    if (rr >=? min_rr cfg)%fl then
      Ok [mkCand orh stop target risk reward "short"
            [Tag "opening_range"; Tag "orh_retest"]
            [("orh", orh); ("orl", orl)]]
    else Ok []
  else Ok [].

Definition opening_range_family (cfg : Cfg) (latest : Row)
    (atr : option fl) (price : fl) : result (list Candidate) :=
  if opening_range_enabled cfg then
    match opening_range_high latest, opening_range_low latest with
    | Some orh, Some orl =>
        let tolerance := (opening_range_tolerance_ticks cfg * Fin (1#4))%fl in
        if notna orh && notna orl then
          do cl <- or_long cfg latest atr price orh orl tolerance ;
          do cs <- or_short cfg latest atr price orh orl tolerance ;
          Ok (cl ++ cs)%list
        else Ok []
    | _, _ => Ok []
    end
  else Ok [].

(** *** Prior-session levels (lines 141-189) *)

Definition prior_long (cfg : Cfg) (price ph pl atr tolerance : fl)
  : list Candidate :=
  if (fabs (price - pl) <=? tolerance)%fl then
    let stop := (pl - atr * half)%fl in
    let target := ph in
    let risk := fabs (pl - stop) in
    let reward := fabs (target - pl) in
    let rr := rr_of reward risk in
    if (rr >=? min_rr cfg)%fl then
      [mkCand pl stop target risk reward "long"
         [Tag "prior_session"; Tag "prior_low"]
         [("prior_high", ph); ("prior_low", pl)]]
    else []
  else [].

Definition prior_short (cfg : Cfg) (price ph pl atr tolerance : fl)
  : list Candidate :=
  if (fabs (price - ph) <=? tolerance)%fl then
    let stop := (ph + atr * half)%fl in
    let target := pl in
    let risk := fabs (ph - stop) in
    let reward := fabs (ph - target) in
    let rr := rr_of reward risk in
    if (rr >=? min_rr cfg)%fl then
      [mkCand ph stop target risk reward "short"
         [Tag "prior_session"; Tag "prior_high"]
         [("prior_high", ph); ("prior_low", pl)]]
    else []
  else [].

(** Line 149 rebinds [atr] to [latest.get("atr_14", (ph - pl) * 0.1)]. *)
Definition prior_session_family (cfg : Cfg) (latest : Row)
    (atr : option fl) (price : fl) : option fl * list Candidate :=
  if prior_session_enabled cfg then
    match prior_high latest, prior_low latest with
    | Some ph, Some pl =>
        let tolerance := (prior_session_tolerance_ticks cfg * Fin (1#4))%fl in
        if notna ph && notna pl then
          let atr' := default ((ph - pl) * Fin (1#10))%fl (atr_14 latest) in
          (Some atr',
           (prior_long cfg price ph pl atr' tolerance
            ++ prior_short cfg price ph pl atr' tolerance)%list)
        else (atr, [])
    | _, _ => (atr, [])
    end
  else (atr, []).

(** *** Swing pivots (lines 191-246) *)

(** [Series.max()] and [Series.min()]: NaN entries are skipped, the result
    is NaN when nothing is left. *)
Definition nanmax (acc x : fl) : fl :=
  match acc, x with
  | NaN, _ => x
  | _, NaN => acc
  | Fin a, Fin b => if Qle_bool a b then Fin b else Fin a
  end.

Definition nanmin (acc x : fl) : fl :=
  match acc, x with
  | NaN, _ => x
  | _, NaN => acc
  | Fin a, Fin b => if Qle_bool b a then Fin b else Fin a
  end.

Definition series_max (l : list fl) : fl := fold_left nanmax l NaN.
Definition series_min (l : list fl) : fl := fold_left nanmin l NaN.

(** [row[name]] on a column that may be missing from the frame. *)
Definition getcol (name : string) (v : option fl) : result fl :=
  match v with
  | Some x => Ok x
  | None => Raise (KeyError name)
  end.

Fixpoint column (name : string) (f : Row -> option fl) (rows : list Row)
  : result (list fl) :=
  match rows with
  | [] => Ok []
  | r :: rows' =>
      do x <- getcol name (f r) ;
      do xs <- column name f rows' ;
      Ok (x :: xs)
  end.

(** [df.iloc[a:b]] *)
Definition iloc_slice {A : Type} (a b : nat) (l : list A) : list A :=
  take (b - a) (drop a l).

(** [df_features.iloc[-lookback*2:]]; [-0] is [0], the whole frame. *)
Definition recent_rows (lookback : nat) (df : list Row) : list Row :=
  match (lookback * 2)%nat with
  | O => df
  | n => drop (length df - n) df
  end.

Definition swing_high_at (cfg : Cfg) (price atr : fl) (recent : list Row)
    (i : nat) : result (list Candidate) :=
  let lookback := pivot_lookback cfg in
  match recent !! i with
  | None => Ok []
  | Some r =>
      do hi <- getcol "high" (high r) ;
      do window <- column "high" high
                     (iloc_slice (i - lookback) (i + lookback + 1) recent) ;
      if feq hi (series_max window) then
        let swing_high := hi in
        if (swing_high - price >=? min_swing_size_atr cfg * atr)%fl then
          let stop := (swing_high + atr * half)%fl in
          let target := (price - (swing_high - price) * Fin (3#2))%fl in
          let risk := fabs (swing_high - stop) in
          let reward := fabs (swing_high - target) in
          let rr := rr_of reward risk in
          if (rr >=? min_rr cfg)%fl then
            Ok [mkCand swing_high stop target risk reward "short"
                  [Tag "swing"; Tag "swing_high"]
                  [("swing_high", swing_high)]]
          else Ok []
        else Ok []
      else Ok []
  end.

Definition swing_low_at (cfg : Cfg) (price atr : fl) (recent : list Row)
    (i : nat) : result (list Candidate) :=
  let lookback := pivot_lookback cfg in
  match recent !! i with
  | None => Ok []
  | Some r =>
      do lo <- getcol "low" (low r) ;
      do window <- column "low" low
                     (iloc_slice (i - lookback) (i + lookback + 1) recent) ;
      if feq lo (series_min window) then
        let swing_low := lo in
        if (price - swing_low >=? min_swing_size_atr cfg * atr)%fl then
          let stop := (swing_low - atr * half)%fl in
          let target := (price + (price - swing_low) * Fin (3#2))%fl in
          let risk := fabs (swing_low - stop) in
          let reward := fabs (target - swing_low) in
          let rr := rr_of reward risk in
          if (rr >=? min_rr cfg)%fl then
            Ok [mkCand swing_low stop target risk reward "long"
                  [Tag "swing"; Tag "swing_low"]
                  [("swing_low", swing_low)]]
          else Ok []
        else Ok []
      else Ok []
  end.

(** A [for i in ...] loop whose body appends candidates or raises. *)
Fixpoint for_each (body : nat -> result (list Candidate)) (idxs : list nat)
  : result (list Candidate) :=
  match idxs with
  | [] => Ok []
  | i :: idxs' =>
      do c <- body i ;
      do cs <- for_each body idxs' ;
      Ok (c ++ cs)%list
  end.

Definition swing_family (cfg : Cfg) (df : list Row) (latest : Row)
    (price : fl) : result (list Candidate) :=
  if swing_enabled cfg then
    let lookback := pivot_lookback cfg in
    match atr_14 latest with
    | Some atr =>
        if (lookback * 2 <? length df)%nat then
          let recent := recent_rows lookback df in
          let range := seq lookback (length recent - lookback - lookback) in
          do highs <- for_each (swing_high_at cfg price atr recent) range ;
          do lows <- for_each (swing_low_at cfg price atr recent) range ;
          Ok (highs ++ lows)%list
        else Ok []
    | None => Ok []
    end
  else Ok [].

(** *** The generator *)

Definition generate_candidates (df_features : list Row) (cfg : Cfg)
  : result (list Candidate) :=
  match last df_features with
  | None => Ok []
  | Some latest =>
      let current_price := default (Fin 0) (close latest) in
      if feq current_price (Fin 0) then Ok []
      else
        let '(atr1, c_vwap) := vwap_family cfg latest current_price in
        do c_or <- opening_range_family cfg latest atr1 current_price ;
        let '(atr2, c_prior) :=
          prior_session_family cfg latest atr1 current_price in
        do c_swing <- swing_family cfg df_features latest current_price ;
        Ok (c_vwap ++ c_or ++ c_prior ++ c_swing)%list
  end.

(** The reward:risk ratio of a returned candidate. *)
Definition rr (c : Candidate) : fl := (reward_points c / risk_points c)%fl.

End Candidates.

(** ** [jcq/features/features.py]

    The feature columns themselves (logarithms, rolling windows, session
    groups, exponential averages) are computed by pandas and numpy and are
    taken as given; what is embedded is the frame the builder works on,
    the order of its steps and the calls into [jcq/core/time.py]. *)

Module Features.
Import ExecutionSim.

(** Lines 35-38: the index is made UTC-aware.  A naive reading is taken to
    be UTC ([tz_localize]), an aware one is converted ([tz_convert]). *)
Definition utc_index (ts : Time.Timestamp) : Time.Timestamp :=
  match Time.tzoff ts with
  | None => Time.mkTs (Time.wall ts) (Some 0%Z)
  | Some off => Time.mkTs (Time.wall ts - off) (Some 0%Z)
  end.

Definition reindex (b : Bar) : Bar :=
  mkBar (utc_index (bar_ts b)) (bar_open b) (bar_high b) (bar_low b)
    (bar_close b) (bar_volume b).

(** Line 40, [df.sort_index()]: the rows in the order of their stamps
    (rows with equal stamps are kept in the order they came in). *)
Fixpoint insert_row (b : Bar) (l : list Bar) : list Bar :=
  match l with
  | [] => [b]
  | c :: l' =>
      if (Time.wall (bar_ts c) <? Time.wall (bar_ts b))%Z
      then c :: insert_row b l'
      else b :: c :: l'
  end.

Definition sort_index (l : list Bar) : list Bar :=
  fold_right insert_row [] l.

(** [df.index.map(f)]: the first call that raises ends the map. *)
Fixpoint index_map {A B : Type} (f : A -> result B) (l : list A)
  : result (list B) :=
  match l with
  | [] => Ok []
  | x :: l' =>
      do y <- f x ;
      do ys <- index_map f l' ;
      Ok (y :: ys)
  end.

Section Build.

(** What [get_config()] holds once the configuration is loaded: the
    market zone and the configured regular trading hours. *)
Variable zone : Z -> Z.
Variable rth_start rth_end : Z.

(** The numeric columns.  [price_columns] stands for lines 43-62 (returns,
    realized volatility, ATR, range and wicks), [vwap_columns] for lines
    66-75 (session VWAP and its distances, given the session dates), and
    [finish] for lines 82-135 (opening range, prior-session levels,
    trend and time features, [dropna]), which receives the helper columns
    of lines 65, 79 and 80. *)
Variable Columns : Type.
Variable price_columns : list Bar -> result Columns.
Variable vwap_columns : list Bar -> Columns -> list Time.date -> result Columns.
Variable finish :
  list Bar -> Columns -> list Time.date -> list bool -> list (option fl) ->
  result (list Candidates.Row).

(** [build_features] *)
Definition build_features (df_bars : list Bar)
  : result (list Candidates.Row) :=
  match df_bars with
  | [] => Ok []
  | _ :: _ =>
      let df := sort_index (map reindex df_bars) in
      let index := map bar_ts df in
      do prices <- price_columns df ;
      let session_date := map (Time.session_day zone) index in
      do columns <- vwap_columns df prices session_date ;
      let is_rth := map (Time.is_rth zone rth_start rth_end) index in
      do minutes_since_rth <-
        index_map (Time.minutes_since_rth_open rth_start) index ;
      finish df columns session_date is_rth minutes_since_rth
  end.

End Build.

End Features.

(** ** State and exceptions together

    A method of a stateful object takes the state, returns or raises, and
    leaves a state behind in both cases. *)

Definition M (S A : Type) : Type := S -> result A * S.

Definition ret {S A : Type} (a : A) : M S A := fun s => (Ok a, s).

Definition throw {S A : Type} (e : exn) : M S A := fun s => (Raise e, s).

Definition bind {S A B : Type} (m : M S A) (k : A -> M S B) : M S B :=
  fun s =>
    match m s with
    | (Ok a, s') => k a s'
    | (Raise e, s') => (Raise e, s')
    end.

Definition lift {S A : Type} (r : result A) : M S A := fun s => (r, s).

Definition modify {S : Type} (f : S -> S) : M S unit := fun s => (Ok tt, f s).

Definition gets {S A : Type} (f : S -> A) : M S A := fun s => (Ok (f s), s).

Notation "'let*' x := m 'in' k" := (bind m (fun x => k))
  (at level 10, x name, m at level 100, k at level 200,
   format "'let*'  x  :=  m  'in'  '//' k").

(** ** [jcq/risk/contract_specs.py] *)

Module ContractSpecs.

Record Spec : Type := mkSpec {
  tick_size : fl;
  point_value : fl;
  tick_value : fl
}.

Definition NQ : Spec := mkSpec (Fin (1#4)) (Fin 20) (Fin 5).
Definition MNQ : Spec := mkSpec (Fin (1#4)) (Fin 2) (Fin (1#2)).

Definition get_contract_spec (symbol : string) : result Spec :=
  if String.eqb symbol "NQ" then Ok NQ
  else if String.eqb symbol "MNQ" then Ok MNQ
  else Raise (ValueError "Unknown symbol").

End ContractSpecs.

(** ** [jcq/risk/limits.py] *)

Module Limits.

(** [cfg_risk], every [.get(key, default)] resolved. *)
Record CfgRisk : Type := mkCfgRisk {
  dollars_per_r : fl;
  prefer_micro : bool;
  daily_max_r : fl;
  max_trades_day : Z;
  max_open_risk_r : fl;
  slippage_ticks_per_side : fl;
  fees_per_contract : fl;
  round_trip_fees : bool
}.

Definition default_cfg : CfgRisk :=
  {| dollars_per_r := Fin 100;
     prefer_micro := true;
     daily_max_r := Fin 5;
     max_trades_day := 10;
     max_open_risk_r := Fin 3;
     slippage_ticks_per_side := Fin (1#2);
     fees_per_contract := Fin (1#2);
     round_trip_fees := true |}.

(** The three attributes of a [RiskLimits] object: two dicts keyed by
    date and the open-risk total. *)
Record RiskLimits : Type := mkLimits {
  daily_realized_r : gmap Z fl;
  daily_trades : gmap Z Z;
  open_risk_r : fl
}.

(** [RiskLimits(cfg_risk)] *)
Definition init : RiskLimits := mkLimits ∅ ∅ (Fin 0).

(** Why a check refused; the f-string of the source names the limit and
    the measured value, which the constructor keeps unrendered. *)
Inductive reason : Type :=
| InvalidRiskPoints
| PositionTooSmall
| DailyMaxR (current_r max_r : fl)
| MaxTrades (current_trades max_trades : Z)
| MaxOpenRisk (new_open_risk max_open : fl).

(** The value of a day's counter: a day that has no entry yet counts as
    zero (the entry is created with that value on first reference). *)
Definition realized_r_on (st : RiskLimits) (d : Time.date) : fl :=
  default (Fin 0) (daily_realized_r st !! d).

Definition trades_on (st : RiskLimits) (d : Time.date) : Z :=
  default 0%Z (daily_trades st !! d).

Definition reset_daily (trade_date : Time.date) (st : RiskLimits) : RiskLimits :=
  let st1 :=
    match daily_realized_r st !! trade_date with
    | None => mkLimits (<[trade_date := Fin 0]> (daily_realized_r st))
                       (daily_trades st) (open_risk_r st)
    | Some _ => st
    end in
  match daily_trades st1 !! trade_date with
  | None => mkLimits (daily_realized_r st1)
                     (<[trade_date := 0%Z]> (daily_trades st1)) (open_risk_r st1)
  | Some _ => st1
  end.

Definition add_realized_r (trade_date : Time.date) (r : fl) (st : RiskLimits)
  : RiskLimits :=
  let st1 := reset_daily trade_date st in
  mkLimits (<[trade_date := (realized_r_on st1 trade_date + r)%fl]>
              (daily_realized_r st1))
           (daily_trades st1) (open_risk_r st1).

Definition add_trade (trade_date : Time.date) (st : RiskLimits) : RiskLimits :=
  let st1 := reset_daily trade_date st in
  mkLimits (daily_realized_r st1)
           (<[trade_date := (trades_on st1 trade_date + 1)%Z]> (daily_trades st1))
           (open_risk_r st1).

Definition fneg (a : fl) : fl := (Fin 0 - a)%fl.

Definition check_daily_max_r (cfg : CfgRisk) (trade_date : Time.date)
  : M RiskLimits (bool * option reason) :=
  let* _ := modify (reset_daily trade_date) in
  let* current_r := gets (fun st => realized_r_on st trade_date) in
  let max_r := daily_max_r cfg in
  if (current_r <=? fneg max_r)%fl
  then ret (false, Some (DailyMaxR current_r max_r))
  else ret (true, None).

Definition check_max_trades (cfg : CfgRisk) (trade_date : Time.date)
  : M RiskLimits (bool * option reason) :=
  let* _ := modify (reset_daily trade_date) in
  let* current_trades := gets (fun st => trades_on st trade_date) in
  let max_trades := max_trades_day cfg in
  if (current_trades >=? max_trades)%Z
  then ret (false, Some (MaxTrades current_trades max_trades))
  else ret (true, None).

Definition check_max_open_risk (cfg : CfgRisk) (additional_r : fl)
  : M RiskLimits (bool * option reason) :=
  let* new_open_risk := gets (fun st => (open_risk_r st + additional_r)%fl) in
  let max_open := max_open_risk_r cfg in
  if (new_open_risk >? max_open)%fl
  then ret (false, Some (MaxOpenRisk new_open_risk max_open))
  else ret (true, None).

Definition add_open_risk (r : fl) (st : RiskLimits) : RiskLimits :=
  mkLimits (daily_realized_r st) (daily_trades st) (open_risk_r st + r)%fl.

Definition remove_open_risk (r : fl) (st : RiskLimits) : RiskLimits :=
  mkLimits (daily_realized_r st) (daily_trades st)
           (pymax (Fin 0) (open_risk_r st - fabs r)%fl).

(** Two limit states that [size_position] cannot tell apart on a day. *)
Definition same_counters (d : Time.date) (a b : RiskLimits) : Prop :=
  realized_r_on a d = realized_r_on b d
  /\ trades_on a d = trades_on b d
  /\ open_risk_r a = open_risk_r b.

End Limits.

(** ** [jcq/risk/risk_manager.py] *)

Module RiskManager.
Import ContractSpecs Limits.

Record Decision : Type := mkDecision {
  allow : bool;
  reason_of : option reason;
  qty : Z;
  risk_r : fl;
  costs_estimate : fl;
  (** the key ["symbol"] exists only in an accepting decision *)
  symbol_of : option string
}.

Definition of_int (z : Z) : fl := Fin (inject_Z z).

(** [math.floor]: NaN cannot be converted to an integer. *)
Definition pyfloor (x : fl) : result Z :=
  match x with
  | NaN => Raise (ValueError "cannot convert float NaN to integer")
  | Fin q => Ok (Qfloor q)
  end.

Definition refuse (r : option reason) (contracts : Z) (risk : fl) : Decision :=
  mkDecision false r contracts risk (Fin 0) None.

(** Lines 82-92: the micro-contract preference.  Returns the symbol, the
    spec and the number of contracts sizing goes on with. *)
Definition prefer_micro_step (cfg : CfgRisk) (symbol : string) (spec : Spec)
    (contracts : Z) (dollars_at_risk risk_points : fl)
  : result (string * Spec * Z) :=
  if prefer_micro cfg && String.eqb symbol "NQ" then
    do mnq_spec <- get_contract_spec "MNQ" ;
    do mnq_contracts <-
      pyfloor (dollars_at_risk / (risk_points * point_value mnq_spec))%fl ;
    if (mnq_contracts >=? 1)%Z
    then Ok ("MNQ", mnq_spec, mnq_contracts)
    else Ok (symbol, spec, contracts)
  else Ok (symbol, spec, contracts).

(** [RiskManager.size_position]; the state is the manager's
    [self.limits].  The trade date arrives as a [date] (the engine passes
    [current_ts.date()]), and a candidate record always carries its
    [risk_points], so the default of [candidate.get("risk_points", 0)] is
    not needed. *)
Definition size_position (cfg : CfgRisk) (candidate : Candidates.Candidate)
    (symbol : string) (trade_date : Time.date) : M RiskLimits Decision :=
  let risk_points := Candidates.risk_points candidate in
  if (risk_points <=? Fin 0)%fl then
    ret (refuse (Some InvalidRiskPoints) 0 (Fin 0))
  else
    let* spec := lift (get_contract_spec symbol) in
    let dollars_at_risk := (dollars_per_r cfg * Fin 1)%fl in
    let dollars_per_point := point_value spec in
    let* contracts :=
      lift (pyfloor (dollars_at_risk / (risk_points * dollars_per_point))%fl) in
    if (contracts <=? 0)%Z then
      ret (refuse (Some PositionTooSmall) 0 (Fin 0))
    else
      let* sized :=
        lift (prefer_micro_step cfg symbol spec contracts
                dollars_at_risk risk_points) in
      let '(symbol, spec, contracts) := sized in
      let risk := Fin 1 in
      let* c1 := check_daily_max_r cfg trade_date in
      if negb (fst c1) then ret (refuse (snd c1) contracts risk)
      else
        let* c2 := check_max_trades cfg trade_date in
        if negb (fst c2) then ret (refuse (snd c2) contracts risk)
        else
          let* c3 := check_max_open_risk cfg risk in
          if negb (fst c3) then ret (refuse (snd c3) contracts risk)
          else
            let slippage_cost :=
              (slippage_ticks_per_side cfg * tick_value spec
               * of_int contracts)%fl in
            let fees :=
              (fees_per_contract cfg * of_int contracts
               * of_int (if round_trip_fees cfg then 2 else 1))%fl in
            ret (mkDecision true None contracts risk
                   (slippage_cost + fees)%fl (Some symbol)).

End RiskManager.

(** ** [jcq/backtest/costs.py] *)

Module Costs.
Import ContractSpecs Limits.

(** The flag [entry] is not read by the body. *)
Definition calculate_costs (symbol : string) (qty : Z) (cfg : CfgRisk)
    (entry : bool) : result fl :=
  do spec <- get_contract_spec symbol ;
  let slippage_cost :=
    (slippage_ticks_per_side cfg * tick_value spec * RiskManager.of_int qty)%fl in
  let fees := (fees_per_contract cfg * RiskManager.of_int qty)%fl in
  Ok (slippage_cost + fees)%fl.

End Costs.

(** ** [jcq/backtest/engine.py] *)

Module Engine.
Import ExecutionSim Limits RiskManager.

Record Trade : Type := mkTrade {
  ts_open : Time.Timestamp;
  ts_close : Time.Timestamp;
  symbol : string;
  t_side : string;
  t_qty : Z;
  entry_price : fl;
  exit_price : fl;
  stop_price : fl;
  target_price : fl;
  pnl : fl;
  r_mult : fl;
  fees : fl;
  slippage : fl;
  t_exit_reason : string;
  t_tags : list Candidates.tag
}.

(** The mutable part of a [BacktestEngine]: the limits of its risk
    manager and its trade ledger [self.trades]. *)
Record EngineState : Type := mkEngine {
  limits : RiskLimits;
  trades : list Trade
}.

(** [BacktestEngine(model, cfg_strategy, cfg_market, cfg_risk)] *)
Definition init : EngineState := mkEngine Limits.init [].

(** A call on [self.risk_manager] from an engine method. *)
Definition on_limits {A : Type} (m : M RiskLimits A) : M EngineState A :=
  fun s => let '(r, l) := m (limits s) in (r, mkEngine l (trades s)).

Definition record_trade (t : Trade) (s : EngineState) : EngineState :=
  mkEngine (limits s) (trades s ++ [t]).

(** Line 120, with a [pd.Timestamp] index. *)
Definition trade_date_of (current_ts : Time.Timestamp) : Time.date :=
  Time.date_of current_ts.

(** A [for] loop whose body acts on the state; an exception leaves the
    loop with the state reached so far. *)
Fixpoint for_loop {S : Type} (body : nat -> M S unit) (idxs : list nat)
  : M S unit :=
  match idxs with
  | [] => ret tt
  | i :: idxs' => let* _ := body i in for_loop body idxs'
  end.

Section Run.

(** What the engine is built with.  [build_features] is the feature
    builder the module imports ([Features.build_features] above is the
    one of the package); [choose] stands for scoring with the fitted
    model, ranking with [top_k=1], the rule filter and the pick of
    [filtered[0]] (lines 87-117), [None] when one of these stages leaves
    nothing.  Both may raise.  [metrics_of] is [_calculate_metrics] on a
    ledger that is not empty. *)
Variable cfg_strategy : Candidates.Cfg.
Variable cfg_risk : CfgRisk.
Variable build_features : list Bar -> result (list Candidates.Row).
Variable choose :
  list Candidates.Candidate -> list Candidates.Row -> Time.Timestamp ->
  result (option Candidates.Candidate).
Variable Metrics : Type.
Variable metrics_of : list Trade -> Metrics.

Record RunResult : Type := mkRun {
  run_trades : list Trade;
  (** [None] is the empty dict *)
  run_metrics : option Metrics
}.

(** Lines 140-183: the trade of a resolved execution. *)
Definition build_trade (df_bars : list Bar) (symbol : string)
    (candidate : Candidates.Candidate) (risk_decision : Decision)
    (execution : ExecutionResult) (current_ts : Time.Timestamp)
  : result Trade :=
  let qty := qty risk_decision in
  let entry_fill := entry_fill execution in
  let exit_fill := exit_fill execution in
  let pnl_points :=
    if is_long (Candidates.side candidate)
    then (exit_fill - entry_fill)%fl
    else (entry_fill - exit_fill)%fl in
  do spec <- ContractSpecs.get_contract_spec symbol ;
  let pnl_dollars :=
    (pnl_points * ContractSpecs.point_value spec * of_int qty)%fl in
  do entry_costs <- Costs.calculate_costs symbol qty cfg_risk true ;
  do exit_costs <- Costs.calculate_costs symbol qty cfg_risk false ;
  let total_costs := (entry_costs + exit_costs)%fl in
  let net_pnl := (pnl_dollars - total_costs)%fl in
  let risk_points := Candidates.risk_points candidate in
  let r_mult :=
    if (risk_points >? Fin 0)%fl
    then (net_pnl
          / (risk_points * ContractSpecs.point_value spec * of_int qty))%fl
    else Fin 0 in
  let exit_ts :=
    match df_bars !! exit_bar_idx execution with
    | Some b => bar_ts b
    | None => current_ts
    end in
  Ok (mkTrade current_ts exit_ts symbol (Candidates.side candidate) qty
        entry_fill exit_fill (Candidates.stop candidate)
        (Candidates.target candidate) net_pnl r_mult total_costs (Fin 0)
        (exit_reason execution) (Candidates.tags candidate)).

(** Lines 185-189: the ledger grows and the day's counters are
    credited. *)
Definition settle (trade_date : Time.date) (trade : Trade)
  : M EngineState unit :=
  let* _ := modify (record_trade trade) in
  let* _ := on_limits (modify (add_trade trade_date)) in
  on_limits (modify (add_realized_r trade_date (r_mult trade))).

(** Lines 75-189: one iteration of the bar loop. *)
Definition step (df_bars : list Bar) (df_features : list Candidates.Row)
    (symbol : string) (i : nat) : M EngineState unit :=
  match df_features !! i with
  | None => ret tt
  | Some current_bar =>
      let current_ts := Candidates.row_ts current_bar in
      let features_window := take (S i) df_features in
      let* candidates :=
        lift (Candidates.generate_candidates features_window cfg_strategy) in
      match candidates with
      | [] => ret tt
      | _ :: _ =>
          let* chosen := lift (choose candidates features_window current_ts) in
          match chosen with
          | None => ret tt
          | Some candidate =>
              let trade_date := trade_date_of current_ts in
              let* risk_decision :=
                on_limits (size_position cfg_risk candidate symbol trade_date) in
              if negb (allow risk_decision) then ret tt
              else
                match simulate_execution df_bars
                        (Candidates.entry candidate)
                        (Candidates.stop candidate)
                        (Candidates.target candidate)
                        (Candidates.side candidate) i with
                | None => ret tt
                | Some execution =>
                    let* trade :=
                      lift (build_trade df_bars symbol candidate
                              risk_decision execution current_ts) in
                    settle trade_date trade
                end
          end
      end
  end.

Definition empty_result : RunResult := mkRun [] None.

(** Lines 74-189: [for i in range(100, len(df_features))]. *)
Definition bar_loop (df_bars : list Bar) (df_features : list Candidates.Row)
    (symbol : string) : M EngineState unit :=
  for_loop (step df_bars df_features symbol)
    (seq 100 (length df_features - 100)).

(** [BacktestEngine.run] *)
Definition run (df_bars : list Bar) (symbol : string)
  : M EngineState RunResult :=
  match df_bars with
  | [] => ret empty_result
  | _ :: _ =>
      let* df_features := lift (build_features df_bars) in
      match df_features with
      | [] => ret empty_result
      | _ :: _ =>
          let* _ := bar_loop df_bars df_features symbol in
          let* df_trades := gets trades in
          match df_trades with
          | [] => ret (mkRun [] None)
          | _ :: _ => ret (mkRun df_trades (Some (metrics_of df_trades)))
          end
      end
  end.

End Run.

(** What one iteration of the bar loop can do to the engine: nothing;
    create the zero entries of the bar's date; or append one trade and
    credit it under the bar's date. *)
Inductive step_effect (d : Time.date) (s s' : EngineState) : Prop :=
| effect_none : s' = s -> step_effect d s s'
| effect_touch :
    limits s' = reset_daily d (limits s) -> trades s' = trades s ->
    step_effect d s s'
| effect_settle (t : Trade) :
    limits s' = add_realized_r d (r_mult t) (add_trade d (limits s)) ->
    trades s' = trades s ++ [t] ->
    step_effect d s s'.

(** The frame a call of the feature builder leaves the loop with: none
    when the builder raises. *)
Definition rows_of (r : result (list Candidates.Row)) : list Candidates.Row :=
  match r with
  | Ok df_features => df_features
  | Raise _ => []
  end.

(** A trade as the loop records it for [symbol]. *)
Definition recorded_for (symbol : string) (t : Trade) : Prop :=
  Engine.symbol t = symbol
  /\ (1 <= t_qty t)%Z
  /\ ((t_exit_reason t = "stop" /\ exit_price t = stop_price t)
      \/ (t_exit_reason t = "target" /\ exit_price t = target_price t)).

End Engine.

(** ** [jcq/sim/monte_carlo.py] *)

Module MonteCarlo.

(** [np.cumsum] *)
Fixpoint cumsum_from (acc : fl) (l : list fl) : list fl :=
  match l with
  | [] => []
  | x :: l' => let acc' := (acc + x)%fl in acc' :: cumsum_from acc' l'
  end.

Definition cumsum (l : list fl) : list fl := cumsum_from (Fin 0) l.

(** [np.maximum] and [np.minimum] propagate NaN. *)
Definition np_maximum (a b : fl) : fl :=
  match a, b with
  | Fin x, Fin y => if Qle_bool x y then b else a
  | _, _ => NaN
  end.

Definition np_minimum (a b : fl) : fl :=
  match a, b with
  | Fin x, Fin y => if Qle_bool y x then b else a
  | _, _ => NaN
  end.

(** [np.maximum.accumulate] *)
Fixpoint accumulate_from (m : fl) (l : list fl) : list fl :=
  match l with
  | [] => []
  | x :: l' => let m' := np_maximum m x in m' :: accumulate_from m' l'
  end.

Definition maximum_accumulate (l : list fl) : list fl :=
  match l with
  | [] => []
  | x :: l' => x :: accumulate_from x l'
  end.

(** [np.min] and [np.max] refuse an empty array. *)
Definition np_min (l : list fl) : result fl :=
  match l with
  | [] => Raise (ValueError "zero-size array to reduction operation minimum")
  | x :: l' => Ok (fold_left np_minimum l' x)
  end.

Definition np_max (l : list fl) : result fl :=
  match l with
  | [] => Raise (ValueError "zero-size array to reduction operation maximum")
  | x :: l' => Ok (fold_left np_maximum l' x)
  end.

(** [np.mean]; NaN on an empty array. *)
Definition np_mean (l : list fl) : fl :=
  (fold_left fadd l (Fin 0) / RiskManager.of_int (Z.of_nat (length l)))%fl.

(** [equity[-1]] *)
Definition last_elem (l : list fl) : result fl :=
  match last l with
  | Some x => Ok x
  | None => Raise (IndexError "index -1 is out of bounds")
  end.

(** [int(x)]: truncation towards zero. *)
Definition pyint (x : fl) : result Z :=
  match x with
  | NaN => Raise (ValueError "cannot convert float NaN to integer")
  | Fin q => Ok (Z.quot (Qnum q) (Z.pos (Qden q)))
  end.

Record Stats : Type := mkStats {
  final_r_mean : fl;
  final_r_std : fl;
  final_r_min : fl;
  final_r_max : fl;
  max_dd_mean : fl;
  max_dd_std : fl;
  max_dd_min : fl;
  max_dd_max : fl;
  (** the keys [var_<n>] and [cvar_<n>], by their number *)
  var : gmap Z fl;
  cvar : gmap Z fl
}.

Section Resampler.

(** numpy's process-wide generator: its state and one uniform index draw
    below a bound.  [np_std] and [np_percentile] are numpy's estimators (a
    square root and an interpolation). *)
Variable rng : Type.
Variable randint : nat -> rng -> nat * rng.
Variable np_std : list fl -> fl.
Variable np_percentile : list fl -> fl -> result fl.

(** [np.random.choice(r_stream, size=size, replace=True)] *)
Fixpoint choice (r_stream : list fl) (size : nat) : M rng (list fl) :=
  match size with
  | O => ret []
  | S size' =>
      let* i := (fun g => let '(i, g') := randint (length r_stream) g in
                          (Ok i, g')) in
      let* rest := choice r_stream size' in
      ret (nth (i mod length r_stream) r_stream NaN :: rest)
  end.

(** Lines 36-48: one bootstrap path, its final value and its deepest
    drawdown. *)
Definition simulate_once (r_stream : list fl) : M rng (fl * fl) :=
  let* sample := choice r_stream (length r_stream) in
  let equity := cumsum sample in
  let* final_r := lift (last_elem equity) in
  let running_max := maximum_accumulate equity in
  let drawdown := zip_with fsub equity running_max in
  let* max_dd := lift (np_min drawdown) in
  ret (final_r, max_dd).

(** Lines 35-48: [for _ in range(n_simulations)] *)
Fixpoint simulations (r_stream : list fl) (n : nat)
  : M rng (list fl * list fl) :=
  match n with
  | O => ret ([], [])
  | S n' =>
      let* one := simulate_once r_stream in
      let* rest := simulations r_stream n' in
      ret (fst one :: fst rest, snd one :: snd rest)
  end.

(** Lines 57-62: the tail statistics of one confidence level, added to
    the two dicts. *)
Definition tail_stats (final_r_results : list fl)
    (acc : gmap Z fl * gmap Z fl) (cl : fl)
  : result (gmap Z fl * gmap Z fl) :=
  let alpha := (Fin 1 - cl)%fl in
  do v <- np_percentile final_r_results (alpha * Fin 100)%fl ;
  let cv := np_mean (filter (fun x => fle x v = true) final_r_results) in
  do key <- pyint (cl * Fin 100)%fl ;
  Ok (<[key := v]> (fst acc), <[key := cv]> (snd acc)).

Fixpoint tails (final_r_results : list fl) (acc : gmap Z fl * gmap Z fl)
    (cls : list fl) : result (gmap Z fl * gmap Z fl) :=
  match cls with
  | [] => Ok acc
  | cl :: cls' =>
      do acc' <- tail_stats final_r_results acc cl ;
      tails final_r_results acc' cls'
  end.

(** [run_monte_carlo]; the argument is the [r_mult] column of the trade
    frame, and [None] is the empty dict returned for an empty frame. *)
Definition run_monte_carlo (r_stream : list fl) (n_simulations : nat)
    (confidence_levels : list fl) : M rng (option Stats) :=
  match r_stream with
  | [] => ret None
  | _ :: _ =>
      let* sims := simulations r_stream n_simulations in
      let final_r_results := fst sims in
      let max_dd_results := snd sims in
      let* tl := lift (tails final_r_results (∅, ∅) confidence_levels) in
      let* fmin := lift (np_min final_r_results) in
      let* fmax := lift (np_max final_r_results) in
      let* dmin := lift (np_min max_dd_results) in
      let* dmax := lift (np_max max_dd_results) in
      ret (Some (mkStats (np_mean final_r_results) (np_std final_r_results)
                   fmin fmax
                   (np_mean max_dd_results) (np_std max_dd_results)
                   dmin dmax (fst tl) (snd tl)))
  end.

(** The indices that the next [n] draws below [bound] return, and the
    state of the generator after them. *)
Fixpoint draws (bound n : nat) (g : rng) : list nat * rng :=
  match n with
  | O => ([], g)
  | S n' =>
      let '(i, g1) := randint bound g in
      let '(rest, g2) := draws bound n' g1 in
      (i :: rest, g2)
  end.

End Resampler.

(** A drawdown value: NaN, or a number that is not positive. *)
Definition not_positive (x : fl) : Prop := ~ fl_lt (Fin 0) x.

End MonteCarlo.

(** ** [jcq/strategy/rules.py]: the time-of-day gate *)

Module Rules.

Inductive rejection : Type :=
| WithinFirstMinutes (avoid_first : fl)
| WithinLastMinutes (avoid_last : fl).

Section TimeFilter.

Variable zone : Z -> Z.
Variable rth_start rth_end : Z.

(** Lines 43-57 of [apply_rules]: the rejection the time filters leave for
    a candidate, if any. *)
Definition time_filter (avoid_first avoid_last : fl) (ts : Time.Timestamp)
  : result (option rejection) :=
  if Time.is_rth zone rth_start rth_end ts then
    do minutes <- Time.minutes_since_rth_open rth_start ts ;
    match minutes with
    | None => Ok None
    | Some m =>
        if (m <? avoid_first)%fl then Ok (Some (WithinFirstMinutes avoid_first))
        else if (m >? Fin (16 * 60) - avoid_last)%fl
             then Ok (Some (WithinLastMinutes avoid_last))
             else Ok None
    end
  else Ok None.

End TimeFilter.

End Rules.

(** ** [jcq/models/bayes.py] *)

Module Bayes.

Record BayesianAdjustment : Type := mkBayes {
  window : nat;
  shrinkage_factor : fl;
  recent_probs : list fl;
  recent_outcomes : list fl
}.

(** [BayesianAdjustment(window, shrinkage_factor)] *)
Definition init (window : nat) (shrinkage_factor : fl) : BayesianAdjustment :=
  mkBayes window shrinkage_factor [] [].

(** [l.pop(0)] when the list has outgrown the window. *)
Definition trim (window : nat) (l : list fl) : list fl :=
  if (window <? length l)%nat then tail l else l.

(** [update]; [outcome] is [None] when it is not known yet. *)
Definition update (prob : fl) (outcome : option fl) (b : BayesianAdjustment)
  : BayesianAdjustment :=
  let probs := recent_probs b ++ [prob] in
  let outcomes :=
    match outcome with
    | Some o => recent_outcomes b ++ [o]
    | None => recent_outcomes b
    end in
  mkBayes (window b) (shrinkage_factor b)
    (trim (window b) probs) (trim (window b) outcomes).

(** [(p - o) ** 2] *)
Definition squared_error (p o : fl) : fl := ((p - o) * (p - o))%fl.

(** [adjust]: the adjusted probability and the confidence. *)
Definition adjust (b : BayesianAdjustment) (prob : fl) : fl * fl :=
  if (length (recent_outcomes b) <? 10)%nat then (prob, Fin (1#2))
  else
    let recent_probs_window :=
      drop (length (recent_probs b) - length (recent_outcomes b))
        (recent_probs b) in
    let brier_scores :=
      zip_with squared_error recent_probs_window (recent_outcomes b) in
    let avg_brier := MonteCarlo.np_mean brier_scores in
    let adjusted_prob :=
      if (avg_brier >? Fin (3#10))%fl then
        let shrinkage :=
          (shrinkage_factor b * (avg_brier - Fin (1#4)) / Fin (1#4))%fl in
        (prob * (Fin 1 - shrinkage) + Fin (1#2) * shrinkage)%fl
      else prob in
    let confidence :=
      pymax (Fin 0)
        (pymin (Fin 1) (Fin 1 - (avg_brier - Fin (1#4)) / Fin (1#4))%fl) in
    (adjusted_prob, confidence).

End Bayes.

(** ** [jcq/strategy/scorer.py] *)

Module Scorer.

(** [cfg_strategy["scoring"]], every [.get(key, default)] resolved. *)
Record Cfg : Type := mkCfg {
  use_bayesian_adjustment : bool;
  min_prob : fl;
  max_prob : fl
}.

Definition default_cfg : Cfg := mkCfg false (Fin (45#100)) (Fin (95#100)).

(** A candidate with the keys scoring adds to its dict. *)
Record Scored : Type := mkScored {
  candidate : Candidates.Candidate;
  confidence : fl;
  prob_up : fl;
  prob_down : fl;
  p_win : fl;
  R_target : fl;
  ev_r : fl;
  expected_r : fl
}.

Section Score.

(** [model.predict_proba] on the latest feature row: the pair
    (prob_down, prob_up), or [None] when the call raises. *)
Variable predict_proba : Candidates.Row -> option (fl * fl).

(** Lines 51-95: the body of the loop for one candidate; [None] is
    [continue]. *)
Definition score_one (cfg : Cfg) (bayesian_adjuster : option Bayes.BayesianAdjustment)
    (prob_down prob_up : fl) (c : Candidates.Candidate) : option Scored :=
  let side := Candidates.side c in
  let risk_points := Candidates.risk_points c in
  let reward_points := Candidates.reward_points c in
  if (risk_points <=? Fin 0)%fl then None
  else
    let p_win := if String.eqb side "long" then prob_up else prob_down in
    let '(p_win, confidence) :=
      match bayesian_adjuster with
      | Some b =>
          if use_bayesian_adjustment cfg then Bayes.adjust b p_win
          else (p_win, Fin 1)
      | None => (p_win, Fin 1)
      end in
    if (p_win <? min_prob cfg)%fl || (p_win >? max_prob cfg)%fl then None
    else
      let R_target := (reward_points / risk_points)%fl in
      let ev_r := (p_win * R_target - (Fin 1 - p_win) * Fin 1)%fl in
      let expected_r := (p_win * R_target - (Fin 1 - p_win) * Fin 1)%fl in
      Some (mkScored c confidence prob_up prob_down p_win R_target ev_r
              expected_r).

(** [score_candidates] *)
Definition score_candidates (candidates : list Candidates.Candidate)
    (df_features : list Candidates.Row) (cfg : Cfg)
    (bayesian_adjuster : option Bayes.BayesianAdjustment) : list Scored :=
  match candidates, last df_features with
  | [], _ => []
  | _, None => []
  | _ :: _, Some latest_features =>
      match predict_proba latest_features with
      | None => []
      | Some (prob_down, prob_up) =>
          omap (score_one cfg bayesian_adjuster prob_down prob_up) candidates
      end
  end.

End Score.

(** The sort key of [rank_candidates]. *)
Definition key (c : Scored) : fl * fl * fl := (ev_r c, p_win c, confidence c).

(** [<] on the key tuples: the first components that are not [==] decide. *)
Definition key_lt (a b : fl * fl * fl) : bool :=
  let '(a1, a2, a3) := a in
  let '(b1, b2, b3) := b in
  if feq a1 b1 then
    if feq a2 b2 then flt a3 b3 else flt a2 b2
  else flt a1 b1.

(** [sorted(candidates, key=..., reverse=True)] on keys that are numbers:
    descending, candidates with equal keys in their original order. *)
Fixpoint insert_desc (x : Scored) (l : list Scored) : list Scored :=
  match l with
  | [] => [x]
  | y :: l' =>
      if key_lt (key x) (key y) then y :: insert_desc x l' else x :: y :: l'
  end.

Definition sorted_desc (l : list Scored) : list Scored :=
  fold_right insert_desc [] l.

(** [rank_candidates] *)
Definition rank_candidates (candidates : list Scored) (top_k : nat)
  : list Scored :=
  match candidates with
  | [] => []
  | _ :: _ => take top_k (sorted_desc candidates)
  end.

(** Keys made of numbers. *)
Definition finite_key (c : Scored) : Prop :=
  notna (ev_r c) = true /\ notna (p_win c) = true /\ notna (confidence c) = true.

(** [x] is not ranked below [y]. *)
Definition not_below (x y : Scored) : Prop := key_lt (key x) (key y) = false.

Fixpoint descending (l : list Scored) : Prop :=
  match l with
  | [] => True
  | x :: l' => Forall (not_below x) l' /\ descending l'
  end.

End Scorer.

(** ** Sample data *)

Module Samples.
Import ExecutionSim.

(** Eastern Standard Time all year round. *)
Definition est (utc : Z) : Z := Time.hm (-5) 0.

(** UTC stamps one minute apart, from 21:50 on day 0: stamp 100 reads
    23:30 UTC, which is 18:30 in New York. *)
Definition stamp (i : nat) : Time.Timestamp :=
  Time.mkTs (Time.hm 21 (50 + Z.of_nat i)) (Some 0%Z).

Definition flat_bar (i : nat) : Bar :=
  mkBar (stamp i) (Fin 100) (Fin 101) (Fin 99) (Fin 100) (Fin 1000).

(** 101 quiet bars around 100, then a bar that spans 90..110. *)
Definition df_bars : list Bar :=
  map flat_bar (seq 0 101)
  ++ [mkBar (stamp 101) (Fin 100) (Fin 110) (Fin 90) (Fin 100) (Fin 1000)].

(** A feature frame that carries the prior session's range only, a high
    of 110 over a low of 100. *)
Definition prior_frame (bars : list Bar) : list Candidates.Row :=
  map (fun b =>
         Candidates.mkRow (bar_ts b) (Some (bar_close b)) (Some (bar_high b))
           (Some (bar_low b)) None None None None
           (Some (Fin 110)) (Some (Fin 100)))
      bars.

(** A feature frame for these bars with every column the generator
    reads: the session VWAP (200) and the opening range (80 to 120) are far
    from the price, the ATR is one point, and the price sits on the prior
    session's low (100, under a high of 110), so that the prior-low retest
    is the one candidate of a quiet bar. *)
Definition feature_row (b : Bar) : Candidates.Row :=
  Candidates.mkRow (bar_ts b) (Some (bar_close b)) (Some (bar_high b))
    (Some (bar_low b)) (Some (Fin 200)) (Some (Fin 1))
    (Some (Fin 120)) (Some (Fin 80)) (Some (Fin 110)) (Some (Fin 100)).

Definition df_features : list Candidates.Row := map feature_row df_bars.

(** A selection stage that lets the first candidate through (where there
    is one candidate only, a model that scores it inside the probability
    band and rules that have nothing against it). *)
Definition first_candidate (cs : list Candidates.Candidate)
    (window : list Candidates.Row) (ts : Time.Timestamp)
  : result (option Candidates.Candidate) := Ok (head cs).

(** The bar loop on the sample frame. *)
Definition sample_loop : M Engine.EngineState unit :=
  Engine.bar_loop Candidates.default_cfg Limits.default_cfg first_candidate
    df_bars df_features "NQ".

(** The feature builder of the package with numeric columns that hold
    nothing. *)
Definition sample_builder : list Bar -> result (list Candidates.Row) :=
  Features.build_features est (Time.hm 9 30) (Time.hm 16 0) unit
    (fun _ => Ok tt) (fun _ _ _ => Ok tt) (fun _ _ _ _ _ => Ok []).

Definition sample_run (bars : list Bar)
  : M Engine.EngineState (Engine.RunResult nat) :=
  Engine.run Candidates.default_cfg Limits.default_cfg sample_builder
    first_candidate nat (@length Engine.Trade) bars "NQ".

(** The candidate of the prior-low retest, on [prior_frame] and on
    [df_features]. *)
Definition prior_low_candidate : Candidates.Candidate :=
  Candidates.mkCand (Fin 100) (Fin (199#2)) (Fin 110) (Fin (1#2)) (Fin 10)
    "long" [Candidates.Tag "prior_session"; Candidates.Tag "prior_low"]
    [("prior_high", Fin 110); ("prior_low", Fin 100)].

(** A long bracket whose second bar reaches both the stop and the target. *)
Definition ts0 : Time.Timestamp := Time.mkTs 0 None.

Definition both_bars : list Bar :=
  [ mkBar ts0 (Fin 100) (Fin 101) (Fin 99) (Fin 100) (Fin 1000);
    mkBar ts0 (Fin 100) (Fin 110) (Fin 90) (Fin 100) (Fin 1000) ].

(** A toy generator: the state counts the draws, and the index drawn
    moves on by one every four draws. *)
Definition counting_randint (bound : nat) (g : nat) : nat * nat :=
  ((g / 4) mod bound, S g)%nat.

(** A candidate with a 10-point stop. *)
Definition wide_candidate : Candidates.Candidate :=
  Candidates.mkCand (Fin 100) (Fin 90) (Fin 130) (Fin 10) (Fin 30)
    "long" [Candidates.Tag "swing"; Candidates.Tag "swing_low"]
    [("swing_low", Fin 100)].

(** The decision on [prior_low_candidate] under the default limits. *)
Definition sample_decision : RiskManager.Decision :=
  RiskManager.mkDecision true None 100 (Fin 1) (Fin 125) (Some "MNQ").

(** Its execution from bar 100 of [df_bars]: filled at 100, stopped on
    bar 101. *)
Definition sample_execution : ExecutionResult :=
  mkExec (Fin 100) (Fin (199#2)) 101 "stop".

(** A row whose session VWAP is still NaN while the ATR and the opening
    range are known, the close sitting on the opening-range low. *)
Definition warmup_row : Candidates.Row :=
  Candidates.mkRow (stamp 0) (Some (Fin 100)) (Some (Fin 101))
    (Some (Fin 99)) (Some NaN) (Some (Fin 10)) (Some (Fin 110))
    (Some (Fin 100)) None None.

(** The same row once the VWAP is known but the ATR is still NaN. *)
Definition atr_warmup_row : Candidates.Row :=
  Candidates.mkRow (stamp 0) (Some (Fin 100)) (Some (Fin 101))
    (Some (Fin 99)) (Some (Fin 100)) (Some NaN) (Some (Fin 110))
    (Some (Fin 100)) None None.

(** The row of bar 100 in the sample features. *)
Definition row_100 : Candidates.Row := feature_row (flat_bar 100).

(** A candidate whose risk is NaN. *)
Definition nan_candidate : Candidates.Candidate :=
  Candidates.mkCand (Fin 100) NaN (Fin 110) NaN (Fin 10)
    "long" [Candidates.Tag "opening_range"; Candidates.Tag "orl_retest"]
    [("orh", Fin 110); ("orl", Fin 100)].

(** Limits that allow no trade at all. *)
Definition no_trades_cfg : Limits.CfgRisk :=
  Limits.mkCfgRisk (Fin 100) true (Fin 5) 0 (Fin 3) (Fin (1#2)) (Fin (1#2)) true.

(** Two scored candidates, the second with the higher expected value. *)
Definition two_scored : list Scorer.Scored :=
  [ Scorer.mkScored wide_candidate (Fin 1) (Fin (1#2)) (Fin (1#2)) (Fin (1#2))
      (Fin 3) (Fin 1) (Fin 1);
    Scorer.mkScored prior_low_candidate (Fin 1) (Fin (1#2)) (Fin (1#2))
      (Fin (1#2)) (Fin 20) (Fin (19#2)) (Fin (19#2)) ].

(** A trade stream of zeros. *)
Definition zeros (n : nat) : list fl := repeat (Fin 0) n.

End Samples.

(** * Properties *)

(** ** Order on floats *)

Lemma fle_spec a b : fle a b = true <-> fl_le a b.
Proof.
  destruct a as [|x], b as [|y]; simpl; try (split; [discriminate | tauto]).
  apply Qle_bool_iff.
Qed.

Lemma flt_spec a b : flt a b = true <-> fl_lt a b.
Proof.
  destruct a as [|x], b as [|y]; simpl; try (split; [discriminate | tauto]).
  rewrite negb_true_iff, <- not_true_iff_false, Qle_bool_iff.
  split; [apply Qnot_le_lt | apply Qlt_not_le].
Qed.

Lemma pymax_ge a b : notna a = true -> fl_le a (pymax a b).
Proof.
  unfold pymax, fgt. destruct (flt a b) eqn:E.
  - apply flt_spec in E. destruct a, b; simpl in *; try tauto.
    intros _. now apply Qlt_le_weak.
  - destruct a; simpl; [discriminate | intros _; apply Qle_refl].
Qed.

Lemma pymin_le a b : notna a = true -> fl_le (pymin a b) a.
Proof.
  unfold pymin. destruct (flt b a) eqn:E.
  - apply flt_spec in E. destruct a, b; simpl in *; try tauto.
    intros _. now apply Qlt_le_weak.
  - destruct a; simpl; [discriminate | intros _; apply Qle_refl].
Qed.

Lemma fdiv_NaN_r a : fdiv a NaN = NaN.
Proof. now destruct a. Qed.

Lemma fle_notna_l a b : fle a b = true -> notna a = true.
Proof. destruct a, b; simpl; congruence. Qed.

Lemma fle_notna_r a b : fle a b = true -> notna b = true.
Proof. destruct a, b; simpl; congruence. Qed.

(** ** The execution simulator *)

Module ExecutionSimFacts.
Import ExecutionSim Samples.

(** The forward loop stops at the first bar that triggers, and a bar that
    triggers the stop ends it with a stop whatever its target test says. *)
Lemma exit_scan_stop side stop target ef :
  forall (rest : list Bar) (i n : nat) (bj : Bar),
    rest !! n = Some bj ->
    (forall k bk, (k < n)%nat -> rest !! k = Some bk ->
       stop_hit side stop bk = false /\ target_hit side target bk = false) ->
    stop_hit side stop bj = true ->
    exit_scan side stop target ef i rest = Some (mkExec ef stop (i + n) "stop").
Proof.
  induction rest as [|b rest IH]; intros i n bj Hn Hbefore Hstop.
  - destruct n; discriminate.
  - destruct n as [|n]; simpl in *.
    + injection Hn as ->. rewrite Hstop. now rewrite Nat.add_0_r.
    + destruct (Hbefore 0%nat b) as [Hs Ht]; [lia | reflexivity |].
      rewrite Hs, Ht.
      rewrite (IH (S i) n bj Hn); [now rewrite Nat.add_succ_r | | exact Hstop].
      intros k bk Hk Hbk. apply (Hbefore (S k) bk); [lia | exact Hbk].
Qed.

(** What a returned result tells about the bars the loop went through. *)
Lemma exit_scan_inv side stop target ef :
  forall (rest : list Bar) (i : nat) (r : ExecutionResult),
    exit_scan side stop target ef i rest = Some r ->
    exists n bj,
      exit_bar_idx r = (i + n)%nat /\ rest !! n = Some bj /\
      entry_fill r = ef /\
      (forall k bk, (k < n)%nat -> rest !! k = Some bk ->
         stop_hit side stop bk = false /\ target_hit side target bk = false) /\
      ((stop_hit side stop bj = true /\ exit_reason r = "stop"
        /\ exit_fill r = stop)
       \/ (stop_hit side stop bj = false /\ target_hit side target bj = true
           /\ exit_reason r = "target" /\ exit_fill r = target)).
Proof.
  induction rest as [|b rest IH]; intros i r H; simpl in H; [discriminate|].
  destruct (stop_hit side stop b) eqn:Hs.
  - injection H as <-. exists 0%nat, b. simpl.
    split; [lia|]. split; [reflexivity|]. split; [reflexivity|].
    split; [intros; lia | left; auto].
  - destruct (target_hit side target b) eqn:Ht.
    + injection H as <-. exists 0%nat, b. simpl.
      split; [lia|]. split; [reflexivity|]. split; [reflexivity|].
      split; [intros; lia | right; auto].
    + destruct (IH _ _ H) as (n & bj & Hi & Hn & Hef & Hb & Hcase).
      exists (S n), bj. simpl.
      split; [lia|]. split; [exact Hn|]. split; [exact Hef|].
      split; [|exact Hcase].
      intros [|k] bk Hk Hbk; simpl in Hbk.
      * injection Hbk as <-. auto.
      * apply (Hb k bk); [lia | exact Hbk].
Qed.

(** C3. Once the entry is filled, a later bar that the loop examines (no
    bar between the entry bar and it triggers the stop or the target) and
    that satisfies both the stop and the target condition ends the
    simulation there, with exit_reason "stop" and the exit filled exactly
    at the stop price. *)
Theorem stop_wins_on_same_bar
    (bars : list Bar) (entry stop target : fl) (side : string)
    (idx j : nat) (eb bj : Bar) (ef : fl) :
  bars !! idx = Some eb ->
  entry_phase side entry eb = Some ef ->
  (idx < j)%nat ->
  bars !! j = Some bj ->
  (forall k bk, (idx < k < j)%nat -> bars !! k = Some bk ->
     stop_hit side stop bk = false /\ target_hit side target bk = false) ->
  stop_hit side stop bj = true ->
  target_hit side target bj = true ->
  simulate_execution bars entry stop target side idx
  = Some (mkExec ef stop j "stop").
Proof.
  intros Heb Hef Hlt Hbj Hbefore Hstop _.
  unfold simulate_execution. rewrite Heb, Hef.
  replace (mkExec ef stop j "stop")
    with (mkExec ef stop (S idx + (j - S idx)) "stop") by (f_equal; lia).
  apply exit_scan_stop with (bj := bj).
  - rewrite lookup_drop. replace (S idx + (j - S idx))%nat with j by lia.
    exact Hbj.
  - intros k bk Hk Hbk. rewrite lookup_drop in Hbk.
    apply (Hbefore (S idx + k)%nat bk); [lia | exact Hbk].
  - exact Hstop.
Qed.

Lemma stop_wins_on_same_bar_witness :
  simulate_execution both_bars (Fin 100) (Fin 95) (Fin 105) "long" 0
  = Some (mkExec (Fin 100) (Fin 95) 1 "stop").
Proof.
  apply (stop_wins_on_same_bar both_bars (Fin 100) (Fin 95) (Fin 105) "long"
           0 1
           (mkBar ts0 (Fin 100) (Fin 101) (Fin 99) (Fin 100) (Fin 1000))
           (mkBar ts0 (Fin 100) (Fin 110) (Fin 90) (Fin 100) (Fin 1000))
           (Fin 100)).
  - reflexivity.
  - reflexivity.
  - lia.
  - reflexivity.
  - intros k bk Hk. lia.
  - reflexivity.
  - reflexivity.
Defined.

(** Every bar the loop went through before the exit bar triggered nothing,
    so a bar on the way that satisfies both conditions is the exit bar and
    the result is a stop. *)
Lemma examined_bar_both_is_stop
    (bars : list Bar) (entry stop target : fl) (side : string)
    (idx j : nat) (bj : Bar) (r : ExecutionResult) :
  simulate_execution bars entry stop target side idx = Some r ->
  (idx < j <= exit_bar_idx r)%nat ->
  bars !! j = Some bj ->
  stop_hit side stop bj = true ->
  exit_bar_idx r = j /\ exit_reason r = "stop" /\ exit_fill r = stop.
Proof.
  unfold simulate_execution.
  destruct (bars !! idx) as [eb|]; [|discriminate].
  destruct (entry_phase side entry eb) as [ef|]; [|discriminate].
  intros H Hj Hbj Hs.
  destruct (exit_scan_inv _ _ _ _ _ _ _ H) as (n & b & Hi & Hn & _ & Hb & Hcase).
  rewrite lookup_drop in Hn.
  assert (Hjn : j = (S idx + n)%nat).
  { destruct (Nat.eq_dec j (S idx + n)) as [|Hne]; [assumption|].
    destruct (Hb (j - S idx)%nat bj) as [Hs' _]; [lia | | congruence].
    rewrite lookup_drop. now replace (S idx + (j - S idx))%nat with j by lia. }
  subst j. rewrite Hbj in Hn. injection Hn as <-.
  destruct Hcase as [(_ & Hr & Hf) | (Hs' & _)]; [auto | congruence].
Qed.

(** A returned result is a stop at the stop price or a target at the
    target price. *)
Lemma simulate_execution_exit
    (bars : list Bar) (entry stop target : fl) (side : string) (idx : nat)
    (r : ExecutionResult) :
  simulate_execution bars entry stop target side idx = Some r ->
  (exit_reason r = "stop" /\ exit_fill r = stop)
  \/ (exit_reason r = "target" /\ exit_fill r = target).
Proof.
  unfold simulate_execution.
  destruct (bars !! idx) as [eb|]; [|discriminate].
  destruct (entry_phase side entry eb) as [ef|]; [|discriminate].
  intros H.
  destruct (exit_scan_inv _ _ _ _ _ _ _ H)
    as (n & bj & _ & _ & _ & _ & [(_ & ? & ?) | (_ & _ & ? & ?)]); auto.
Qed.

(** The entry phase fills exactly when the entry price is inside the bar. *)
Lemma entry_phase_fills side entry eb :
  is_Some (entry_phase side entry eb)
  <-> fl_le (bar_low eb) entry /\ fl_le entry (bar_high eb).
Proof.
  unfold entry_phase, fge. rewrite <- !fle_spec.
  destruct (is_long side);
    destruct (fle (bar_low eb) entry), (fle entry (bar_high eb)); simpl;
    split; intros H; try (destruct H as [? H]; discriminate);
    try (destruct H; discriminate); eauto.
Qed.

Lemma entry_phase_price side entry eb ef :
  entry_phase side entry eb = Some ef ->
  ef = (if is_long side then pymax entry (bar_open eb)
        else pymin entry (bar_open eb))
  /\ (if is_long side then fl_le entry ef else fl_le ef entry).
Proof.
  unfold entry_phase, fge.
  destruct (is_long side);
    destruct (fle (bar_low eb) entry) eqn:Hlo; simpl; try discriminate;
    destruct (fle entry (bar_high eb)) eqn:Hhi; simpl; try discriminate;
    intros [= <-]; (split; [reflexivity|]).
  - apply pymax_ge. eapply fle_notna_l; eassumption.
  - apply pymin_le. eapply fle_notna_l; eassumption.
Qed.

(** The forward loop returns a result as soon as some bar triggers. *)
Lemma exit_scan_some side stop target ef :
  forall (rest : list Bar) (i n : nat) (bj : Bar),
    rest !! n = Some bj ->
    stop_hit side stop bj = true \/ target_hit side target bj = true ->
    exists r,
      exit_scan side stop target ef i rest = Some r /\ entry_fill r = ef.
Proof.
  induction rest as [|b rest IH]; intros i n bj Hn Hhit.
  - destruct n; discriminate.
  - simpl.
    destruct (stop_hit side stop b) eqn:Hs; [eexists; split; reflexivity|].
    destruct (target_hit side target b) eqn:Ht; [eexists; split; reflexivity|].
    destruct n as [|n]; simpl in Hn.
    + injection Hn as <-. destruct Hhit; congruence.
    + exact (IH (S i) n bj Hn Hhit).
Qed.

(** C4. The order fills if and only if the entry price lies within
    [low, high] of the entry bar.  When it does not, the simulation returns
    None whatever the later bars are; when it does, the simulation returns
    a result as soon as a later bar triggers the stop or the target, and
    only then.  The entry_fill of a result is max(entry, open) for a long
    and min(entry, open) for a short, hence never better than the entry
    price for the side. *)
Theorem entry_fill_is_adverse
    (bars : list Bar) (entry stop target : fl) (side : string) (idx : nat)
    (eb : Bar) :
  bars !! idx = Some eb ->
  let inside := fl_le (bar_low eb) entry /\ fl_le entry (bar_high eb) in
  let triggered :=
    exists j bj,
      (idx < j)%nat /\ bars !! j = Some bj
      /\ (stop_hit side stop bj = true \/ target_hit side target bj = true) in
  let fill :=
    if is_long side then pymax entry (bar_open eb)
    else pymin entry (bar_open eb) in
  (is_Some (entry_phase side entry eb) <-> inside)
  /\ (~ inside -> simulate_execution bars entry stop target side idx = None)
  /\ (is_Some (simulate_execution bars entry stop target side idx)
      <-> inside /\ triggered)
  /\ (forall r,
        simulate_execution bars entry stop target side idx = Some r ->
        entry_fill r = fill
        /\ (if is_long side then fl_le entry (entry_fill r)
            else fl_le (entry_fill r) entry)).
Proof.
  intros Heb inside triggered fill.
  split; [apply entry_phase_fills|]. split; [|split].
  - intros Hout. unfold simulate_execution. rewrite Heb.
    destruct (entry_phase side entry eb) as [ef|] eqn:Hef; [|reflexivity].
    exfalso. apply Hout. apply (proj1 (entry_phase_fills side entry eb)).
    rewrite Hef. eauto.
  - unfold simulate_execution. rewrite Heb. split.
    + intros [r Hr].
      destruct (entry_phase side entry eb) as [ef|] eqn:Hef; [|discriminate].
      split.
      * apply (proj1 (entry_phase_fills side entry eb)). rewrite Hef. eauto.
      * destruct (exit_scan_inv _ _ _ _ _ _ _ Hr)
          as (n & bj & _ & Hn & _ & _ & Hcase).
        rewrite lookup_drop in Hn.
        exists (S idx + n)%nat, bj. split; [lia|]. split; [exact Hn|].
        destruct Hcase as [(? & _) | (_ & ? & _)]; auto.
    + intros [Hin (j & bj & Hj & Hbj & Hhit)].
      apply (proj2 (entry_phase_fills side entry eb)) in Hin as [ef Hef].
      rewrite Hef.
      destruct (exit_scan_some side stop target ef (drop (S idx) bars)
                  (S idx) (j - S idx) bj) as (r & Hr & _); [|exact Hhit|eauto].
      rewrite lookup_drop. now replace (S idx + (j - S idx))%nat with j by lia.
  - intros r Hr. unfold simulate_execution in Hr. rewrite Heb in Hr.
    destruct (entry_phase side entry eb) as [ef|] eqn:Hef; [|discriminate].
    destruct (exit_scan_inv _ _ _ _ _ _ _ Hr) as (n & b & _ & _ & Hfill & _).
    rewrite Hfill. now apply entry_phase_price.
Qed.

Example both_bars_run :
  simulate_execution both_bars (Fin 100) (Fin 95) (Fin 105) "long" 0
  = Some (mkExec (Fin 100) (Fin 95) 1 "stop").
Proof. reflexivity. Qed.

Lemma entry_fill_is_adverse_witness :
  is_Some (simulate_execution both_bars (Fin 100) (Fin 95) (Fin 105) "long" 0)
  /\ fl_le (Fin 100) (entry_fill (mkExec (Fin 100) (Fin 95) 1 "stop")).
Proof.
  pose proof (entry_fill_is_adverse both_bars (Fin 100) (Fin 95) (Fin 105)
                "long" 0
                (mkBar ts0 (Fin 100) (Fin 101) (Fin 99) (Fin 100) (Fin 1000))
                eq_refl) as (_ & _ & Hiff & H).
  split.
  - apply (proj2 Hiff). split; [split; discriminate|].
    exists 1%nat,
      (mkBar ts0 (Fin 100) (Fin 110) (Fin 90) (Fin 100) (Fin 1000)).
    split; [lia|]. split; [reflexivity | left; reflexivity].
  - exact (proj2 (H _ both_bars_run)).
Defined.

End ExecutionSimFacts.

(** ** The risk manager *)

Module RiskFacts.
Import ContractSpecs Limits RiskManager.

Lemma reset_daily_realized d d' st :
  realized_r_on (reset_daily d st) d' = realized_r_on st d'.
Proof.
  unfold reset_daily, realized_r_on.
  destruct (daily_realized_r st !! d) eqn:Hr; simpl.
  - destruct (daily_trades st !! d); reflexivity.
  - destruct (daily_trades st !! d); simpl;
      (destruct (decide (d = d')) as [->|Hne];
       [rewrite lookup_insert_eq, Hr; reflexivity
       | rewrite lookup_insert_ne by assumption; reflexivity]).
Qed.

Lemma reset_daily_trades d d' st :
  trades_on (reset_daily d st) d' = trades_on st d'.
Proof.
  unfold reset_daily, trades_on.
  destruct (daily_realized_r st !! d) eqn:Hr; simpl;
    (destruct (daily_trades st !! d) eqn:Ht; simpl; [reflexivity|]);
    (destruct (decide (d = d')) as [->|Hne];
     [rewrite lookup_insert_eq, Ht; reflexivity
     | rewrite lookup_insert_ne by assumption; reflexivity]).
Qed.

Lemma reset_daily_open d st : open_risk_r (reset_daily d st) = open_risk_r st.
Proof.
  unfold reset_daily.
  destruct (daily_realized_r st !! d); simpl;
    destruct (daily_trades st !! d); reflexivity.
Qed.

(** After a reset the day has an entry in both dicts. *)
Lemma reset_daily_present d st :
  is_Some (daily_realized_r (reset_daily d st) !! d)
  /\ is_Some (daily_trades (reset_daily d st) !! d).
Proof.
  unfold reset_daily.
  destruct (daily_realized_r st !! d) eqn:Hr; simpl;
    destruct (daily_trades st !! d) eqn:Ht; simpl;
    rewrite ?lookup_insert_eq, ?Hr, ?Ht; eauto.
Qed.

Lemma reset_daily_idem d st : reset_daily d (reset_daily d st) = reset_daily d st.
Proof.
  destruct (reset_daily_present d st) as [[x Hx] [y Hy]].
  unfold reset_daily at 1. rewrite Hx. simpl. rewrite Hy. reflexivity.
Qed.

Lemma same_counters_reset d st : same_counters d (reset_daily d st) st.
Proof.
  repeat split;
    auto using reset_daily_realized, reset_daily_trades, reset_daily_open.
Qed.

(** The state a sizing call leaves: the one it found, or that state with the
    day's entries created at zero. *)
Lemma size_position_state cfg cand symbol d st :
  snd (size_position cfg cand symbol d st) = st
  \/ snd (size_position cfg cand symbol d st) = reset_daily d st.
Proof.
  cbv [size_position bind lift ret check_daily_max_r check_max_trades
       check_max_open_risk modify gets].
  destruct (fle (Candidates.risk_points cand) (Fin 0)); [left; reflexivity|].
  destruct (get_contract_spec symbol) as [spec|e]; [|left; reflexivity].
  destruct (pyfloor _) as [contracts|e]; [|left; reflexivity].
  destruct (contracts <=? 0)%Z; [left; reflexivity|].
  destruct (prefer_micro_step _ _ _ _ _ _) as [[[sym sp] n]|e];
    [|left; reflexivity].
  right.
  destruct (fle _ (fneg _)); simpl; [reflexivity|].
  rewrite reset_daily_idem.
  destruct (_ >=? _)%Z; simpl; [reflexivity|].
  destruct (fgt _ _); reflexivity.
Qed.

(** The decision reads the state through the three counters only. *)
Lemma size_position_reads cfg cand symbol d a b :
  same_counters d a b ->
  fst (size_position cfg cand symbol d a) = fst (size_position cfg cand symbol d b).
Proof.
  intros (Hr & Ht & Ho).
  cbv [size_position bind lift ret check_daily_max_r check_max_trades
       check_max_open_risk modify gets].
  destruct (fle (Candidates.risk_points cand) (Fin 0)); [reflexivity|].
  destruct (get_contract_spec symbol) as [spec|e]; [|reflexivity].
  destruct (pyfloor _) as [contracts|e]; [|reflexivity].
  destruct (contracts <=? 0)%Z; [reflexivity|].
  destruct (prefer_micro_step _ _ _ _ _ _) as [[[sym sp] n]|e]; [|reflexivity].
  rewrite !reset_daily_realized, Hr.
  destruct (fle _ (fneg _)); simpl; [reflexivity|].
  rewrite !reset_daily_trades, Ht.
  destruct (_ >=? _)%Z; simpl; [reflexivity|].
  rewrite !reset_daily_open, Ho.
  destruct (fgt _ _); reflexivity.
Qed.

(** C5. Two successive sizing calls with the same candidate, symbol and
    trade date return the same outcome (the same decision, or the same
    exception), and a call leaves the realized-R counter and the trade
    count of every day and the open-risk total as it found them; the only
    trace it can leave is the entry of the day, created at zero. *)
Theorem size_position_repeatable
    (cfg : CfgRisk) (cand : Candidates.Candidate) (symbol : string)
    (d : Time.date) (st : RiskLimits) :
  let first := size_position cfg cand symbol d st in
  let second := size_position cfg cand symbol d (snd first) in
  fst second = fst first
  /\ (forall d', realized_r_on (snd first) d' = realized_r_on st d')
  /\ (forall d', trades_on (snd first) d' = trades_on st d')
  /\ open_risk_r (snd first) = open_risk_r st.
Proof.
  cbv zeta.
  destruct (size_position_state cfg cand symbol d st) as [-> | ->].
  - repeat split; reflexivity.
  - split; [apply size_position_reads, same_counters_reset|].
    repeat split;
      auto using reset_daily_realized, reset_daily_trades, reset_daily_open.
Qed.

End RiskFacts.

(** ** The engine *)

Module EngineFacts.
Import ExecutionSim ContractSpecs Limits RiskManager Engine RiskFacts.

(** What the engine writes into a trade. *)
Lemma build_trade_fields cfg_risk df_bars symbol cand dec exe ts t :
  build_trade cfg_risk df_bars symbol cand dec exe ts = Ok t ->
  Engine.symbol t = symbol /\ t_qty t = qty dec /\ ts_open t = ts
  /\ t_side t = Candidates.side cand
  /\ entry_price t = entry_fill exe /\ exit_price t = exit_fill exe
  /\ stop_price t = Candidates.stop cand
  /\ target_price t = Candidates.target cand
  /\ t_exit_reason t = exit_reason exe.
Proof.
  unfold build_trade, Costs.calculate_costs.
  destruct (get_contract_spec symbol) as [spec|e]; [|discriminate].
  cbv [rbind]. intros [= <-]. simpl. repeat split; reflexivity.
Qed.


Lemma add_trade_reset d st : add_trade d (reset_daily d st) = add_trade d st.
Proof. unfold add_trade. now rewrite reset_daily_idem. Qed.

Lemma add_trade_open d st : open_risk_r (add_trade d st) = open_risk_r st.
Proof. unfold add_trade. simpl. apply reset_daily_open. Qed.

Lemma add_realized_r_open d r st :
  open_risk_r (add_realized_r d r st) = open_risk_r st.
Proof. unfold add_realized_r. simpl. apply reset_daily_open. Qed.

Lemma add_trade_trades d d' st :
  trades_on (add_trade d st) d'
  = if decide (d = d') then (trades_on st d + 1)%Z else trades_on st d'.
Proof.
  unfold add_trade, trades_on at 1. simpl.
  destruct (decide (d = d')) as [<-|Hne].
  - rewrite lookup_insert_eq. simpl. now rewrite reset_daily_trades.
  - rewrite lookup_insert_ne by assumption. apply reset_daily_trades.
Qed.

Lemma add_trade_realized d d' st :
  realized_r_on (add_trade d st) d' = realized_r_on st d'.
Proof. unfold add_trade, realized_r_on at 1. simpl. apply reset_daily_realized. Qed.

Lemma add_realized_r_trades d r d' st :
  trades_on (add_realized_r d r st) d' = trades_on st d'.
Proof. unfold add_realized_r, trades_on at 1. simpl. apply reset_daily_trades. Qed.

Lemma add_realized_r_realized d r d' st :
  realized_r_on (add_realized_r d r st) d'
  = if decide (d = d') then (realized_r_on st d + r)%fl else realized_r_on st d'.
Proof.
  unfold add_realized_r, realized_r_on at 1. simpl.
  destruct (decide (d = d')) as [<-|Hne].
  - rewrite lookup_insert_eq. simpl. now rewrite reset_daily_realized.
  - rewrite lookup_insert_ne by assumption. apply reset_daily_realized.
Qed.

Section Run.

Variable cfg_strategy : Candidates.Cfg.
Variable cfg_risk : CfgRisk.
Variable build_features : list Bar -> result (list Candidates.Row).
Variable choose :
  list Candidates.Candidate -> list Candidates.Row -> Time.Timestamp ->
  result (option Candidates.Candidate).
Variable Metrics : Type.
Variable metrics_of : list Trade -> Metrics.

Let step' := step cfg_strategy cfg_risk choose.
Let run' := run cfg_strategy cfg_risk build_features choose Metrics metrics_of.

(** One iteration either leaves the ledger alone, touching at most the zero
    entries of the bar's date, or settles the candidate the selection stage
    chose, once sizing has accepted it and its execution has resolved. *)
Lemma step_cases df_bars df_features symbol i row s :
  df_features !! i = Some row ->
  let d := Time.date_of (Candidates.row_ts row) in
  let s' := snd (step' df_bars df_features symbol i s) in
  (trades s' = trades s
   /\ (limits s' = limits s \/ limits s' = reset_daily d (limits s)))
  \/ exists cands cand dec exe t,
       Candidates.generate_candidates (take (S i) df_features) cfg_strategy
       = Ok cands
       /\ cands <> []
       /\ choose cands (take (S i) df_features) (Candidates.row_ts row)
          = Ok (Some cand)
       /\ fst (size_position cfg_risk cand symbol d (limits s)) = Ok dec
       /\ allow dec = true
       /\ simulate_execution df_bars (Candidates.entry cand)
            (Candidates.stop cand) (Candidates.target cand)
            (Candidates.side cand) i = Some exe
       /\ build_trade cfg_risk df_bars symbol cand dec exe
            (Candidates.row_ts row) = Ok t
       /\ trades s' = trades s ++ [t]
       /\ limits s' = add_realized_r d (r_mult t) (add_trade d (limits s)).
Proof.
  intros Hrow d s'. subst s' step'.
  cbv [step bind lift ret on_limits settle modify trade_date_of].
  rewrite Hrow. fold d.
  destruct (Candidates.generate_candidates _ _) as [[|c cs]|e] eqn:Hgen;
    try (left; split; [reflexivity | left; reflexivity]).
  destruct (choose _ _ _) as [[cand|]|e] eqn:Hch;
    try (left; split; [reflexivity | left; reflexivity]).
  pose proof (size_position_state cfg_risk cand symbol d (limits s)) as Hst.
  destruct (size_position cfg_risk cand symbol d (limits s))
    as [[dec|e] st1] eqn:Hsz; simpl in Hst.
  - assert (Hquiet :
      trades (mkEngine st1 (trades s)) = trades s
      /\ (limits (mkEngine st1 (trades s)) = limits s
          \/ limits (mkEngine st1 (trades s)) = reset_daily d (limits s)))
      by (simpl; auto).
    destruct (allow dec) eqn:Hallow; simpl; [|left; exact Hquiet].
    destruct (simulate_execution _ _ _ _ _ _) as [exe|] eqn:Hexe;
      [|left; exact Hquiet].
    destruct (build_trade _ _ _ _ _ _ _) as [t|e] eqn:Ht;
      [|left; exact Hquiet].
    right. exists (c :: cs), cand, dec, exe, t. simpl.
    split; [reflexivity|]. split; [discriminate|]. split; [exact Hch|].
    split; [now rewrite Hsz|]. split; [exact Hallow|]. split; [exact Hexe|].
    split; [exact Ht|]. split; [reflexivity|].
    destruct Hst as [-> | ->]; [reflexivity | now rewrite add_trade_reset].
  - left. simpl. auto.
Qed.

Lemma step_effect_of df_bars df_features symbol i row s :
  df_features !! i = Some row ->
  step_effect (Time.date_of (Candidates.row_ts row)) s
    (snd (step' df_bars df_features symbol i s)).
Proof.
  intros Hrow.
  destruct (step_cases df_bars df_features symbol i row s Hrow)
    as [[Ht [Hl | Hl]] | (cs & cand & dec & exe & t & _ & _ & _ & _ & _ & _ & _
                          & Ht & Hl)].
  - apply effect_none.
    destruct (snd (step' df_bars df_features symbol i s)), s. simpl in *.
    congruence.
  - now apply effect_touch.
  - now apply (effect_settle _ _ _ t).
Qed.

Lemma step_effect_open d s s' :
  step_effect d s s' -> open_risk_r (limits s') = open_risk_r (limits s).
Proof.
  intros [-> | Hl _ | t Hl _]; [reflexivity | |]; rewrite Hl.
  - apply reset_daily_open.
  - now rewrite add_realized_r_open, add_trade_open.
Qed.

Lemma step_open df_bars df_features symbol i s :
  open_risk_r (limits (snd (step' df_bars df_features symbol i s)))
  = open_risk_r (limits s).
Proof.
  destruct (df_features !! i) as [row|] eqn:Hrow.
  - eapply step_effect_open, step_effect_of, Hrow.
  - subst step'. unfold step. now rewrite Hrow.
Qed.

Lemma for_loop_open df_bars df_features symbol idxs :
  forall s,
    open_risk_r (limits (snd (for_loop (step' df_bars df_features symbol) idxs s)))
    = open_risk_r (limits s).
Proof.
  induction idxs as [|i idxs IH]; intros s; [reflexivity|].
  simpl. unfold bind.
  pose proof (step_open df_bars df_features symbol i s) as Hs.
  destruct (step' df_bars df_features symbol i s) as [[[]|e] s1]; simpl in *.
  - now rewrite IH.
  - exact Hs.
Qed.

(** A property of the engine state that the bar loop preserves is
    preserved by the run. *)
Lemma run_preserves (P : EngineState -> Prop) df_bars symbol s :
  P s ->
  (forall df_features,
     P (snd (bar_loop cfg_strategy cfg_risk choose df_bars df_features symbol s))) ->
  P (snd (run' df_bars symbol s)).
Proof.
  intros Hs Hloop. subst run'. unfold run.
  destruct df_bars as [|b bs]; [exact Hs|].
  cbv [bind lift gets ret].
  destruct (build_features (b :: bs)) as [[|r rs]|e]; try exact Hs.
  specialize (Hloop (r :: rs)).
  destruct (bar_loop _ _ _ _ _ _ s) as [[[]|e] s1]; simpl in *; [|exact Hloop].
  destruct (trades s1); exact Hloop.
Qed.

Lemma run_open df_bars symbol s :
  open_risk_r (limits (snd (run' df_bars symbol s))) = open_risk_r (limits s).
Proof.
  apply (run_preserves
           (fun s' => open_risk_r (limits s') = open_risk_r (limits s)));
    [reflexivity|].
  intros df_features. apply for_loop_open.
Qed.



(** C7 (as amended). On an empty bar series the run returns at once, and
    normally: an empty ledger and empty metrics, nothing raised and the
    engine left as it was. *)
Theorem run_on_empty_bars (symbol : string) (s : EngineState) :
  run' [] symbol s = (Ok (mkRun Metrics [] None), s).
Proof. reflexivity. Qed.

(** C9. Starting from an engine whose open-risk total is zero (as a new
    engine's is), the total is zero after any number of iterations of the
    bar loop and at the end of the run; the open-risk gate, which a sizing
    call consults with 1R of additional risk, therefore refuses exactly when
    1.0 > max_open_risk_r, that is when max_open_risk_r is below 1.0, and a
    sizing call refuses for open risk only in that case. *)
Theorem open_risk_stays_zero
    (df_bars : list Bar) (df_features : list Candidates.Row)
    (symbol : string) (s : EngineState) :
  open_risk_r (limits s) = Fin 0 ->
  (forall idxs,
     open_risk_r
       (limits (snd (for_loop (step' df_bars df_features symbol) idxs s)))
     = Fin 0)
  /\ open_risk_r (limits (snd (run' df_bars symbol s))) = Fin 0
  /\ (forall st, open_risk_r st = Fin 0 ->
        check_max_open_risk cfg_risk (Fin 1) st
        = (Ok (if flt (max_open_risk_r cfg_risk) (Fin 1)
               then (false, Some (MaxOpenRisk (Fin 1) (max_open_risk_r cfg_risk)))
               else (true, None)), st))
  /\ (forall st cand sym d dec a b,
        open_risk_r st = Fin 0 ->
        fst (size_position cfg_risk cand sym d st) = Ok dec ->
        reason_of dec = Some (MaxOpenRisk a b) ->
        a = Fin 1 /\ b = max_open_risk_r cfg_risk
        /\ flt (max_open_risk_r cfg_risk) (Fin 1) = true).
Proof.
  intros H0. split; [|split; [|split]].
  - intros idxs. now rewrite for_loop_open.
  - now rewrite run_open.
  - intros st Hst. cbv [check_max_open_risk bind gets ret]. rewrite Hst.
    change (Fin 0 + Fin 1)%fl with (Fin 1). unfold fgt.
    destruct (flt (max_open_risk_r cfg_risk) (Fin 1)); reflexivity.
  - intros st cand sym d dec a b Hst.
    cbv [size_position bind lift ret check_daily_max_r check_max_trades
         check_max_open_risk modify gets].
    destruct (fle (Candidates.risk_points cand) (Fin 0));
      [simpl; intros [= <-]; discriminate|].
    destruct (get_contract_spec sym) as [spec|e]; [|discriminate].
    destruct (pyfloor _) as [contracts|e]; [|discriminate].
    destruct (contracts <=? 0)%Z; [simpl; intros [= <-]; discriminate|].
    destruct (prefer_micro_step _ _ _ _ _ _) as [[[sym' sp] n]|e];
      [|discriminate].
    destruct (fle _ (fneg _)); simpl; [intros [= <-]; discriminate|].
    destruct (_ >=? _)%Z; simpl; [intros [= <-]; discriminate|].
    rewrite !reset_daily_open, Hst.
    change (Fin 0 + Fin 1)%fl with (Fin 1). unfold fgt.
    destruct (flt (max_open_risk_r cfg_risk) (Fin 1)); simpl;
      intros [= <-]; simpl; [|discriminate].
    intros [= <- <-]. auto.
Qed.

(** An accepted candidate has a positive, finite risk. *)
Lemma accepted_risk_positive cand sym d st dec :
  fst (size_position cfg_risk cand sym d st) = Ok dec ->
  allow dec = true ->
  fgt (Candidates.risk_points cand) (Fin 0) = true.
Proof.
  cbv [size_position bind lift ret].
  destruct (Candidates.risk_points cand) as [|q] eqn:Hrp; simpl.
  - destruct (get_contract_spec sym) as [spec|e]; simpl; [|discriminate].
    rewrite fdiv_NaN_r. discriminate.
  - destruct (Qle_bool q 0); simpl; [intros [= <-]; discriminate|].
    reflexivity.
Qed.

(** Under the micro preference an accepted sizing of "NQ" names the micro
    contract, with the number of micro contracts, whenever that number is
    at least one. *)
Lemma micro_named cand d st dec m :
  prefer_micro cfg_risk = true ->
  pyfloor (dollars_per_r cfg_risk * Fin 1
           / (Candidates.risk_points cand * point_value MNQ))%fl = Ok m ->
  (1 <= m)%Z ->
  fst (size_position cfg_risk cand "NQ" d st) = Ok dec ->
  allow dec = true ->
  symbol_of dec = Some "MNQ" /\ qty dec = m.
Proof.
  intros Hmicro Hm Hge Hdec Hallow. revert Hdec.
  cbv [size_position bind lift ret check_daily_max_r check_max_trades
       check_max_open_risk modify gets].
  destruct (fle (Candidates.risk_points cand) (Fin 0));
    [simpl; intros [= <-]; discriminate|].
  change (get_contract_spec "NQ") with (Ok NQ). cbv iota beta.
  destruct (pyfloor (_ / (_ * point_value NQ))%fl) as [contracts|e];
    [|discriminate].
  destruct (contracts <=? 0)%Z; [simpl; intros [= <-]; discriminate|].
  unfold prefer_micro_step. rewrite Hmicro.
  change (get_contract_spec "MNQ") with (Ok MNQ). cbv [rbind andb].
  rewrite String.eqb_refl, Hm.
  destruct (Z.geb_spec m 1) as [_|Hlt]; [|lia].
  cbv iota beta.
  destruct (fle _ (fneg _)); simpl; [intros [= <-]; discriminate|].
  destruct (_ >=? _)%Z; simpl; [intros [= <-]; discriminate|].
  destruct (fgt _ _); simpl; intros [= <-]; [discriminate|].
  split; reflexivity.
Qed.

(** C10 (as amended). With prefer_micro enabled and the engine run for
    "NQ": when, on a bar, the selection stage picks a candidate for which
    the micro contract yields at least one contract, sizing accepts it and
    its execution resolves, the decision names the micro symbol "MNQ" and
    its qty is the number of micro contracts, and the iteration appends one
    trade that carries the original symbol "NQ" and whose fees, PnL and
    r_mult are computed from the NQ tick value and point value on that
    qty. *)
Theorem micro_decision_settled_as_original
    (df_bars : list Bar) (df_features : list Candidates.Row) (i : nat)
    (row : Candidates.Row) (s : EngineState)
    (cands : list Candidates.Candidate) (cand : Candidates.Candidate)
    (dec : Decision) (exe : ExecutionResult) (m : Z) :
  prefer_micro cfg_risk = true ->
  df_features !! i = Some row ->
  Candidates.generate_candidates (take (S i) df_features) cfg_strategy
  = Ok cands ->
  cands <> [] ->
  choose cands (take (S i) df_features) (Candidates.row_ts row)
  = Ok (Some cand) ->
  pyfloor (dollars_per_r cfg_risk * Fin 1
           / (Candidates.risk_points cand * point_value MNQ))%fl = Ok m ->
  (1 <= m)%Z ->
  fst (size_position cfg_risk cand "NQ"
         (Time.date_of (Candidates.row_ts row)) (limits s)) = Ok dec ->
  allow dec = true ->
  simulate_execution df_bars (Candidates.entry cand) (Candidates.stop cand)
    (Candidates.target cand) (Candidates.side cand) i = Some exe ->
  symbol_of dec = Some "MNQ" /\ qty dec = m
  /\ exists t,
       trades (snd (step' df_bars df_features "NQ" i s)) = trades s ++ [t]
       /\ Engine.symbol t = "NQ" /\ t_qty t = m
       /\ let leg :=
            (slippage_ticks_per_side cfg_risk * tick_value NQ * of_int m
             + fees_per_contract cfg_risk * of_int m)%fl in
          let pnl_points :=
            if is_long (Candidates.side cand)
            then (exit_fill exe - entry_fill exe)%fl
            else (entry_fill exe - exit_fill exe)%fl in
          fees t = (leg + leg)%fl
          /\ pnl t = (pnl_points * point_value NQ * of_int m - (leg + leg))%fl
          /\ r_mult t
             = (pnl t / (Candidates.risk_points cand * point_value NQ
                         * of_int m))%fl.
Proof.
  intros Hmicro Hrow Hgen Hne Hch Hm Hge Hdec Hallow Hexe.
  destruct (micro_named _ _ _ _ _ Hmicro Hm Hge Hdec Hallow) as [Hs Hq].
  pose proof (accepted_risk_positive _ _ _ _ _ Hdec Hallow) as Hpos.
  split; [exact Hs|]. split; [exact Hq|].
  subst step'.
  cbv [step bind lift ret on_limits settle modify trade_date_of].
  rewrite Hrow, Hgen.
  destruct cands as [|c0 cs]; [contradiction|].
  rewrite Hch.
  destruct (size_position cfg_risk cand "NQ" _ (limits s)) as [[dec'|e] st1];
    simpl in Hdec; [|discriminate].
  injection Hdec as ->. rewrite Hallow. cbn [negb]. rewrite Hexe.
  unfold build_trade, Costs.calculate_costs.
  change (get_contract_spec "NQ") with (Ok NQ). cbv [rbind].
  rewrite Hq, Hpos.
  eexists. split; [reflexivity|]. repeat split; reflexivity.
Qed.

End Run.

(** *** The sample frame *)

Import Samples.

(** Bar 100 of the sample has one candidate, the prior-low retest. *)
Example sample_candidates :
  Candidates.generate_candidates (take 101 df_features) Candidates.default_cfg
  = Ok [prior_low_candidate].
Proof. reflexivity. Qed.



(** The run on no bars at all returns the empty result. *)
Lemma run_on_empty_bars_counterexample :
  sample_run [] Engine.init = (Ok (mkRun nat [] None), Engine.init)
  /\ ~ raises (fst (sample_run [] Engine.init)).
Proof. split; [reflexivity | simpl; tauto]. Qed.

Lemma open_risk_stays_zero_witness :
  open_risk_r (limits (snd (sample_loop Engine.init))) = Fin 0.
Proof.
  exact (proj1 (open_risk_stays_zero Candidates.default_cfg
                  Limits.default_cfg sample_builder first_candidate
                  nat (@length Trade) df_bars df_features "NQ" Engine.init
                  eq_refl) (seq 100 (length df_features - 100))).
Defined.

(** With the default 100 dollars per R and a 10-point stop the micro
    contract would yield five contracts, yet the call refuses on the
    full-size contract before the micro contract is looked at. *)
Lemma micro_decision_settled_as_original_counterexample :
  prefer_micro Limits.default_cfg = true
  /\ pyfloor (dollars_per_r Limits.default_cfg * Fin 1
              / (Candidates.risk_points wide_candidate * point_value MNQ))%fl
     = Ok 5%Z
  /\ fst (size_position Limits.default_cfg wide_candidate "NQ" 0%Z Limits.init)
     = Ok (refuse (Some PositionTooSmall) 0 (Fin 0))
  /\ symbol_of (refuse (Some PositionTooSmall) 0 (Fin 0)) <> Some "MNQ"
  /\ qty (refuse (Some PositionTooSmall) 0 (Fin 0)) <> 5%Z.
Proof.
  split; [reflexivity|]. split; [reflexivity|]. split; [reflexivity|].
  split; discriminate.
Qed.

(** On bar 100 of the sample the decision is for 100 micro contracts, and
    the trade the iteration appends is an "NQ" trade of 100 contracts. *)
Lemma micro_decision_settled_as_original_witness :
  symbol_of sample_decision = Some "MNQ" /\ qty sample_decision = 100%Z
  /\ exists t,
       trades (snd (step Candidates.default_cfg Limits.default_cfg
                      first_candidate df_bars df_features "NQ" 100
                      Engine.init))
       = [t]
       /\ Engine.symbol t = "NQ" /\ t_qty t = 100%Z.
Proof.
  destruct (micro_decision_settled_as_original Candidates.default_cfg
              Limits.default_cfg first_candidate df_bars df_features 100
              row_100 Engine.init [prior_low_candidate] prior_low_candidate
              sample_decision sample_execution 100%Z
              eq_refl eq_refl eq_refl ltac:(discriminate) eq_refl eq_refl
              ltac:(lia) eq_refl eq_refl eq_refl)
    as (Hs & Hq & t & Ht & Hsym & Hqty & _).
  split; [exact Hs|]. split; [exact Hq|].
  exists t. split; [exact Ht|]. split; assumption.
Defined.

End EngineFacts.

(** ** The candidate generator *)

Module CandidatesFacts.
Import Candidates Samples.

(** A ratio that passes a positive lower bound comes from a positive risk,
    and is then the quotient itself. *)
Lemma rr_of_positive reward risk lo :
  fl_lt (Fin 0) lo ->
  fle lo (rr_of reward risk) = true ->
  fgt risk (Fin 0) = true /\ rr_of reward risk = (reward / risk)%fl.
Proof.
  unfold rr_of. destruct (fgt risk (Fin 0)); [auto|].
  intros Hlo Hle. exfalso. apply fle_spec in Hle.
  destruct lo as [|q]; simpl in *; [tauto|].
  apply (Qlt_irrefl 0). eapply Qlt_le_trans; eassumption.
Qed.

(** The VWAP family checks both ends of the band. *)
Lemma vwap_family_in_band cfg latest price c :
  In c (snd (vwap_family cfg latest price)) ->
  fle (min_rr cfg) (rr_of (reward_points c) (risk_points c)) = true
  /\ fle (rr_of (reward_points c) (risk_points c)) (max_rr cfg) = true.
Proof.
  unfold vwap_family.
  destruct (vwap_enabled cfg); [|intros []].
  destruct (session_vwap latest) as [vwap|]; [|intros []].
  destruct (atr_14 latest) as [atr|]; [|intros []].
  destruct (notna vwap); [|intros []].
  simpl. rewrite in_flat_map. intros (k & _ & Hin).
  apply in_app_or in Hin. unfold vwap_long, vwap_short in Hin.
  destruct Hin as [Hin|Hin];
    match type of Hin with
    | In _ (if ?guard then _ else _) => destruct guard; [|destruct Hin]
    end;
    match type of Hin with
    | In _ (if ?band then _ else _) =>
        destruct band eqn:Hband; [|destruct Hin]
    end;
    destruct Hin as [<-|[]]; simpl;
    apply andb_true_iff in Hband; exact Hband.
Qed.

(** With an [atr] left bound by the VWAP family the opening-range family
    returns. *)
Lemma opening_range_family_bound cfg latest a price :
  ~ raises (opening_range_family cfg latest (Some a) price).
Proof.
  unfold opening_range_family, or_long, or_short, read_atr.
  destruct (opening_range_enabled cfg); [|simpl; tauto].
  destruct (opening_range_high latest) as [orh|]; [|simpl; tauto].
  destruct (opening_range_low latest) as [orl|]; [|simpl; tauto].
  destruct (notna orh && notna orl); [|simpl; tauto].
  destruct (atr_14 latest); simpl;
    repeat match goal with
           | |- context [if ?b then _ else _] => destruct b; simpl
           end; tauto.
Qed.

(** *** The lower end of the band holds for every family *)

Definition above_min (cfg : Cfg) (c : Candidate) : Prop :=
  fle (min_rr cfg) (rr_of (reward_points c) (risk_points c)) = true.

Ltac split_ifs H :=
  repeat match type of H with
         | context [if ?b then _ else _] =>
             let E := fresh "E" in destruct b eqn:E
         end.

Lemma or_long_above_min cfg latest atr price orh orl tol l c :
  or_long cfg latest atr price orh orl tol = Ok l -> In c l -> above_min cfg c.
Proof.
  unfold or_long, read_atr, above_min, fge.
  destruct (fle (fabs (price - orl)) tol); [|intros [= <-] Hnil; destruct Hnil].
  destruct (atr_14 latest); [destruct atr; [|discriminate]|]; simpl;
    intros H; split_ifs H; injection H as <-;
    intros Hin; simpl in Hin; intuition subst; assumption.
Qed.

Lemma or_short_above_min cfg latest atr price orh orl tol l c :
  or_short cfg latest atr price orh orl tol = Ok l -> In c l -> above_min cfg c.
Proof.
  unfold or_short, read_atr, above_min, fge.
  destruct (fle (fabs (price - orh)) tol); [|intros [= <-] Hnil; destruct Hnil].
  destruct (atr_14 latest); [destruct atr; [|discriminate]|]; simpl;
    intros H; split_ifs H; injection H as <-;
    intros Hin; simpl in Hin; intuition subst; assumption.
Qed.

Lemma opening_range_above_min cfg latest atr price l c :
  opening_range_family cfg latest atr price = Ok l -> In c l ->
  above_min cfg c.
Proof.
  unfold opening_range_family.
  destruct (opening_range_enabled cfg); [|intros [= <-] Hnil; destruct Hnil].
  destruct (opening_range_high latest) as [orh|]; [|intros [= <-] Hnil; destruct Hnil].
  destruct (opening_range_low latest) as [orl|]; [|intros [= <-] Hnil; destruct Hnil].
  destruct (notna orh && notna orl); [|intros [= <-] Hnil; destruct Hnil].
  destruct (or_long _ _ _ _ _ _ _) as [cl|e] eqn:Hl; [|discriminate].
  destruct (or_short _ _ _ _ _ _ _) as [cs|e] eqn:Hs; [|discriminate].
  simpl. intros [= <-] Hin. apply in_app_or in Hin.
  destruct Hin; eauto using or_long_above_min, or_short_above_min.
Qed.

Lemma prior_session_above_min cfg latest atr price c :
  In c (snd (prior_session_family cfg latest atr price)) -> above_min cfg c.
Proof.
  unfold prior_session_family, above_min.
  destruct (prior_session_enabled cfg); [|intros []].
  destruct (prior_high latest) as [ph|]; [|intros []].
  destruct (prior_low latest) as [pl|]; [|intros []].
  destruct (notna ph && notna pl); [|intros []].
  simpl. intros Hin. apply in_app_or in Hin.
  unfold prior_long, prior_short, fge in Hin.
  destruct Hin as [H|H]; split_ifs H; simpl in H; intuition subst; assumption.
Qed.

Lemma for_each_all (P : Candidate -> Prop) body :
  (forall i l, body i = Ok l -> Forall P l) ->
  forall idxs l, for_each body idxs = Ok l -> Forall P l.
Proof.
  intros Hbody. induction idxs as [|i idxs IH]; simpl; intros l.
  - intros [= <-]. constructor.
  - destruct (body i) as [c|e] eqn:Hc; [|discriminate]. simpl.
    destruct (for_each body idxs) as [cs|e]; [|discriminate]. simpl.
    intros [= <-]. apply Forall_app. split; eauto.
Qed.

Lemma swing_high_above_min cfg price atr recent i l :
  swing_high_at cfg price atr recent i = Ok l -> Forall (above_min cfg) l.
Proof.
  unfold swing_high_at, above_min, fge.
  destruct (recent !! i) as [r|]; [|intros [= <-]; constructor].
  destruct (getcol "high" (high r)) as [hi|e]; [|discriminate]. simpl.
  destruct (column "high" high _) as [w|e]; [|discriminate]. simpl.
  intros H; split_ifs H; injection H as <-; repeat constructor; assumption.
Qed.

Lemma swing_low_above_min cfg price atr recent i l :
  swing_low_at cfg price atr recent i = Ok l -> Forall (above_min cfg) l.
Proof.
  unfold swing_low_at, above_min, fge.
  destruct (recent !! i) as [r|]; [|intros [= <-]; constructor].
  destruct (getcol "low" (low r)) as [lo|e]; [|discriminate]. simpl.
  destruct (column "low" low _) as [w|e]; [|discriminate]. simpl.
  intros H; split_ifs H; injection H as <-; repeat constructor; assumption.
Qed.

Lemma swing_above_min cfg df latest price l :
  swing_family cfg df latest price = Ok l -> Forall (above_min cfg) l.
Proof.
  unfold swing_family.
  destruct (swing_enabled cfg); [|intros [= <-]; constructor].
  destruct (atr_14 latest) as [atr|]; [|intros [= <-]; constructor].
  destruct (_ <? _)%nat; [|intros [= <-]; constructor].
  destruct (for_each (swing_high_at _ _ _ _) _) as [hs|e] eqn:Hh;
    [|discriminate].
  destruct (for_each (swing_low_at _ _ _ _) _) as [ls|e] eqn:Hl;
    [|discriminate].
  simpl. intros [= <-]. apply Forall_app. split.
  - eapply for_each_all; [|exact Hh]. intros. eapply swing_high_above_min; eauto.
  - eapply for_each_all; [|exact Hl]. intros. eapply swing_low_above_min; eauto.
Qed.

(** What every family does enforce: with a positive min_rr, a returned
    candidate has a positive risk and a reward:risk ratio of at least
    min_rr. *)
Lemma generated_above_min_rr df cfg l c :
  fl_lt (Fin 0) (min_rr cfg) ->
  generate_candidates df cfg = Ok l ->
  In c l ->
  fgt (risk_points c) (Fin 0) = true /\ fle (min_rr cfg) (rr c) = true.
Proof.
  intros Hmin Hgen Hin.
  assert (Hc : above_min cfg c).
  { revert Hgen Hin. unfold generate_candidates.
    destruct (last df) as [latest|]; [|intros [= <-] Hnil; destruct Hnil].
    destruct (feq _ _); [intros [= <-] Hnil; destruct Hnil|].
    pose proof (vwap_family_in_band cfg latest (default (Fin 0) (close latest)))
      as Hv.
    destruct (vwap_family _ _ _) as [atr1 cv].
    destruct (opening_range_family _ _ _ _) as [co|e] eqn:Ho; [|discriminate].
    simpl.
    pose proof (prior_session_above_min cfg latest atr1
                  (default (Fin 0) (close latest))) as Hp.
    destruct (prior_session_family _ _ _ _) as [atr2 cp].
    destruct (swing_family _ _ _ _) as [cw|e] eqn:Hw; [|discriminate].
    simpl. intros [= <-] Hin.
    repeat (apply in_app_or in Hin; destruct Hin as [Hin|Hin]).
    - apply Hv, Hin.
    - eapply opening_range_above_min; eauto.
    - apply Hp, Hin.
    - apply swing_above_min in Hw. rewrite Forall_forall in Hw.
      apply Hw. now apply list_elem_of_In. }
  destruct (rr_of_positive _ _ _ Hmin Hc) as [Hpos Heq].
  split; [exact Hpos|]. unfold rr. rewrite <- Heq. exact Hc.
Qed.

(** C2 (the code at the failing input). On the sample features the
    prior-low retest is returned with a reward:risk ratio of 20 although
    the configured band is [1.5, 5]. *)
Theorem prior_low_retest_exceeds_max_rr :
  generate_candidates (prior_frame (take 101 df_bars)) default_cfg
  = Ok [prior_low_candidate]
  /\ rr prior_low_candidate = Fin 20
  /\ fle (rr prior_low_candidate) (max_rr default_cfg) = false.
Proof. vm_compute. repeat split; reflexivity. Qed.

(** C6 (the code at the failing input). While the session VWAP is NaN the
    VWAP family is skipped, the local [atr] stays unbound, and the
    opening-range retest that reads it raises. *)
Theorem vwap_warmup_raises :
  generate_candidates [warmup_row] default_cfg
  = Raise (UnboundLocalError "atr").
Proof. reflexivity. Qed.

(** With the VWAP known and the ATR still NaN nothing is raised and nothing
    is proposed. *)
Example atr_warmup_is_silent :
  generate_candidates [atr_warmup_row] default_cfg = Ok [].
Proof. reflexivity. Qed.

End CandidatesFacts.

(** ** The Monte Carlo resampler *)

Module MonteCarloFacts.
Import MonteCarlo Samples.

Section Resampler.

Variable rng : Type.
Variable randint : nat -> rng -> nat * rng.
Variable np_std : list fl -> fl.
Variable np_percentile : list fl -> fl -> result fl.

Let run' := run_monte_carlo rng randint np_std np_percentile.
Let draws' := draws rng randint.

Lemma draws_length bound n :
  forall g, length (fst (draws' bound n g)) = n.
Proof.
  subst draws'. induction n as [|n IH]; intros g; simpl; [reflexivity|].
  destruct (randint bound g) as [i g1].
  specialize (IH g1). destruct (draws rng randint bound n g1) as [rest g2].
  simpl in *. now rewrite IH.
Qed.

Lemma draws_app bound a b :
  forall g,
    draws' bound (a + b) g
    = (fst (draws' bound a g) ++ fst (draws' bound b (snd (draws' bound a g))),
       snd (draws' bound b (snd (draws' bound a g)))).
Proof.
  subst draws'. induction a as [|a IH]; intros g; simpl.
  - now destruct (draws rng randint bound b g).
  - destruct (randint bound g) as [i g1].
    rewrite IH.
    destruct (draws rng randint bound a g1) as [rest g2]. reflexivity.
Qed.

(** The bootstrap sample is read off the indices drawn. *)
Lemma choice_draws r_stream size :
  forall g,
    choice rng randint r_stream size g
    = (Ok (map (fun i => nth (i mod length r_stream) r_stream NaN)
             (fst (draws' (length r_stream) size g))),
       snd (draws' (length r_stream) size g)).
Proof.
  subst draws'. induction size as [|size IH]; intros g; [reflexivity|].
  cbn [choice draws]. unfold bind at 1.
  destruct (randint (length r_stream) g) as [i g1].
  unfold bind. rewrite IH.
  destruct (draws rng randint (length r_stream) size g1) as [rest g2].
  reflexivity.
Qed.

(** One path takes [len(r_stream)] draws and depends on the generator
    through them only. *)
Lemma simulate_once_draws r_stream g1 g2 :
  fst (draws' (length r_stream) (length r_stream) g1)
  = fst (draws' (length r_stream) (length r_stream) g2) ->
  fst (simulate_once rng randint r_stream g1)
  = fst (simulate_once rng randint r_stream g2).
Proof.
  intros H. unfold simulate_once, bind. rewrite !choice_draws, H.
  cbv [lift ret].
  destruct (last_elem _) as [final_r|e]; [|reflexivity].
  destruct (np_min _) as [max_dd|e]; reflexivity.
Qed.

Lemma simulate_once_state r_stream g :
  r_stream <> [] ->
  snd (simulate_once rng randint r_stream g)
  = snd (draws' (length r_stream) (length r_stream) g)
  /\ ~ raises (fst (simulate_once rng randint r_stream g)).
Proof.
  intros Hne. unfold simulate_once, bind. rewrite choice_draws.
  pose proof (draws_length (length r_stream) (length r_stream) g) as Hlen.
  destruct (fst (draws' (length r_stream) (length r_stream) g))
    as [|i idxs] eqn:Hd.
  - destruct r_stream; [contradiction | discriminate].
  - unfold cumsum. cbn [map cumsum_from maximum_accumulate zip_with].
    cbv [lift last_elem ret np_min].
    destruct (last _) as [x|] eqn:Hl; [|apply last_None in Hl; discriminate].
    split; [reflexivity | simpl; tauto].
Qed.

Lemma simulations_step r_stream n g :
  simulations rng randint r_stream (S n) g
  = match simulate_once rng randint r_stream g with
    | (Ok one, g1) =>
        match simulations rng randint r_stream n g1 with
        | (Ok rest, g2) => (Ok (fst one :: fst rest, snd one :: snd rest), g2)
        | (Raise e, g2) => (Raise e, g2)
        end
    | (Raise e, g1) => (Raise e, g1)
    end.
Proof. reflexivity. Qed.

(** The simulations take [n_simulations * len(r_stream)] draws. *)
Lemma simulations_state r_stream :
  r_stream <> [] ->
  forall n g,
    snd (simulations rng randint r_stream n g)
    = snd (draws' (length r_stream) (n * length r_stream) g)
    /\ ~ raises (fst (simulations rng randint r_stream n g)).
Proof.
  intros Hne. induction n as [|n IH]; intros g; [simpl; tauto|].
  rewrite simulations_step. cbn [Nat.mul]. rewrite draws_app. cbn [snd].
  destruct (simulate_once_state r_stream g Hne) as [Hs Hok].
  destruct (simulate_once rng randint r_stream g) as [[one|e] g1];
    simpl in Hs, Hok; [|contradiction].
  subst g1. destruct (IH (snd (draws' (length r_stream) (length r_stream) g)))
    as [Hs' Hok'].
  destruct (simulations rng randint r_stream n _) as [[rest|e] g2];
    simpl in *; [tauto | contradiction].
Qed.

(** They depend on the generator through those draws only. *)
Lemma simulations_draws r_stream :
  r_stream <> [] ->
  forall n g1 g2,
    fst (draws' (length r_stream) (n * length r_stream) g1)
    = fst (draws' (length r_stream) (n * length r_stream) g2) ->
    fst (simulations rng randint r_stream n g1)
    = fst (simulations rng randint r_stream n g2).
Proof.
  intros Hne. induction n as [|n IH]; intros g1 g2 H; [reflexivity|].
  cbn [Nat.mul] in H. rewrite !draws_app in H. cbn [fst] in H.
  apply app_inj_1 in H as [Hhead Htail]; [|now rewrite !draws_length].
  rewrite !simulations_step.
  pose proof (simulate_once_draws r_stream g1 g2 Hhead) as Hone.
  destruct (simulate_once_state r_stream g1 Hne) as [Hs1 _].
  destruct (simulate_once_state r_stream g2 Hne) as [Hs2 _].
  destruct (simulate_once rng randint r_stream g1) as [r1 h1].
  destruct (simulate_once rng randint r_stream g2) as [r2 h2].
  simpl in Hone, Hs1, Hs2. subst r2 h1 h2.
  destruct r1 as [one|e]; [|reflexivity].
  specialize (IH _ _ Htail).
  destruct (simulations rng randint r_stream n _) as [q1 k1].
  destruct (simulations rng randint r_stream n _) as [q2 k2].
  simpl in IH. subst q2. now destruct q1.
Qed.

(** After the simulations the function draws nothing more. *)
Lemma run_monte_carlo_after r_stream n cls :
  r_stream <> [] ->
  exists finish : list fl * list fl -> result (option Stats),
    forall g,
      run' r_stream n cls g
      = match simulations rng randint r_stream n g with
        | (Ok sims, g1) => (finish sims, g1)
        | (Raise e, g1) => (Raise e, g1)
        end.
Proof.
  intros Hne. subst run'. unfold run_monte_carlo.
  destruct r_stream as [|x r_stream]; [contradiction|].
  eexists (fun sims =>
    do tl <- tails np_percentile (fst sims) (∅, ∅) cls ;
    do fmin <- np_min (fst sims) ;
    do fmax <- np_max (fst sims) ;
    do dmin <- np_min (snd sims) ;
    do dmax <- np_max (snd sims) ;
    Ok (Some (mkStats (np_mean (fst sims)) (np_std (fst sims)) fmin fmax
                (np_mean (snd sims)) (np_std (snd sims)) dmin dmax
                (fst tl) (snd tl)))).
  intros g0. cbv [bind lift ret rbind].
  destruct (simulations rng randint (x :: r_stream) n g0) as [[sims|e] g1];
    [|reflexivity].
  destruct (tails _ _ _ _) as [tl|e]; [|reflexivity].
  destruct (np_min (fst sims)) as [fmin|e]; [|reflexivity].
  destruct (np_max (fst sims)) as [fmax|e]; [|reflexivity].
  destruct (np_min (snd sims)) as [dmin|e]; [|reflexivity].
  destruct (np_max (snd sims)) as [dmax|e]; reflexivity.
Qed.

(** C8 (as amended). The function takes no seed and sets none.  What it
    returns (or raises) is decided by the trade stream, the number of
    simulations, the confidence levels and the indices of the
    n_simulations * len(r_stream) draws it takes from numpy's generator:
    two invocations that are given the same draws agree, and each leaves
    the generator advanced by exactly those draws. *)
Theorem run_monte_carlo_follows_the_draws
    (r_stream : list fl) (n_simulations : nat) (confidence_levels : list fl)
    (g1 g2 : rng) :
  let count := (n_simulations * length r_stream)%nat in
  fst (draws' (length r_stream) count g1)
  = fst (draws' (length r_stream) count g2) ->
  fst (run' r_stream n_simulations confidence_levels g1)
  = fst (run' r_stream n_simulations confidence_levels g2)
  /\ snd (run' r_stream n_simulations confidence_levels g1)
     = snd (draws' (length r_stream) count g1)
  /\ snd (run' r_stream n_simulations confidence_levels g2)
     = snd (draws' (length r_stream) count g2).
Proof.
  intros count H. subst count.
  destruct r_stream as [|x r_stream].
  - subst run' draws'. simpl. rewrite Nat.mul_0_r. simpl. auto.
  - assert (Hne : x :: r_stream <> []) by discriminate.
    destruct (run_monte_carlo_after (x :: r_stream) n_simulations
                confidence_levels Hne) as [finish Hrun].
    rewrite !Hrun.
    pose proof (simulations_draws _ Hne n_simulations g1 g2 H) as Hd.
    destruct (simulations_state _ Hne n_simulations g1) as [Hs1 _].
    destruct (simulations_state _ Hne n_simulations g2) as [Hs2 _].
    destruct (simulations rng randint (x :: r_stream) n_simulations g1)
      as [q1 k1].
    destruct (simulations rng randint (x :: r_stream) n_simulations g2)
      as [q2 k2].
    simpl in Hd, Hs1, Hs2. subst q2 k1 k2.
    destruct q1; simpl; auto.
Qed.

End Resampler.

(** Two invocations in a row on the stream 1, 2, 3, with the same number
    of simulations and the same confidence levels: the second goes on from
    the generator state the first left, and with a generator that counts
    its draws they see different samples and return different means. *)
Lemma run_monte_carlo_follows_the_draws_counterexample :
  let call :=
    run_monte_carlo nat counting_randint (fun _ => NaN)
      (fun _ _ => Ok NaN) [Fin 1; Fin 2; Fin 3] 1 [] in
  (final_r_mean <$> match fst (call 0%nat) with Ok o => o | Raise _ => None end)
    = Some (Fin 3)
  /\ (final_r_mean
        <$> match fst (call (snd (call 0%nat))) with
            | Ok o => o
            | Raise _ => None
            end)
    = Some (Fin 5)
  /\ fst (call 0%nat) <> fst (call (snd (call 0%nat))).
Proof.
  vm_compute. split; [reflexivity|]. split; [reflexivity|]. discriminate.
Qed.

(** The generator states 0 and 1 give the same three draws, so the
    invocations that start from them agree. *)
Lemma run_monte_carlo_follows_the_draws_witness :
  fst (run_monte_carlo nat counting_randint (fun _ => NaN)
         (fun _ _ => Ok NaN) [Fin 1; Fin 2; Fin 3] 1 [] 0%nat)
  = fst (run_monte_carlo nat counting_randint (fun _ => NaN)
           (fun _ _ => Ok NaN) [Fin 1; Fin 2; Fin 3] 1 [] 1%nat).
Proof.
  exact (proj1 (run_monte_carlo_follows_the_draws nat counting_randint
                  (fun _ => NaN) (fun _ _ => Ok NaN)
                  [Fin 1; Fin 2; Fin 3] 1 [] 0%nat 1%nat eq_refl)).
Defined.

End MonteCarloFacts.



(** ** More on the execution simulator *)

Module ExecutionSimProps.
Import ExecutionSim Samples.

Lemma exit_scan_target side stop target ef :
  forall (rest : list Bar) (i n : nat) (bj : Bar),
    rest !! n = Some bj ->
    (forall k bk, (k < n)%nat -> rest !! k = Some bk ->
       stop_hit side stop bk = false /\ target_hit side target bk = false) ->
    stop_hit side stop bj = false ->
    target_hit side target bj = true ->
    exit_scan side stop target ef i rest
    = Some (mkExec ef target (i + n) "target").
Proof.
  induction rest as [|b rest IH]; intros i n bj Hn Hbefore Hstop Htarget.
  - destruct n; discriminate.
  - destruct n as [|n]; simpl in *.
    + injection Hn as ->. rewrite Hstop, Htarget. now rewrite Nat.add_0_r.
    + destruct (Hbefore 0%nat b) as [Hs Ht]; [lia | reflexivity |].
      rewrite Hs, Ht.
      rewrite (IH (S i) n bj Hn); [now rewrite Nat.add_succ_r | | assumption..].
      intros k bk Hk Hbk. apply (Hbefore (S k) bk); [lia | exact Hbk].
Qed.

Lemma exit_scan_none side stop target ef :
  forall (rest : list Bar) (i : nat),
    exit_scan side stop target ef i rest = None
    <-> (forall k bk, rest !! k = Some bk ->
           stop_hit side stop bk = false /\ target_hit side target bk = false).
Proof.
  induction rest as [|b rest IH]; intros i; simpl.
  - split; [intros _ k bk H; destruct k; discriminate | reflexivity].
  - destruct (stop_hit side stop b) eqn:Hs.
    { split; [discriminate|]. intros H.
      destruct (H 0%nat b eq_refl) as [H0 _]. congruence. }
    destruct (target_hit side target b) eqn:Ht.
    { split; [discriminate|]. intros H.
      destruct (H 0%nat b eq_refl) as [_ H0]. congruence. }
    rewrite IH. split.
    + intros H [|k] bk Hk; simpl in Hk; [injection Hk as <-; auto | eauto].
    + intros H k bk Hk. apply (H (S k) bk Hk).
Qed.

(** What a returned result tells about the bars of the series. *)
Lemma first_trigger
    (bars : list Bar) (entry stop target : fl) (side : string) (idx : nat)
    (r : ExecutionResult) :
  simulate_execution bars entry stop target side idx = Some r ->
  (idx < exit_bar_idx r < length bars)%nat
  /\ (forall k bk, (idx < k < exit_bar_idx r)%nat -> bars !! k = Some bk ->
        stop_hit side stop bk = false /\ target_hit side target bk = false)
  /\ exists bj,
       bars !! exit_bar_idx r = Some bj
       /\ ((stop_hit side stop bj = true /\ exit_reason r = "stop"
            /\ exit_fill r = stop)
           \/ (stop_hit side stop bj = false /\ target_hit side target bj = true
               /\ exit_reason r = "target" /\ exit_fill r = target)).
Proof.
  unfold simulate_execution.
  destruct (bars !! idx) as [eb|]; [|discriminate].
  destruct (entry_phase side entry eb) as [ef|]; [|discriminate].
  intros H.
  destruct (ExecutionSimFacts.exit_scan_inv _ _ _ _ _ _ _ H)
    as (n & bj & Hi & Hn & _ & Hb & Hcase).
  rewrite lookup_drop in Hn. rewrite Hi.
  split; [split; [lia | eapply lookup_lt_Some, Hn]|].
  split.
  - intros k bk Hk Hbk. apply (Hb (k - S idx)%nat bk); [lia|].
    rewrite lookup_drop. now replace (S idx + (k - S idx))%nat with k by lia.
  - exists bj. split; [exact Hn | exact Hcase].
Qed.

(** X1. A returned result exits on a bar strictly after the entry bar and
    inside the series; no bar between the two triggers the stop or the
    target; and the exit is a stop at the stop price when the exit bar
    triggers the stop, a target at the target price only when that bar
    leaves the stop alone. *)
Theorem exit_is_first_trigger
    (bars : list Bar) (entry stop target : fl) (side : string) (idx : nat)
    (r : ExecutionResult) :
  simulate_execution bars entry stop target side idx = Some r ->
  (idx < exit_bar_idx r < length bars)%nat
  /\ (forall k bk, (idx < k < exit_bar_idx r)%nat -> bars !! k = Some bk ->
        stop_hit side stop bk = false /\ target_hit side target bk = false)
  /\ exists bj,
       bars !! exit_bar_idx r = Some bj
       /\ ((stop_hit side stop bj = true /\ exit_reason r = "stop"
            /\ exit_fill r = stop)
           \/ (stop_hit side stop bj = false /\ target_hit side target bj = true
               /\ exit_reason r = "target" /\ exit_fill r = target)).
Proof. exact (first_trigger bars entry stop target side idx r). Qed.

Lemma exit_is_first_trigger_witness :
  (0 < exit_bar_idx (mkExec (Fin 100) (Fin 95) 1 "stop") < length both_bars)%nat.
Proof.
  exact (proj1 (exit_is_first_trigger both_bars (Fin 100) (Fin 95) (Fin 105)
                  "long" 0 _ ExecutionSimFacts.both_bars_run)).
Defined.

(** X2. The simulation does not look past the exit bar: a series that
    agrees with the first one up to and including the exit bar gives the
    same result. *)
Theorem bars_after_exit_do_not_matter
    (bars bars' : list Bar) (entry stop target : fl) (side : string)
    (idx : nat) (r : ExecutionResult) :
  simulate_execution bars entry stop target side idx = Some r ->
  take (S (exit_bar_idx r)) bars' = take (S (exit_bar_idx r)) bars ->
  simulate_execution bars' entry stop target side idx = Some r.
Proof.
  intros H Htake.
  assert (Hsame : forall k, (k <= exit_bar_idx r)%nat -> bars' !! k = bars !! k).
  { intros k Hk.
    rewrite <- (lookup_take_lt bars' (S (exit_bar_idx r))) by lia.
    rewrite <- (lookup_take_lt bars (S (exit_bar_idx r))) by lia.
    now rewrite Htake. }
  destruct (first_trigger _ _ _ _ _ _ _ H)
    as ([Hlo Hhi] & Hbefore & bj & Hbj & Hcase).
  revert H. unfold simulate_execution.
  rewrite (Hsame idx) by lia.
  destruct (bars !! idx) as [eb|]; [|discriminate].
  destruct (entry_phase side entry eb) as [ef|]; [|discriminate].
  intros H.
  destruct (ExecutionSimFacts.exit_scan_inv _ _ _ _ _ _ _ H)
    as (n & bn & Hi & _ & Hef & _ & _).
  assert (Hj : (drop (S idx) bars' !! (exit_bar_idx r - S idx)%nat) = Some bj).
  { rewrite lookup_drop.
    replace (S idx + (exit_bar_idx r - S idx))%nat with (exit_bar_idx r) by lia.
    now rewrite Hsame by lia. }
  assert (Hb : forall k bk, (k < exit_bar_idx r - S idx)%nat ->
             drop (S idx) bars' !! k = Some bk ->
             stop_hit side stop bk = false /\ target_hit side target bk = false).
  { intros k bk Hk Hbk. rewrite lookup_drop, Hsame in Hbk by lia.
    apply (Hbefore (S idx + k)%nat bk); [lia | exact Hbk]. }
  destruct r as [ef' xf xi xr]; simpl in *. subst ef'.
  destruct Hcase as [(Hs & -> & ->) | (Hs & Ht & -> & ->)].
  - rewrite (ExecutionSimFacts.exit_scan_stop _ _ _ _ _ _ _ _ Hj Hb Hs).
    do 2 f_equal. lia.
  - rewrite (exit_scan_target _ _ _ _ _ _ _ _ Hj Hb Hs Ht).
    do 2 f_equal. lia.
Qed.

Lemma bars_after_exit_do_not_matter_witness :
  simulate_execution (both_bars ++ [flat_bar 7]) (Fin 100) (Fin 95) (Fin 105)
    "long" 0
  = Some (mkExec (Fin 100) (Fin 95) 1 "stop").
Proof.
  exact (bars_after_exit_do_not_matter both_bars (both_bars ++ [flat_bar 7])
           (Fin 100) (Fin 95) (Fin 105) "long" 0 _
           ExecutionSimFacts.both_bars_run eq_refl).
Defined.

(** X3. The simulation is unresolved (None) in exactly three situations: the
    entry index is outside the series, the entry price is outside the entry
    bar, or no bar after the entry bar triggers the stop or the target (in
    particular when the entry bar is the last one). *)
Theorem unresolved_iff
    (bars : list Bar) (entry stop target : fl) (side : string) (idx : nat) :
  simulate_execution bars entry stop target side idx = None
  <-> bars !! idx = None
      \/ (exists eb, bars !! idx = Some eb
                     /\ entry_phase side entry eb = None)
      \/ (forall k bk, (idx < k)%nat -> bars !! k = Some bk ->
            stop_hit side stop bk = false /\ target_hit side target bk = false).
Proof.
  unfold simulate_execution.
  destruct (bars !! idx) as [eb|] eqn:Heb; [|split; auto].
  destruct (entry_phase side entry eb) as [ef|] eqn:Hef;
    [|split; [right; left; eauto | reflexivity]].
  rewrite exit_scan_none. split.
  - intros H. right. right. intros k bk Hk Hbk.
    apply (H (k - S idx)%nat bk). rewrite lookup_drop.
    now replace (S idx + (k - S idx))%nat with k by lia.
  - intros [H | [(eb' & [= <-] & H) | H]]; [discriminate | congruence |].
    intros k bk Hbk. rewrite lookup_drop in Hbk.
    apply (H (S idx + k)%nat bk); [lia | exact Hbk].
Qed.

End ExecutionSimProps.

(** ** More on the candidate generator *)

Module CandidatesProps.
Import Candidates Samples.

Lemma lift2_NaN_r f a : lift2 f a NaN = NaN.
Proof. now destruct a. Qed.

Lemma recent_rows_length lookback (df : list Row) :
  (1 <= lookback)%nat -> (lookback * 2 < length df)%nat ->
  length (recent_rows lookback df) = (lookback * 2)%nat.
Proof.
  intros H1 H2. unfold recent_rows.
  destruct (lookback * 2)%nat as [|n] eqn:E; [lia|].
  rewrite length_drop. lia.
Qed.

(** With a lookback of one bar or more the pivot loops have no index to
    visit. *)
Lemma swing_family_nil
    (cfg : Cfg) (df : list Row) (latest : Row) (price : fl) :
  (1 <= pivot_lookback cfg)%nat ->
  swing_family cfg df latest price = Ok [].
Proof.
  intros Hlb. unfold swing_family.
  destruct (swing_enabled cfg); [|reflexivity].
  destruct (atr_14 latest) as [atr|]; [|reflexivity].
  destruct (Nat.ltb_spec (pivot_lookback cfg * 2) (length df)); [|reflexivity].
  rewrite recent_rows_length by assumption.
  replace (pivot_lookback cfg * 2 - pivot_lookback cfg - pivot_lookback cfg)%nat
    with 0%nat by lia.
  reflexivity.
Qed.

(** X4. With a pivot lookback of at least one bar the swing family proposes
    nothing and raises nothing: the window of the last 2*lookback rows
    leaves no index with lookback rows on both sides. *)
Theorem swing_family_is_silent
    (cfg : Cfg) (df : list Row) (latest : Row) (price : fl) :
  (1 <= pivot_lookback cfg)%nat ->
  swing_family cfg df latest price = Ok [].
Proof. exact (swing_family_nil cfg df latest price). Qed.

Lemma swing_family_is_silent_witness :
  swing_family default_cfg df_features row_100 (Fin 100) = Ok [].
Proof.
  apply (swing_family_is_silent default_cfg df_features row_100 (Fin 100)).
  simpl. lia.
Defined.

(** X5. With a pivot lookback of at least one bar the candidates of a bar
    depend on the latest feature row only: the history before it changes
    nothing. *)
Theorem candidates_depend_on_latest_row
    (cfg : Cfg) (df : list Row) (latest : Row) :
  (1 <= pivot_lookback cfg)%nat ->
  last df = Some latest ->
  generate_candidates df cfg = generate_candidates [latest] cfg.
Proof.
  intros Hlb Hlast. unfold generate_candidates. rewrite Hlast.
  change (last [latest]) with (Some latest). cbv iota beta.
  destruct (feq _ _); [reflexivity|].
  destruct (vwap_family _ _ _) as [atr1 cv].
  destruct (opening_range_family _ _ _ _) as [co|e]; [|reflexivity].
  cbv [rbind].
  destruct (prior_session_family _ _ _ _) as [atr2 cp].
  now rewrite !swing_family_nil by assumption.
Qed.

Lemma candidates_depend_on_latest_row_witness :
  generate_candidates (take 101 df_features) default_cfg
  = generate_candidates [row_100] default_cfg.
Proof.
  apply (candidates_depend_on_latest_row default_cfg
           (take 101 df_features) row_100).
  - simpl. lia.
  - reflexivity.
Defined.

(** The opening-range family raises only by reading the unbound [atr]. *)
Lemma opening_range_raises cfg latest atr price e :
  opening_range_family cfg latest atr price = Raise e ->
  e = UnboundLocalError "atr" /\ atr = None /\ is_Some (atr_14 latest).
Proof.
  unfold opening_range_family, or_long, or_short, read_atr.
  destruct (opening_range_enabled cfg); [|discriminate].
  destruct (opening_range_high latest) as [orh|]; [|discriminate].
  destruct (opening_range_low latest) as [orl|]; [|discriminate].
  destruct (notna orh && notna orl); [|discriminate].
  destruct (atr_14 latest) as [a|]; destruct atr as [b|]; simpl;
    repeat match goal with
           | |- context [if ?b then _ else _] => destruct b; simpl
           end;
    try discriminate; intros [= <-]; eauto.
Qed.

Lemma vwap_family_unbound cfg latest price :
  fst (vwap_family cfg latest price) = None ->
  is_Some (atr_14 latest) ->
  vwap_enabled cfg = false \/ session_vwap latest = None
  \/ session_vwap latest = Some NaN.
Proof.
  unfold vwap_family. destruct (vwap_enabled cfg); [|auto].
  destruct (session_vwap latest) as [[|v]|]; [auto | | auto].
  intros H [a Ha]. rewrite Ha in H. discriminate.
Qed.

Lemma column_raises name f rows e :
  column name f rows = Raise e -> e = KeyError name.
Proof.
  induction rows as [|r rows IH]; simpl; [discriminate|].
  destruct (f r); simpl; [|intros [= <-]; reflexivity].
  destruct (column name f rows); simpl; [discriminate|].
  intros [= <-]. now apply IH.
Qed.

Lemma for_each_raises body idxs e :
  for_each body idxs = Raise e -> exists i, body i = Raise e.
Proof.
  induction idxs as [|i idxs IH]; simpl; [discriminate|].
  destruct (body i) eqn:Hb; simpl; [|intros [= <-]; eauto].
  destruct (for_each body idxs); simpl; [discriminate|].
  intros [= <-]. now apply IH.
Qed.

Lemma swing_family_raises cfg df latest price e :
  swing_family cfg df latest price = Raise e ->
  pivot_lookback cfg = 0%nat /\ (e = KeyError "high" \/ e = KeyError "low").
Proof.
  intros H. split.
  - destruct (pivot_lookback cfg) eqn:E; [reflexivity|].
    rewrite swing_family_nil in H by lia. discriminate.
  - revert H. unfold swing_family.
    destruct (swing_enabled cfg); [|discriminate].
    destruct (atr_14 latest) as [atr|]; [|discriminate].
    destruct (_ <? _)%nat; [|discriminate].
    destruct (for_each (swing_high_at _ _ _ _) _) as [hs|eh] eqn:Hh.
    + destruct (for_each (swing_low_at _ _ _ _) _) as [ls|el] eqn:Hl;
        [discriminate|].
      simpl. intros [= <-]. right.
      apply for_each_raises in Hl as [i Hi]. revert Hi.
      unfold swing_low_at. destruct (_ !! i) as [r|]; [|discriminate].
      destruct (low r); simpl; [|intros [= <-]; reflexivity].
      destruct (column "low" low _) eqn:Hc; simpl.
      * repeat match goal with
               | |- context [if ?b then _ else _] => destruct b
               end; discriminate.
      * intros [= <-]. eapply column_raises, Hc.
    + simpl. intros [= <-]. left.
      apply for_each_raises in Hh as [i Hi]. revert Hi.
      unfold swing_high_at. destruct (_ !! i) as [r|]; [|discriminate].
      destruct (high r); simpl; [|intros [= <-]; reflexivity].
      destruct (column "high" high _) eqn:Hc; simpl.
      * repeat match goal with
               | |- context [if ?b then _ else _] => destruct b
               end; discriminate.
      * intros [= <-]. eapply column_raises, Hc.
Qed.

(** X6. The generator raises in two situations only.  Either the ATR column
    exists while the VWAP family is skipped (disabled, no VWAP column, or a
    NaN VWAP), and the exception is the UnboundLocalError of the local
    [atr]; or the pivot lookback is zero and the swing loop misses the high
    or low column (a KeyError). *)
Theorem generator_raises_only_when
    (df : list Row) (cfg : Cfg) (e : exn) :
  generate_candidates df cfg = Raise e ->
  exists latest,
    last df = Some latest
    /\ ((e = UnboundLocalError "atr"
         /\ is_Some (atr_14 latest)
         /\ (vwap_enabled cfg = false \/ session_vwap latest = None
             \/ session_vwap latest = Some NaN))
        \/ (pivot_lookback cfg = 0%nat
            /\ (e = KeyError "high" \/ e = KeyError "low"))).
Proof.
  unfold generate_candidates.
  destruct (last df) as [latest|]; [|discriminate].
  destruct (feq _ _); [discriminate|].
  pose proof (vwap_family_unbound cfg latest (default (Fin 0) (close latest)))
    as Hv.
  destruct (vwap_family _ _ _) as [atr1 cv]. simpl in Hv.
  destruct (opening_range_family _ _ _ _) as [co|eo] eqn:Ho.
  - cbv [rbind].
    destruct (prior_session_family _ _ _ _) as [atr2 cp].
    destruct (swing_family _ _ _ _) as [cw|ew] eqn:Hw; [discriminate|].
    intros [= <-]. exists latest. split; [reflexivity|]. right.
    eapply swing_family_raises, Hw.
  - simpl. intros [= <-]. exists latest. split; [reflexivity|]. left.
    apply opening_range_raises in Ho as (-> & -> & Hatr). auto.
Qed.

Lemma generator_raises_only_when_witness :
  exists latest,
    last [warmup_row] = Some latest
    /\ ((UnboundLocalError "atr" = UnboundLocalError "atr"
         /\ is_Some (atr_14 latest)
         /\ (vwap_enabled default_cfg = false \/ session_vwap latest = None
             \/ session_vwap latest = Some NaN))
        \/ (pivot_lookback default_cfg = 0%nat
            /\ (UnboundLocalError "atr" = KeyError "high"
                \/ UnboundLocalError "atr" = KeyError "low"))).
Proof.
  exact (generator_raises_only_when [warmup_row] default_cfg
           (UnboundLocalError "atr") eq_refl).
Defined.

(** X7. A NaN ATR silences the generator: when the VWAP family runs (it is
    enabled and the VWAP is a number), the ATR column holds NaN, min_rr is
    not below or at zero and the pivot lookback is at least one, every
    family proposes nothing and nothing is raised. *)
Theorem nan_atr_gives_no_candidates
    (df : list Row) (cfg : Cfg) (latest : Row) (v : Q) :
  last df = Some latest ->
  vwap_enabled cfg = true ->
  session_vwap latest = Some (Fin v) ->
  atr_14 latest = Some NaN ->
  fle (min_rr cfg) (Fin 0) = false ->
  (1 <= pivot_lookback cfg)%nat ->
  generate_candidates df cfg = Ok [].
Proof.
  intros Hlast Hen Hv Ha Hmin Hlb.
  unfold generate_candidates. rewrite Hlast.
  destruct (feq _ _); [reflexivity|].
  set (price := default (Fin 0) (close latest)).
  assert (Hvw : vwap_family cfg latest price = (Some NaN, [])).
  { unfold vwap_family. rewrite Hen, Hv, Ha. simpl. f_equal.
    induction (atr_multipliers cfg) as [|k ks IH]; [reflexivity|].
    simpl. rewrite IH.
    unfold vwap_long, vwap_short, fsub, fadd, fmul.
    rewrite !lift2_NaN_r. reflexivity. }
  rewrite Hvw.
  assert (Hor : opening_range_family cfg latest (Some NaN) price = Ok []).
  { unfold opening_range_family, or_long, or_short, read_atr, rr_of, fge.
    rewrite Ha.
    destruct (opening_range_enabled cfg); [|reflexivity].
    destruct (opening_range_high latest) as [orh|]; [|reflexivity].
    destruct (opening_range_low latest) as [orl|]; [|reflexivity].
    destruct (notna orh && notna orl); [|reflexivity].
    cbv [rbind]. unfold fsub, fadd. simpl (NaN * half)%fl.
    rewrite !lift2_NaN_r. simpl. rewrite Hmin.
    repeat match goal with
           | |- context [if ?b then _ else _] => destruct b; simpl
           end; reflexivity. }
  rewrite Hor. cbv [rbind].
  assert (Hps : snd (prior_session_family cfg latest (Some NaN) price) = []).
  { unfold prior_session_family, prior_long, prior_short, rr_of, fge.
    rewrite Ha.
    destruct (prior_session_enabled cfg); [|reflexivity].
    destruct (prior_high latest) as [ph|]; [|reflexivity].
    destruct (prior_low latest) as [pl|]; [|reflexivity].
    destruct (notna ph && notna pl); [|reflexivity].
    simpl default. unfold fsub, fadd. simpl (NaN * half)%fl.
    rewrite !lift2_NaN_r. simpl. rewrite Hmin.
    repeat match goal with
           | |- context [if ?b then _ else _] => destruct b; simpl
           end; reflexivity. }
  destruct (prior_session_family _ _ _ _) as [atr2 cp]. simpl in Hps. subst cp.
  now rewrite swing_family_nil by assumption.
Qed.

Lemma nan_atr_gives_no_candidates_witness :
  generate_candidates [atr_warmup_row] default_cfg = Ok [].
Proof.
  apply (nan_atr_gives_no_candidates [atr_warmup_row] default_cfg
           atr_warmup_row 100); try reflexivity.
  simpl. lia.
Defined.

End CandidatesProps.

(** ** More on the risk manager *)

Module RiskProps.
Import ContractSpecs Limits RiskManager RiskFacts Samples.

Ltac unfold_sizing :=
  cbv [size_position bind lift ret check_daily_max_r check_max_trades
       check_max_open_risk modify gets].

Lemma prefer_micro_step_qty cfg symbol spec contracts dollars risk sym' spec' n :
  prefer_micro_step cfg symbol spec contracts dollars risk = Ok (sym', spec', n) ->
  (1 <= contracts)%Z -> (1 <= n)%Z.
Proof.
  unfold prefer_micro_step.
  destruct (prefer_micro cfg && String.eqb symbol "NQ"); [|now intros [= _ _ <-]].
  change (get_contract_spec "MNQ") with (Ok MNQ). cbv [rbind].
  destruct (pyfloor _) as [m|e]; [|discriminate].
  destruct (Z.geb_spec m 1); intros [= _ _ <-]; auto.
Qed.

(** An accepted decision is for at least one contract on a day that has
    reached neither the daily floor nor the trade ceiling. *)
Lemma accepted_within_limits
    (cfg : CfgRisk) (cand : Candidates.Candidate) (symbol : string)
    (d : Time.date) (st : RiskLimits) (dec : Decision) :
  fst (size_position cfg cand symbol d st) = Ok dec ->
  allow dec = true ->
  (1 <= qty dec)%Z
  /\ fle (realized_r_on st d) (fneg (daily_max_r cfg)) = false
  /\ (trades_on st d < max_trades_day cfg)%Z.
Proof.
  intros Hdec Hallow. revert Hdec. unfold_sizing.
  destruct (fle (Candidates.risk_points cand) (Fin 0));
    [simpl; intros [= <-]; discriminate|].
  destruct (get_contract_spec symbol) as [spec|e]; [|discriminate].
  destruct (pyfloor _) as [contracts|e]; [|discriminate].
  destruct (Z.leb_spec contracts 0) as [|Hc];
    [simpl; intros [= <-]; discriminate|].
  destruct (prefer_micro_step _ _ _ _ _ _) as [[[sym sp] n]|e] eqn:Hm;
    [|discriminate].
  apply prefer_micro_step_qty in Hm; [|lia].
  rewrite !reset_daily_realized.
  destruct (fle _ (fneg _)) eqn:Hr; simpl; [intros [= <-]; discriminate|].
  rewrite !reset_daily_trades.
  destruct (Z.geb_spec (trades_on st d) (max_trades_day cfg)) as [|Ht]; simpl;
    [intros [= <-]; discriminate|].
  destruct (fgt _ _) eqn:Ho; simpl; intros [= <-]; [discriminate|].
  simpl. repeat split; eauto.
Qed.

(** X8. An accepted decision has passed every gate: the risk is positive,
    at least one contract is sized, the day's realized R is above the
    daily floor, the day's trade count is below the ceiling, and one more R
    of open risk stays within the open-risk ceiling; it commits exactly 1R,
    carries no reason and names a symbol. *)
Theorem accepted_passed_every_gate
    (cfg : CfgRisk) (cand : Candidates.Candidate) (symbol : string)
    (d : Time.date) (st : RiskLimits) (dec : Decision) :
  fst (size_position cfg cand symbol d st) = Ok dec ->
  allow dec = true ->
  fgt (Candidates.risk_points cand) (Fin 0) = true
  /\ (1 <= qty dec)%Z
  /\ risk_r dec = Fin 1
  /\ reason_of dec = None
  /\ is_Some (symbol_of dec)
  /\ fle (realized_r_on st d) (fneg (daily_max_r cfg)) = false
  /\ (trades_on st d < max_trades_day cfg)%Z
  /\ fgt (open_risk_r st + Fin 1)%fl (max_open_risk_r cfg) = false.
Proof.
  intros Hdec Hallow.
  split; [eapply EngineFacts.accepted_risk_positive; eauto|].
  revert Hdec. unfold_sizing.
  destruct (fle (Candidates.risk_points cand) (Fin 0));
    [simpl; intros [= <-]; discriminate|].
  destruct (get_contract_spec symbol) as [spec|e]; [|discriminate].
  destruct (pyfloor _) as [contracts|e]; [|discriminate].
  destruct (Z.leb_spec contracts 0) as [|Hc];
    [simpl; intros [= <-]; discriminate|].
  destruct (prefer_micro_step _ _ _ _ _ _) as [[[sym sp] n]|e] eqn:Hm;
    [|discriminate].
  apply prefer_micro_step_qty in Hm; [|lia].
  rewrite !reset_daily_realized.
  destruct (fle _ (fneg _)) eqn:Hr; simpl; [intros [= <-]; discriminate|].
  rewrite !reset_daily_trades.
  destruct (Z.geb_spec (trades_on st d) (max_trades_day cfg)) as [|Ht]; simpl;
    [intros [= <-]; discriminate|].
  rewrite !reset_daily_open.
  destruct (fgt _ _) eqn:Ho; simpl; intros [= <-]; [discriminate|].
  simpl. repeat split; eauto.
Qed.

Lemma accepted_passed_every_gate_witness :
  (1 <= qty sample_decision)%Z /\ (trades_on Limits.init 0%Z < 10)%Z.
Proof.
  pose proof (accepted_passed_every_gate Limits.default_cfg prior_low_candidate
                "NQ" 0%Z Limits.init sample_decision eq_refl eq_refl)
    as (_ & Hq & _ & _ & _ & _ & Ht & _).
  exact (conj Hq Ht).
Defined.

(** X9. A refusal tells the truth and the gates are ordered: the reason
    carries the measured value and the configured limit; the trade-count
    reason appears only when the daily-R gate has passed, and the open-risk
    reason only when both earlier gates have passed; the two sizing reasons
    come with qty 0. *)
Theorem refusal_reasons_are_ordered
    (cfg : CfgRisk) (cand : Candidates.Candidate) (symbol : string)
    (d : Time.date) (st : RiskLimits) (dec : Decision) :
  fst (size_position cfg cand symbol d st) = Ok dec ->
  match reason_of dec with
  | None => allow dec = true
  | Some InvalidRiskPoints =>
      allow dec = false /\ qty dec = 0%Z
      /\ fle (Candidates.risk_points cand) (Fin 0) = true
  | Some PositionTooSmall =>
      allow dec = false /\ qty dec = 0%Z
      /\ fle (Candidates.risk_points cand) (Fin 0) = false
  | Some (DailyMaxR current_r max_r) =>
      allow dec = false /\ (1 <= qty dec)%Z
      /\ current_r = realized_r_on st d /\ max_r = daily_max_r cfg
      /\ fle current_r (fneg max_r) = true
  | Some (MaxTrades current_trades max_trades) =>
      allow dec = false /\ (1 <= qty dec)%Z
      /\ current_trades = trades_on st d /\ max_trades = max_trades_day cfg
      /\ (max_trades <= current_trades)%Z
      /\ fle (realized_r_on st d) (fneg (daily_max_r cfg)) = false
  | Some (MaxOpenRisk new_open_risk max_open) =>
      allow dec = false /\ (1 <= qty dec)%Z
      /\ new_open_risk = (open_risk_r st + Fin 1)%fl
      /\ max_open = max_open_risk_r cfg
      /\ fgt new_open_risk max_open = true
      /\ fle (realized_r_on st d) (fneg (daily_max_r cfg)) = false
      /\ (trades_on st d < max_trades_day cfg)%Z
  end.
Proof.
  unfold_sizing.
  destruct (fle (Candidates.risk_points cand) (Fin 0)) eqn:Hrp;
    [simpl; intros [= <-]; simpl; auto|].
  destruct (get_contract_spec symbol) as [spec|e]; [|discriminate].
  destruct (pyfloor _) as [contracts|e]; [|discriminate].
  destruct (Z.leb_spec contracts 0) as [|Hc];
    [simpl; intros [= <-]; simpl; auto|].
  destruct (prefer_micro_step _ _ _ _ _ _) as [[[sym sp] n]|e] eqn:Hm;
    [|discriminate].
  apply prefer_micro_step_qty in Hm; [|lia].
  rewrite !reset_daily_realized.
  destruct (fle _ (fneg _)) eqn:Hr; simpl; [intros [= <-]; simpl; auto|].
  rewrite !reset_daily_trades.
  destruct (Z.geb_spec (trades_on st d) (max_trades_day cfg)) as [|Ht]; simpl;
    [intros [= <-]; simpl; repeat split; auto; lia|].
  rewrite !reset_daily_open.
  destruct (fgt _ _) eqn:Ho; simpl; intros [= <-]; simpl; auto.
  repeat split; auto.
Qed.

Lemma refusal_reasons_are_ordered_witness :
  allow (refuse (Some PositionTooSmall) 0 (Fin 0)) = false
  /\ qty (refuse (Some PositionTooSmall) 0 (Fin 0)) = 0%Z
  /\ fle (Candidates.risk_points wide_candidate) (Fin 0) = false.
Proof.
  exact (refusal_reasons_are_ordered Limits.default_cfg wide_candidate "NQ"
           0%Z Limits.init (refuse (Some PositionTooSmall) 0 (Fin 0)) eq_refl).
Defined.

(** X10. A NaN risk is not caught by the guard [risk_points <= 0]: for a
    known symbol the call raises the ValueError of [math.floor] instead of
    returning a refusal, and leaves the limits as they were. *)
Theorem nan_risk_raises
    (cfg : CfgRisk) (cand : Candidates.Candidate) (symbol : string)
    (d : Time.date) (st : RiskLimits) (spec : Spec) :
  Candidates.risk_points cand = NaN ->
  get_contract_spec symbol = Ok spec ->
  size_position cfg cand symbol d st
  = (Raise (ValueError "cannot convert float NaN to integer"), st).
Proof.
  intros Hrp Hspec. unfold_sizing. rewrite Hrp, Hspec. simpl.
  now rewrite fdiv_NaN_r.
Qed.

Lemma Qfloor_Qred q : Qfloor (Qred q) = Qfloor q.
Proof. apply Qfloor_comp, Qred_correct. Qed.

(** What [math.floor(x / (r * pv))] returning tells about its operands. *)
Lemma pyfloor_quotient (x r pv : fl) (n : Z) :
  pyfloor (x / (r * pv))%fl = Ok n ->
  exists qx qr qpv,
    x = Fin qx /\ r = Fin qr /\ pv = Fin qpv
    /\ ~ (qr * qpv == 0)%Q /\ n = Qfloor (qx / (qr * qpv)).
Proof.
  intros H.
  destruct x as [|qx], r as [|qr], pv as [|qpv]; try discriminate H.
  unfold fmul, lift2, fdiv in H.
  destruct (Qeq_bool (Qred (qr * qpv)) 0) eqn:E; [discriminate H|].
  injection H as <-. exists qx, qr, qpv.
  split; [reflexivity|]. split; [reflexivity|]. split; [reflexivity|]. split.
  - apply Qeq_bool_neq in E. now rewrite Qred_correct in E.
  - rewrite Qfloor_Qred. apply Qfloor_comp. now rewrite Qred_correct.
Qed.

Lemma fgt_zero_Fin q : fgt (Fin q) (Fin 0) = true -> (0 < q)%Q.
Proof. unfold fgt. intros H. now apply flt_spec in H. Qed.

(** A budget that buys full-size contracts buys at least as many micro
    contracts. *)
Lemma micro_count (x r : fl) (c : Z) :
  pyfloor (x / (r * Fin 20))%fl = Ok c ->
  fgt r (Fin 0) = true ->
  (1 <= c)%Z ->
  exists m, pyfloor (x / (r * Fin 2))%fl = Ok m /\ (c <= m)%Z.
Proof.
  intros Hc Hr Hone.
  cut (exists m, pyfloor (x / (r * Fin 2))%fl = Ok m /\ (10 * c <= m)%Z).
  { intros (m & Hm & Hle). exists m. split; [exact Hm | lia]. }
  destruct (pyfloor_quotient _ _ _ _ Hc) as (qx & qr & q20 & -> & -> & [= <-] & Hnz & ->).
  apply fgt_zero_Fin in Hr.
  assert (H2 : ~ (qr * 2 == 0)%Q).
  { intros H. apply (Qlt_irrefl 0). rewrite <- H at 2.
    apply Qmult_lt_0_compat; [assumption | reflexivity]. }
  exists (Qfloor (qx / (qr * 2))). split.
  - unfold fmul, lift2, fdiv. destruct (Qeq_bool (Qred (qr * 2)) 0) eqn:E.
    + apply Qeq_bool_iff in E. rewrite Qred_correct in E. contradiction.
    + unfold pyfloor. f_equal. rewrite Qfloor_Qred. apply Qfloor_comp.
      now rewrite Qred_correct.
  - rewrite <- (Qfloor_Z (10 * Qfloor (qx / (qr * 20)))).
    apply Qfloor_resp_le.
    rewrite inject_Z_mult.
    apply Qle_trans with (inject_Z 10 * (qx / (qr * 20)))%Q.
    + apply Qmult_le_l; [reflexivity | apply Qfloor_le].
    + apply Qle_lteq. right. field.
      intros H. apply Hnz. rewrite H. ring.
Qed.

(** X12. With prefer_micro enabled every accepted sizing of "NQ" is moved to
    the micro contract: once the full-size contract yields at least one
    contract the micro contract yields at least as many, so the test that it
    yields one cannot fail, and the decision names "MNQ" with the number of
    micro contracts. *)
Theorem micro_is_always_preferred
    (cfg : CfgRisk) (cand : Candidates.Candidate) (d : Time.date)
    (st : RiskLimits) (dec : Decision) :
  prefer_micro cfg = true ->
  fst (size_position cfg cand "NQ" d st) = Ok dec ->
  allow dec = true ->
  symbol_of dec = Some "MNQ"
  /\ exists full micro,
       pyfloor (dollars_per_r cfg * Fin 1
                / (Candidates.risk_points cand * point_value NQ))%fl = Ok full
       /\ pyfloor (dollars_per_r cfg * Fin 1
                   / (Candidates.risk_points cand * point_value MNQ))%fl
          = Ok micro
       /\ (1 <= full <= micro)%Z
       /\ qty dec = micro.
Proof.
  intros Hmicro Hdec Hallow.
  pose proof (EngineFacts.accepted_risk_positive _ _ _ _ _ _ Hdec Hallow) as Hpos.
  revert Hdec. unfold_sizing.
  destruct (fle (Candidates.risk_points cand) (Fin 0));
    [simpl; intros [= <-]; discriminate|].
  change (get_contract_spec "NQ") with (Ok NQ). cbv iota beta.
  destruct (pyfloor (_ / (_ * point_value NQ))%fl) as [contracts|e] eqn:Hc;
    [|discriminate].
  destruct (Z.leb_spec contracts 0) as [|Hpos'];
    [simpl; intros [= <-]; discriminate|].
  destruct (micro_count _ _ _ Hc Hpos ltac:(lia)) as (m & Hm & Hle).
  unfold prefer_micro_step. rewrite Hmicro.
  change (get_contract_spec "MNQ") with (Ok MNQ). cbv [rbind andb].
  rewrite String.eqb_refl.
  change (point_value MNQ) with (Fin 2). rewrite Hm.
  destruct (Z.geb_spec m 1) as [_|Hlt]; [|lia].
  cbv iota beta.
  destruct (fle _ (fneg _)); simpl; [intros [= <-]; discriminate|].
  destruct (_ >=? _)%Z; simpl; [intros [= <-]; discriminate|].
  destruct (fgt (_ + _) _); simpl; intros [= <-]; [discriminate|].
  simpl. split; [reflexivity|].
  exists contracts, m. repeat split; try reflexivity; lia.
Qed.

Lemma micro_is_always_preferred_witness :
  symbol_of sample_decision = Some "MNQ"
  /\ exists full micro,
       pyfloor (dollars_per_r Limits.default_cfg * Fin 1
                / (Candidates.risk_points prior_low_candidate
                   * point_value NQ))%fl = Ok full
       /\ pyfloor (dollars_per_r Limits.default_cfg * Fin 1
                   / (Candidates.risk_points prior_low_candidate
                      * point_value MNQ))%fl = Ok micro
       /\ (1 <= full <= micro)%Z
       /\ qty sample_decision = micro.
Proof.
  exact (micro_is_always_preferred Limits.default_cfg prior_low_candidate
           0%Z Limits.init sample_decision eq_refl eq_refl eq_refl).
Defined.

Lemma nan_risk_raises_witness :
  size_position Limits.default_cfg nan_candidate "NQ" 0%Z Limits.init
  = (Raise (ValueError "cannot convert float NaN to integer"), Limits.init).
Proof.
  exact (nan_risk_raises Limits.default_cfg nan_candidate "NQ" 0%Z Limits.init
           NQ eq_refl eq_refl).
Defined.

(** X13. Crediting a trade and its realized R to a day adds one to that
    day's trade count and the R to that day's realized R, and changes
    neither the counters of any other day nor the open-risk total. *)
Theorem credit_touches_one_day
    (d : Time.date) (r : fl) (st : RiskLimits) :
  let st' := add_realized_r d r (add_trade d st) in
  trades_on st' d = (trades_on st d + 1)%Z
  /\ realized_r_on st' d = (realized_r_on st d + r)%fl
  /\ (forall d', d' <> d ->
        trades_on st' d' = trades_on st d'
        /\ realized_r_on st' d' = realized_r_on st d')
  /\ open_risk_r st' = open_risk_r st.
Proof.
  cbv zeta.
  rewrite EngineFacts.add_realized_r_trades, EngineFacts.add_trade_trades,
    EngineFacts.add_realized_r_realized, EngineFacts.add_realized_r_open,
    EngineFacts.add_trade_open.
  destruct (decide (d = d)); [|congruence].
  rewrite EngineFacts.add_trade_realized.
  repeat split; try reflexivity.
  - rewrite EngineFacts.add_realized_r_trades, EngineFacts.add_trade_trades.
    destruct (decide (d = d')); [congruence | reflexivity].
  - rewrite EngineFacts.add_realized_r_realized.
    destruct (decide (d = d')); [congruence|].
    apply EngineFacts.add_trade_realized.
Qed.

(** X14. Whatever is removed, the open-risk total left by remove_open_risk
    is a number and is not negative (a NaN total is reset to zero). *)
Theorem remove_open_risk_not_negative (r : fl) (st : RiskLimits) :
  fl_le (Fin 0) (open_risk_r (remove_open_risk r st)).
Proof.
  unfold remove_open_risk. simpl. unfold pymax, fgt.
  destruct (flt (Fin 0) (open_risk_r st - fabs r)%fl) eqn:E.
  - apply flt_spec in E.
    destruct (open_risk_r st - fabs r)%fl; simpl in *; [tauto|].
    now apply Qlt_le_weak.
  - simpl. apply Qle_refl.
Qed.

Lemma losses_accumulate d n st :
  realized_r_on st d = Fin 0 ->
  exists q,
    realized_r_on (Nat.iter n (add_realized_r d (Fin (-1))) st) d = Fin q
    /\ (q == - inject_Z (Z.of_nat n))%Q.
Proof.
  intros H0. induction n as [|n (q & Hq & Heq)].
  - exists 0%Q. split; [exact H0 | reflexivity].
  - simpl Nat.iter. rewrite EngineFacts.add_realized_r_realized.
    destruct (decide (d = d)); [|congruence].
    rewrite Hq. eexists. split; [reflexivity|].
    rewrite Qred_correct, Heq, Nat2Z.inj_succ. unfold Z.succ.
    rewrite inject_Z_plus. ring.
Qed.

(** X16. After n trades that each credit -1R to a day that stood at zero,
    the daily-R gate of that day lets a sizing call through exactly when
    n is still below daily_max_r, and refuses from daily_max_r <= n on. *)
Theorem daily_floor_after_losses
    (cfg : CfgRisk) (d : Time.date) (n : nat) (m : Q) (st : RiskLimits) :
  realized_r_on st d = Fin 0 ->
  daily_max_r cfg = Fin m ->
  exists reason,
    fst (check_daily_max_r cfg d
           (Nat.iter n (add_realized_r d (Fin (-1))) st))
    = Ok (negb (Qle_bool m (inject_Z (Z.of_nat n))), reason).
Proof.
  intros H0 Hm.
  destruct (losses_accumulate d n st H0) as (q & Hq & Heq).
  cbv [check_daily_max_r bind modify gets ret].
  rewrite reset_daily_realized, Hq, Hm.
  assert (Hb : fle (Fin q) (fneg (Fin m)) = Qle_bool m (inject_Z (Z.of_nat n))).
  { unfold fneg, fsub, lift2, fle. apply eq_true_iff_eq.
    rewrite !Qle_bool_iff, Qred_correct, Heq. split; intros H; lra. }
  rewrite Hb.
  destruct (Qle_bool m (inject_Z (Z.of_nat n))); eexists; reflexivity.
Qed.

Lemma daily_floor_after_losses_witness :
  exists reason,
    fst (check_daily_max_r Limits.default_cfg 0%Z
           (Nat.iter 5 (add_realized_r 0%Z (Fin (-1))) Limits.init))
    = Ok (negb (Qle_bool 5 (inject_Z (Z.of_nat 5))), reason).
Proof.
  exact (daily_floor_after_losses Limits.default_cfg 0%Z 5 5 Limits.init
           eq_refl eq_refl).
Defined.

End RiskProps.

(** ** The feature builder *)

Module FeaturesFacts.
Import ExecutionSim Features.

Lemma utc_index_aware ts : Time.tzoff (utc_index ts) = Some 0%Z.
Proof. unfold utc_index. now destruct (Time.tzoff ts). Qed.

Lemma insert_row_Forall (P : Bar -> Prop) b l :
  P b -> Forall P l -> Forall P (insert_row b l).
Proof.
  intros Hb Hl. induction Hl as [|c l Hc Hl IH]; simpl.
  - now constructor.
  - destruct (_ <? _)%Z; constructor; auto.
Qed.

Lemma sort_index_Forall (P : Bar -> Prop) l :
  Forall P l -> Forall P (sort_index l).
Proof.
  intros Hl. induction Hl as [|b l Hb Hl IH]; simpl; [constructor|].
  now apply insert_row_Forall.
Qed.

Lemma insert_row_length b l : length (insert_row b l) = S (length l).
Proof.
  induction l as [|c l IH]; simpl; [reflexivity|].
  destruct (_ <? _)%Z; simpl; now rewrite ?IH.
Qed.

Lemma sort_index_length l : length (sort_index l) = length l.
Proof.
  induction l as [|b l IH]; simpl; [reflexivity|].
  now rewrite insert_row_length, IH.
Qed.

(** After lines 35-40 every stamp of the index is UTC-aware. *)
Lemma index_is_utc df_bars :
  Forall (fun ts => Time.tzoff ts = Some 0%Z)
    (map bar_ts (sort_index (map reindex df_bars))).
Proof.
  apply Forall_map, sort_index_Forall, Forall_map, Forall_forall.
  intros b _. apply utc_index_aware.
Qed.

Lemma index_map_first {A B : Type} (f : A -> result B) x l e :
  f x = Raise e -> index_map f (x :: l) = Raise e.
Proof. intros H. simpl. now rewrite H. Qed.

(** On a UTC index that is not empty the map of line 80 raises. *)
Lemma minutes_map_raises rth_start index :
  index <> [] ->
  Forall (fun ts => Time.tzoff ts = Some 0%Z) index ->
  index_map (Time.minutes_since_rth_open rth_start) index
  = Raise (UnboundLocalError "market_tz_obj").
Proof.
  intros Hne Hutc. destruct index as [|ts index]; [contradiction|].
  apply index_map_first. unfold Time.minutes_since_rth_open.
  apply Forall_cons in Hutc as [-> _]. reflexivity.
Qed.

Section Build.

Variable zone : Z -> Z.
Variable rth_start rth_end : Z.
Variable Columns : Type.
Variable price_columns : list Bar -> result Columns.
Variable vwap_columns : list Bar -> Columns -> list Time.date -> result Columns.
Variable finish :
  list Bar -> Columns -> list Time.date -> list bool -> list (option fl) ->
  result (list Candidates.Row).

Let build :=
  build_features zone rth_start rth_end Columns price_columns vwap_columns
    finish.

(** On a frame that is not empty the builder raises: with what one of the
    numeric steps raised, or else with the UnboundLocalError of line 80. *)
Lemma build_raises df_bars :
  df_bars <> [] ->
  exists e,
    build df_bars = Raise e
    /\ ((forall df, ~ raises (price_columns df)) ->
        (forall df prices dates, ~ raises (vwap_columns df prices dates)) ->
        e = UnboundLocalError "market_tz_obj").
Proof.
  intros Hne. subst build. unfold build_features.
  destruct df_bars as [|b bs]; [contradiction|].
  set (df := sort_index (map reindex (b :: bs))).
  assert (Hidx : index_map (Time.minutes_since_rth_open rth_start)
                   (map bar_ts df)
                 = Raise (UnboundLocalError "market_tz_obj")).
  { apply minutes_map_raises; [|apply index_is_utc].
    intros Hnil. apply (f_equal (@length _)) in Hnil.
    subst df. rewrite length_map, sort_index_length, length_map in Hnil.
    discriminate. }
  destruct (price_columns df) as [prices|e] eqn:Hp; cbv [rbind].
  - destruct (vwap_columns df prices _) as [columns|e] eqn:Hv.
    + rewrite Hidx. eauto.
    + exists e. split; [reflexivity|]. intros _ Hno.
      exfalso. apply (Hno df prices (map (Time.session_day zone) (map bar_ts df))).
      now rewrite Hv.
  - exists e. split; [reflexivity|]. intros Hno _.
    exfalso. apply (Hno df). now rewrite Hp.
Qed.

(** X11. The feature builder never returns a frame with rows: it returns
    the empty frame for an empty bar frame and raises on every other one,
    with the UnboundLocalError of [minutes_since_rth_open] (the index is
    UTC-aware by then) unless one of the numeric column computations
    raises before line 80. *)
Theorem build_features_never_returns_rows (df_bars : list Bar) :
  (df_bars = [] -> build df_bars = Ok [])
  /\ (df_bars <> [] ->
      exists e,
        build df_bars = Raise e
        /\ ((forall df, ~ raises (price_columns df)) ->
            (forall df prices dates, ~ raises (vwap_columns df prices dates)) ->
            e = UnboundLocalError "market_tz_obj"))
  /\ (forall df_features, build df_bars = Ok df_features -> df_features = []).
Proof.
  split; [now intros ->|]. split; [apply build_raises|].
  intros df_features H. destruct df_bars as [|b bs].
  - now injection H.
  - destruct (build_raises (b :: bs)) as (e & He & _); [discriminate|].
    congruence.
Qed.

End Build.

End FeaturesFacts.

(** ** More on the engine *)

Module EngineProps.
Import ExecutionSim ContractSpecs Limits RiskManager Engine RiskFacts
  EngineFacts Samples.

Section Run.

Variable cfg_strategy : Candidates.Cfg.
Variable cfg_risk : CfgRisk.
Variable build_features : list Bar -> result (list Candidates.Row).
Variable choose :
  list Candidates.Candidate -> list Candidates.Row -> Time.Timestamp ->
  result (option Candidates.Candidate).
Variable Metrics : Type.
Variable metrics_of : list Trade -> Metrics.

Let step' := step cfg_strategy cfg_risk choose.
Let run' := run cfg_strategy cfg_risk build_features choose Metrics metrics_of.

Lemma step_ledger df_bars df_features symbol i s :
  exists new,
    trades (snd (step' df_bars df_features symbol i s)) = trades s ++ new
    /\ (length new <= 1)%nat
    /\ Forall (recorded_for symbol) new.
Proof.
  destruct (df_features !! i) as [row|] eqn:Hrow.
  - destruct (step_cases cfg_strategy cfg_risk choose df_bars df_features
                symbol i row s Hrow)
      as [[Ht _] | (cs & cand & dec & exe & t & _ & _ & _ & Hdec & Hallow
                    & Hexe & Hb & Ht & _)].
    + exists []. fold step' in Ht. rewrite Ht, app_nil_r.
      repeat split; [simpl; lia | constructor].
    + exists [t]. split; [exact Ht|]. split; [simpl; lia|].
      constructor; [|constructor].
      destruct (build_trade_fields _ _ _ _ _ _ _ _ Hb)
        as (Hs & Hq & _ & _ & _ & Hx & Hsp & Htp & Hr).
      destruct (RiskProps.accepted_within_limits _ _ _ _ _ _ Hdec Hallow)
        as (Hqty & _).
      unfold recorded_for. rewrite Hs, Hq, Hx, Hsp, Htp, Hr.
      split; [reflexivity|]. split; [exact Hqty|].
      destruct (ExecutionSimFacts.simulate_execution_exit _ _ _ _ _ _ _ Hexe)
        as [[-> ->] | [-> ->]]; auto.
  - exists []. subst step'. unfold step. rewrite Hrow. simpl.
    rewrite app_nil_r. repeat split; [lia | constructor].
Qed.

Lemma for_loop_ledger df_bars df_features symbol idxs :
  forall s, exists new,
    trades (snd (for_loop (step' df_bars df_features symbol) idxs s))
    = trades s ++ new
    /\ (length new <= length idxs)%nat
    /\ Forall (recorded_for symbol) new.
Proof.
  induction idxs as [|i idxs IH]; intros s.
  - exists []. simpl. rewrite app_nil_r. repeat split; [lia | constructor].
  - simpl. unfold bind.
    destruct (step_ledger df_bars df_features symbol i s) as (n1 & H1 & L1 & F1).
    destruct (step' df_bars df_features symbol i s) as [[[]|e] s1]; simpl in *.
    + destruct (IH s1) as (n2 & H2 & L2 & F2).
      exists (n1 ++ n2). rewrite H2, H1, app_assoc, length_app.
      repeat split; [lia | now apply Forall_app].
    + exists n1. repeat split; [assumption | lia | assumption].
Qed.

(** X17. A run only appends to the trade ledger, by at most one trade for
    each bar after the 100-bar warm-up, and every trade it appends is for
    the run's symbol, has at least one contract, and exits either as a
    "stop" at its stop price or as a "target" at its target price. *)
Theorem run_appends_well_formed_trades
    (df_bars : list Bar) (symbol : string) (s : EngineState) :
  exists new,
    trades (snd (run' df_bars symbol s)) = trades s ++ new
    /\ (length new <= length (rows_of (build_features df_bars)) - 100)%nat
    /\ Forall (recorded_for symbol) new.
Proof.
  assert (Hnone : exists new : list Trade,
            trades s = trades s ++ new
            /\ (length new <= length (rows_of (build_features df_bars)) - 100)%nat
            /\ Forall (recorded_for symbol) new).
  { exists []. rewrite app_nil_r. repeat split; [simpl; lia | constructor]. }
  subst run'. unfold run.
  destruct df_bars as [|b bs]; [exact Hnone|].
  cbv [bind lift gets ret bar_loop].
  destruct (build_features (b :: bs)) as [[|r rs]|e] eqn:Hf; try exact Hnone.
  fold step'.
  destruct (for_loop_ledger (b :: bs) (r :: rs) symbol
              (seq 100 (length (r :: rs) - 100)) s) as (new & Hn & Hl & HF).
  rewrite length_seq in Hl. unfold rows_of.
  destruct (for_loop _ _ s) as [[[]|e] s1]; simpl in Hn |- *.
  - exists new. split; [|split; assumption].
    destruct (trades s1) eqn:E; simpl; rewrite E; exact Hn.
  - exists new. split; [exact Hn | split; assumption].
Qed.

Lemma step_trade_cap df_bars df_features symbol i s :
  (forall d, trades_on (limits s) d <= max_trades_day cfg_risk)%Z ->
  (forall d,
     trades_on (limits (snd (step' df_bars df_features symbol i s))) d
     <= max_trades_day cfg_risk)%Z.
Proof.
  intros Hcap d.
  destruct (df_features !! i) as [row|] eqn:Hrow.
  - destruct (step_cases cfg_strategy cfg_risk choose df_bars df_features
                symbol i row s Hrow)
      as [[_ [Hl | Hl]] | (cs & cand & dec & exe & t & _ & _ & _ & Hdec & Hallow
                           & _ & _ & _ & Hl)];
      fold step' in Hl; rewrite Hl.
    + apply Hcap.
    + rewrite reset_daily_trades. apply Hcap.
    + rewrite add_realized_r_trades, add_trade_trades.
      destruct (decide _) as [<-|]; [|apply Hcap].
      destruct (RiskProps.accepted_within_limits _ _ _ _ _ _ Hdec Hallow)
        as (_ & _ & Hlt).
      lia.
  - subst step'. unfold step. rewrite Hrow. apply Hcap.
Qed.

Lemma for_loop_trade_cap df_bars df_features symbol idxs :
  forall s,
    (forall d, trades_on (limits s) d <= max_trades_day cfg_risk)%Z ->
    (forall d,
       trades_on
         (limits (snd (for_loop (step' df_bars df_features symbol) idxs s))) d
       <= max_trades_day cfg_risk)%Z.
Proof.
  induction idxs as [|i idxs IH]; intros s Hcap; [exact Hcap|].
  simpl. unfold bind.
  pose proof (step_trade_cap df_bars df_features symbol i s Hcap) as H1.
  destruct (step' df_bars df_features symbol i s) as [[[]|e] s1]; simpl in *.
  - now apply IH.
  - exact H1.
Qed.

(** X18. The engine never books more than max_trades_day trades on one
    calendar date: if no day's trade count exceeds the ceiling before a run
    (as in a new engine with a non-negative ceiling), none does after it. *)
Theorem run_respects_trade_ceiling
    (df_bars : list Bar) (symbol : string) (s : EngineState) :
  (forall d, trades_on (limits s) d <= max_trades_day cfg_risk)%Z ->
  forall d,
    (trades_on (limits (snd (run' df_bars symbol s))) d
     <= max_trades_day cfg_risk)%Z.
Proof.
  intros Hcap.
  apply (run_preserves cfg_strategy cfg_risk build_features choose Metrics
           metrics_of
           (fun s' => forall d,
              (trades_on (limits s') d <= max_trades_day cfg_risk)%Z));
    [exact Hcap|].
  intros df_features. now apply for_loop_trade_cap.
Qed.

(** X19. A bar whose date has reached the daily-R floor or the trade
    ceiling does not trade: the iteration leaves the ledger as it is and
    changes no counter of any day. *)
Theorem blocked_day_does_not_trade
    (df_bars : list Bar) (df_features : list Candidates.Row)
    (symbol : string) (i : nat) (row : Candidates.Row) (s : EngineState) :
  df_features !! i = Some row ->
  let d := Time.date_of (Candidates.row_ts row) in
  fle (realized_r_on (limits s) d) (fneg (daily_max_r cfg_risk)) = true
  \/ (max_trades_day cfg_risk <= trades_on (limits s) d)%Z ->
  let s' := snd (step' df_bars df_features symbol i s) in
  trades s' = trades s
  /\ (forall d', trades_on (limits s') d' = trades_on (limits s) d'
                 /\ realized_r_on (limits s') d' = realized_r_on (limits s) d')
  /\ open_risk_r (limits s') = open_risk_r (limits s).
Proof.
  intros Hrow d Hblocked s'.
  pose proof (step_cases cfg_strategy cfg_risk choose df_bars df_features
                symbol i row s Hrow) as Hc.
  cbv zeta in Hc. fold step' in Hc. fold d in Hc. fold s' in Hc.
  destruct Hc as [[Ht Hl] | (cs & cand & dec & exe & t & _ & _ & _ & Hdec
                             & Hallow & _)].
  - split; [exact Ht|].
    destruct Hl as [-> | ->].
    + repeat split; reflexivity.
    + split; [|apply reset_daily_open].
      intros d'. now rewrite reset_daily_trades, reset_daily_realized.
  - exfalso.
    destruct (RiskProps.accepted_within_limits _ _ _ _ _ _ Hdec Hallow)
      as (_ & Hr & Hlt).
    destruct Hblocked as [Hb | Hb]; [congruence | lia].
Qed.

(** X20. With the feature builder of the package, a run on a bar series
    that is not empty never reaches the bar loop: the call raises what the
    builder raises (the UnboundLocalError of [minutes_since_rth_open]
    unless a numeric column computation raises before it) and leaves the
    ledger and the limits as they were. *)
Theorem run_raises_on_bars
    (zone : Z -> Z) (rth_start rth_end : Z) (Columns : Type)
    (price_columns : list Bar -> result Columns)
    (vwap_columns : list Bar -> Columns -> list Time.date -> result Columns)
    (finish :
       list Bar -> Columns -> list Time.date -> list bool ->
       list (option fl) -> result (list Candidates.Row))
    (df_bars : list Bar) (symbol : string) (s : EngineState) :
  df_bars <> [] ->
  exists e,
    run cfg_strategy cfg_risk
      (Features.build_features zone rth_start rth_end Columns price_columns
         vwap_columns finish)
      choose Metrics metrics_of df_bars symbol s
    = (Raise e, s)
    /\ ((forall df, ~ raises (price_columns df)) ->
        (forall df prices dates, ~ raises (vwap_columns df prices dates)) ->
        e = UnboundLocalError "market_tz_obj").
Proof.
  intros Hne.
  destruct (FeaturesFacts.build_raises zone rth_start rth_end Columns
              price_columns vwap_columns finish df_bars Hne) as (e & He & Hwhich).
  exists e. split; [|exact Hwhich].
  unfold run. destruct df_bars as [|b bs]; [contradiction|].
  cbv [bind lift]. now rewrite He.
Qed.

End Run.

Lemma run_respects_trade_ceiling_witness :
  (trades_on (limits (snd (sample_run df_bars Engine.init))) 0%Z <= 10)%Z.
Proof.
  apply (run_respects_trade_ceiling Candidates.default_cfg Limits.default_cfg
           sample_builder first_candidate nat (@length Trade) df_bars "NQ"
           Engine.init).
  intros d. unfold trades_on. simpl. rewrite lookup_empty. simpl. lia.
Defined.

Lemma blocked_day_does_not_trade_witness :
  trades (snd (step Candidates.default_cfg no_trades_cfg first_candidate
                 df_bars df_features "NQ" 100 Engine.init))
  = trades Engine.init.
Proof.
  refine (proj1 (blocked_day_does_not_trade Candidates.default_cfg
                   no_trades_cfg first_candidate df_bars
                   df_features "NQ" 100 row_100 Engine.init
                   eq_refl _)).
  right. unfold trades_on. simpl. rewrite lookup_empty. simpl. lia.
Defined.

Lemma run_raises_on_bars_witness :
  exists e, sample_run df_bars Engine.init = (Raise e, Engine.init).
Proof.
  destruct (run_raises_on_bars Candidates.default_cfg Limits.default_cfg
              first_candidate nat (@length Trade) est (Time.hm 9 30)
              (Time.hm 16 0) unit (fun _ => Ok tt) (fun _ _ _ => Ok tt)
              (fun _ _ _ _ _ => Ok []) df_bars "NQ" Engine.init)
    as (e & He & _); [discriminate|].
  exists e. exact He.
Defined.

End EngineProps.

(** ** Sessions and the time-of-day gate *)

Module TimeProps.
Import Time Samples.

(** The local wall clock of a stamp under a zone with a constant offset. *)
Lemma to_market_constant c ts :
  wall (to_market (fun _ => c) ts)
  = match tzoff ts with
    | None => wall ts
    | Some off => (wall ts - off + c)%Z
    end.
Proof. unfold to_market. now destruct (tzoff ts). Qed.

(** X21. One session, one day: under a zone with a constant offset, every
    stamp whose local wall clock lies between 18:00 of day D and 18:00 of
    day D+1 is mapped to session day D+1, be the stamp naive or aware. *)
Theorem session_runs_from_18_to_18 (c : Z) (ts : Timestamp) (D : Z) :
  let local := wall (to_market (fun _ => c) ts) in
  (D * us_per_day + hm 18 0 <= local < (D + 1) * us_per_day + hm 18 0)%Z ->
  session_day (fun _ => c) ts = (D + 1)%Z.
Proof.
  cbv zeta. rewrite to_market_constant.
  unfold session_day, hour, date_of, plus_one_day, to_market, hm,
    us_per_day, us_per_hour, us_per_minute.
  destruct (tzoff ts) as [off|]; cbn [wall tzoff]; intros H.
  - destruct (Z.geb_spec
                ((wall ts - off + c) mod 86400000000 / 3600000000) 18)
      as [Hh|Hh];
      cbn [wall]; Z.div_mod_to_equations; lia.
  - destruct (Z.geb_spec (wall ts mod 86400000000 / 3600000000) 18)
      as [Hh|Hh];
      cbn [wall]; Z.div_mod_to_equations; lia.
Qed.

Lemma session_runs_from_18_to_18_witness :
  session_day est (stamp 100) = (0 + 1)%Z.
Proof.
  apply (session_runs_from_18_to_18 (hm (-5) 0) (stamp 100) 0).
  vm_compute. split; [discriminate | reflexivity].
Defined.

(** The minutes of a span, as a rational. *)
Lemma total_minutes_eq us :
  total_minutes us = Fin (Qred (Qred (inject_Z us / 1000000) / 60)).
Proof. reflexivity. Qed.

Lemma per_minute (u : Q) : (u / 1000000 / 60 == u * (1 # 60000000))%Q.
Proof. field. Qed.

Lemma total_minutes_le a b :
  (a <= b)%Z -> fl_le (total_minutes a) (total_minutes b).
Proof.
  intros H. rewrite !total_minutes_eq. unfold fl_le.
  rewrite !Qred_correct, !per_minute. rewrite Zle_Qle in H. lra.
Qed.

(** The minutes a naive stamp inside regular trading hours is given. *)
Lemma minutes_in_session zone rth_start rth_end ts :
  tzoff ts = None ->
  is_rth zone rth_start rth_end ts = true ->
  minutes_since_rth_open rth_start ts
  = Ok (Some (total_minutes (time_of_day ts - rth_start)))
  /\ (0 <= time_of_day ts - rth_start <= rth_end - rth_start)%Z.
Proof.
  unfold is_rth, minutes_since_rth_open, to_market. intros -> H.
  apply andb_true_iff in H as [H1 H2].
  apply Z.leb_le in H1, H2.
  destruct (Z.ltb_spec (time_of_day ts) rth_start); [lia|].
  split; [reflexivity | lia].
Qed.

(** X22. Inside regular trading hours a naive stamp gets its minutes since
    the open: the time elapsed since the open, in minutes and fractions of
    a minute, a number between zero and the length of the session. *)
Theorem minutes_inside_rth
    (zone : Z -> Z) (rth_start rth_end : Z) (ts : Timestamp) :
  tzoff ts = None ->
  is_rth zone rth_start rth_end ts = true ->
  exists m,
    minutes_since_rth_open rth_start ts = Ok (Some m)
    /\ m = total_minutes (time_of_day ts - rth_start)
    /\ fl_le (Fin 0) m
    /\ fl_le m (total_minutes (rth_end - rth_start)).
Proof.
  intros Htz Hrth.
  destruct (minutes_in_session zone rth_start rth_end ts Htz Hrth) as [Hm Hb].
  eexists. split; [exact Hm|]. split; [reflexivity|]. split.
  - change (Fin 0) with (total_minutes 0). apply total_minutes_le. lia.
  - apply total_minutes_le. lia.
Qed.

(** Thirty seconds past ten is thirty minutes and a half after the open. *)
Lemma minutes_inside_rth_witness :
  exists m,
    minutes_since_rth_open (hm 9 30)
      (mkTs (hm 10 0 + 30 * us_per_second) None) = Ok (Some m)
    /\ m = Fin (61 # 2).
Proof.
  destruct (minutes_inside_rth est (hm 9 30) (hm 16 0)
              (mkTs (hm 10 0 + 30 * us_per_second) None) eq_refl eq_refl)
    as (m & Hm & Heq & _).
  exists m. split; [exact Hm|]. rewrite Heq. reflexivity.
Defined.

(** X23. The last-minutes rule of the time filter compares the minutes
    since the open with 16*60 - avoid_last, minutes since midnight: as long
    as the session is not longer than that (the default 09:30-16:00 session
    has 390 minutes), no stamp is ever rejected for being within the last
    minutes of regular trading hours. *)
Theorem last_minutes_rule_never_fires
    (zone : Z -> Z) (rth_start rth_end avoid_first avoid_last : Z)
    (ts : Timestamp) (r : fl) :
  (rth_end - rth_start <= (16 * 60 - avoid_last) * us_per_minute)%Z ->
  Rules.time_filter zone rth_start rth_end (Fin (inject_Z avoid_first))
    (Fin (inject_Z avoid_last)) ts
  <> Ok (Some (Rules.WithinLastMinutes r)).
Proof.
  intros Hlen. unfold Rules.time_filter.
  destruct (is_rth zone rth_start rth_end ts) eqn:Hrth; [|discriminate].
  destruct (tzoff ts) as [off|] eqn:Htz.
  - unfold minutes_since_rth_open. rewrite Htz. discriminate.
  - destruct (minutes_in_session zone rth_start rth_end ts Htz Hrth)
      as [-> Hm].
    cbv [rbind].
    destruct (flt _ _); [discriminate|].
    destruct (fgt _ _) eqn:Hgt; [|discriminate].
    exfalso. unfold fgt in Hgt. apply flt_spec in Hgt.
    rewrite total_minutes_eq in Hgt.
    unfold fsub, lift2, fl_lt in Hgt.
    rewrite !Qred_correct, per_minute in Hgt.
    assert (Hq : (inject_Z (time_of_day ts - rth_start)
                  <= inject_Z ((16 * 60 - avoid_last) * us_per_minute))%Q)
      by (rewrite <- Zle_Qle; lia).
    rewrite inject_Z_mult in Hq. unfold Z.sub in Hq at 2.
    rewrite inject_Z_plus, inject_Z_opp in Hq.
    change (inject_Z (16 * 60)) with (16 * 60)%Q in Hq.
    change (inject_Z us_per_minute) with 60000000%Q in Hq.
    lra.
Qed.

Lemma last_minutes_rule_never_fires_witness :
  Rules.time_filter est (hm 9 30) (hm 16 0) (Fin (inject_Z 5))
    (Fin (inject_Z 5)) (mkTs (hm 15 58) None)
  <> Ok (Some (Rules.WithinLastMinutes (Fin 5))).
Proof.
  apply (last_minutes_rule_never_fires est (hm 9 30) (hm 16 0) 5 5
           (mkTs (hm 15 58) None) (Fin 5)).
  vm_compute. discriminate.
Defined.

(** X24. For a timezone-aware stamp inside regular trading hours the time
    filter does not return: reading the minutes since the open raises the
    UnboundLocalError of [market_tz_obj]. *)
Theorem aware_stamp_in_rth_raises
    (zone : Z -> Z) (rth_start rth_end : Z) (avoid_first avoid_last : fl)
    (ts : Timestamp) (off : Z) :
  tzoff ts = Some off ->
  is_rth zone rth_start rth_end ts = true ->
  Rules.time_filter zone rth_start rth_end avoid_first avoid_last ts
  = Raise (UnboundLocalError "market_tz_obj").
Proof.
  intros Htz Hrth. unfold Rules.time_filter, minutes_since_rth_open.
  now rewrite Hrth, Htz.
Qed.

Lemma aware_stamp_in_rth_raises_witness :
  Rules.time_filter est (hm 9 30) (hm 16 0) (Fin 5) (Fin 5)
    (mkTs (hm 15 0) (Some 0%Z))
  = Raise (UnboundLocalError "market_tz_obj").
Proof.
  apply (aware_stamp_in_rth_raises est (hm 9 30) (hm 16 0) (Fin 5) (Fin 5)
           (mkTs (hm 15 0) (Some 0%Z)) 0); reflexivity.
Defined.

End TimeProps.

(** ** More on the Monte Carlo resampler *)

Module MonteCarloProps.
Import MonteCarlo Samples.

Lemma nth_zeros i n : (i < n)%nat -> nth i (zeros n) NaN = Fin 0.
Proof.
  revert i. induction n as [|n IH]; intros i Hi; [lia|].
  destruct i; [reflexivity|]. simpl. apply IH. lia.
Qed.

Lemma cumsum_zeros n : cumsum_from (Fin 0) (zeros n) = zeros n.
Proof.
  induction n as [|n IH]; [reflexivity|].
  unfold zeros in *. cbn [repeat cumsum_from].
  change (Fin 0 + Fin 0)%fl with (Fin 0). now rewrite IH.
Qed.

Lemma accumulate_zeros n : accumulate_from (Fin 0) (zeros n) = zeros n.
Proof.
  induction n as [|n IH]; [reflexivity|].
  unfold zeros in *. cbn [repeat accumulate_from].
  change (np_maximum (Fin 0) (Fin 0)) with (Fin 0). now rewrite IH.
Qed.

Lemma drawdown_zeros n : zip_with fsub (zeros n) (zeros n) = zeros n.
Proof.
  induction n as [|n IH]; [reflexivity|].
  unfold zeros in *. cbn [repeat zip_with].
  change (Fin 0 - Fin 0)%fl with (Fin 0). now rewrite IH.
Qed.

Lemma fold_minimum_zeros n : fold_left np_minimum (zeros n) (Fin 0) = Fin 0.
Proof. induction n as [|n IH]; [reflexivity | exact IH]. Qed.

Lemma fold_maximum_zeros n : fold_left np_maximum (zeros n) (Fin 0) = Fin 0.
Proof. induction n as [|n IH]; [reflexivity | exact IH]. Qed.

Lemma fold_add_zeros n : fold_left fadd (zeros n) (Fin 0) = Fin 0.
Proof. induction n as [|n IH]; [reflexivity | exact IH]. Qed.

Lemma last_zeros n : last (zeros (S n)) = Some (Fin 0).
Proof. induction n as [|n IH]; [reflexivity | exact IH]. Qed.

Lemma mean_zeros n : np_mean (zeros (S n)) = Fin 0.
Proof.
  unfold np_mean. rewrite fold_add_zeros. unfold zeros.
  rewrite repeat_length. unfold fdiv, RiskManager.of_int.
  destruct (Qeq_bool (inject_Z (Z.of_nat (S n))) 0) eqn:E.
  - apply Qeq_bool_iff in E. unfold Qeq in E. simpl in E. lia.
  - reflexivity.
Qed.

Section Resampler.

Variable rng : Type.
Variable randint : nat -> rng -> nat * rng.
Variable np_std : list fl -> fl.
Variable np_percentile : list fl -> fl -> result fl.

Let run' := run_monte_carlo rng randint np_std np_percentile.

Lemma choice_zeros k size g :
  exists g', choice rng randint (zeros (S k)) size g = (Ok (zeros size), g').
Proof.
  revert g. induction size as [|size IH]; intros g.
  - exists g. reflexivity.
  - cbn [choice]. unfold bind at 1.
    destruct (randint (length (zeros (S k))) g) as [i g1].
    unfold bind at 1. destruct (IH g1) as (g2 & ->).
    exists g2. unfold ret.
    assert (Hi : (i mod length (zeros (S k)) < S k)%nat).
    { unfold zeros. rewrite repeat_length. apply Nat.mod_upper_bound.
      discriminate. }
    now rewrite (nth_zeros _ _ Hi).
Qed.

Lemma simulate_once_zeros k g :
  exists g', simulate_once rng randint (zeros (S k)) g = (Ok (Fin 0, Fin 0), g').
Proof.
  unfold simulate_once, bind at 1.
  assert (Hlen : length (zeros (S k)) = S k) by apply repeat_length.
  rewrite Hlen.
  destruct (choice_zeros k (S k) g) as (g' & ->).
  exists g'. unfold cumsum. rewrite cumsum_zeros.
  unfold bind, lift, ret, last_elem. rewrite last_zeros.
  change (maximum_accumulate (zeros (S k)))
    with (Fin 0 :: accumulate_from (Fin 0) (zeros k)).
  rewrite accumulate_zeros. change (Fin 0 :: zeros k) with (zeros (S k)).
  rewrite drawdown_zeros.
  change (np_min (zeros (S k)))
    with (Ok (fold_left np_minimum (zeros k) (Fin 0))).
  now rewrite fold_minimum_zeros.
Qed.

Lemma simulations_zeros k n g :
  exists g', simulations rng randint (zeros (S k)) n g = (Ok (zeros n, zeros n), g').
Proof.
  revert g. induction n as [|n IH]; intros g.
  - exists g. reflexivity.
  - cbn [simulations]. unfold bind at 1.
    destruct (simulate_once_zeros k g) as (g1 & H1).
    rewrite H1.
    unfold bind at 1. destruct (IH g1) as (g2 & ->).
    exists g2. reflexivity.
Qed.

(** X25. On a trade stream of zeros every statistic that is computed in the
    file is exactly zero, whatever the generator draws: for at least one
    simulation, the means, minima and maxima of the final values and of the
    drawdowns are 0.0 (the tail statistics being whatever the percentile
    estimator gives on a list of zeros). *)
Theorem zero_stream_gives_zero_statistics
    (k n : nat) (cls : list fl) (tl : gmap Z fl * gmap Z fl) (g : rng) :
  tails np_percentile (zeros (S n)) (∅, ∅) cls = Ok tl ->
  fst (run' (zeros (S k)) (S n) cls g)
  = Ok (Some (mkStats (Fin 0) (np_std (zeros (S n))) (Fin 0) (Fin 0)
                (Fin 0) (np_std (zeros (S n))) (Fin 0) (Fin 0)
                (fst tl) (snd tl))).
Proof.
  intros Htl. subst run'. unfold run_monte_carlo.
  change (zeros (S k)) with (Fin 0 :: zeros k) at 1.
  cbv iota beta. change (Fin 0 :: zeros k) with (zeros (S k)).
  unfold bind at 1.
  destruct (simulations_zeros k (S n) g) as (g' & H).
  rewrite H. cbn [fst snd].
  unfold bind, lift, ret. rewrite Htl.
  change (np_min (zeros (S n)))
    with (Ok (fold_left np_minimum (zeros n) (Fin 0))).
  change (np_max (zeros (S n)))
    with (Ok (fold_left np_maximum (zeros n) (Fin 0))).
  rewrite fold_minimum_zeros, fold_maximum_zeros.
  now rewrite mean_zeros.
Qed.

(** X26. Asking for zero simulations on a trade stream that is not empty is
    an error, not an empty result: the call raises. *)
Theorem zero_simulations_raise
    (x : fl) (r_stream cls : list fl) (g : rng) :
  raises (fst (run' (x :: r_stream) 0 cls g)).
Proof.
  subst run'. unfold run_monte_carlo.
  cbn [simulations]. unfold bind, lift, ret. cbn [fst snd].
  destruct (tails np_percentile [] (∅, ∅) cls); simpl; exact I.
Qed.

End Resampler.

Lemma zero_stream_gives_zero_statistics_witness :
  fst (run_monte_carlo nat counting_randint (fun _ => NaN) (fun _ _ => Ok NaN)
         (zeros 3) 2 [] 0%nat)
  = Ok (Some (mkStats (Fin 0) NaN (Fin 0) (Fin 0) (Fin 0) NaN (Fin 0) (Fin 0)
                ∅ ∅)).
Proof.
  exact (zero_stream_gives_zero_statistics nat counting_randint
           (fun _ => NaN) (fun _ _ => Ok NaN) 2 1 [] (∅, ∅) 0%nat eq_refl).
Defined.

Lemma not_positive_NaN : not_positive NaN.
Proof. intros []. Qed.

Lemma not_positive_Fin q : (q <= 0)%Q -> not_positive (Fin q).
Proof. intros H Hlt. simpl in Hlt. now apply Qlt_not_le in Hlt. Qed.

Lemma np_minimum_not_positive a b : not_positive a -> not_positive (np_minimum a b).
Proof.
  destruct a as [|x], b as [|y]; simpl; auto using not_positive_NaN.
  intros Hx. destruct (Qle_bool y x) eqn:E; [|exact Hx].
  apply Qle_bool_iff in E. intros Hlt. apply Hx. simpl in *.
  eapply Qlt_le_trans; eassumption.
Qed.

Lemma np_maximum_not_positive a b :
  not_positive a -> not_positive b -> not_positive (np_maximum a b).
Proof.
  destruct a as [|x], b as [|y]; simpl; auto using not_positive_NaN.
  destruct (Qle_bool x y); auto.
Qed.

Lemma fold_minimum_not_positive l : forall x,
  not_positive x -> not_positive (fold_left np_minimum l x).
Proof.
  induction l as [|y l IH]; intros x Hx; [exact Hx|].
  simpl. apply IH. now apply np_minimum_not_positive.
Qed.

Lemma fold_maximum_not_positive l : forall x,
  not_positive x -> Forall not_positive l ->
  not_positive (fold_left np_maximum l x).
Proof.
  induction l as [|y l IH]; intros x Hx Hl; [exact Hx|].
  inversion Hl; subst. simpl. apply IH; [|assumption].
  now apply np_maximum_not_positive.
Qed.

Lemma self_difference_not_positive x : not_positive (x - x)%fl.
Proof.
  destruct x as [|q]; [apply not_positive_NaN|].
  apply not_positive_Fin. unfold lift2. rewrite Qred_correct.
  apply Qle_lteq. right. ring.
Qed.

(** The deepest drawdown of an equity curve is never positive. *)
Lemma drawdown_not_positive equity dd :
  np_min (zip_with fsub equity (maximum_accumulate equity)) = Ok dd ->
  not_positive dd.
Proof.
  destruct equity as [|e es]; [discriminate|].
  simpl. intros [= <-]. apply fold_minimum_not_positive.
  apply self_difference_not_positive.
Qed.

Section Drawdowns.

Variable rng : Type.
Variable randint : nat -> rng -> nat * rng.
Variable np_std : list fl -> fl.
Variable np_percentile : list fl -> fl -> result fl.

Lemma simulate_once_drawdown r_stream g f dd :
  fst (simulate_once rng randint r_stream g) = Ok (f, dd) -> not_positive dd.
Proof.
  unfold simulate_once, bind at 1.
  destruct (choice rng randint r_stream (length r_stream) g) as [[sample|e] g1];
    [|discriminate].
  unfold bind, lift, ret.
  destruct (last_elem (cumsum sample)) as [fin|e]; [|discriminate].
  destruct (np_min _) as [m|e] eqn:Hm; [|discriminate].
  simpl. intros [= _ <-]. eapply drawdown_not_positive, Hm.
Qed.

Lemma simulations_drawdowns r_stream n : forall g fs dds,
  fst (simulations rng randint r_stream n g) = Ok (fs, dds) ->
  Forall not_positive dds.
Proof.
  induction n as [|n IH]; intros g fs dds.
  - simpl. intros [= _ <-]. constructor.
  - cbn [simulations]. unfold bind at 1.
    pose proof (simulate_once_drawdown r_stream g) as H1.
    destruct (simulate_once rng randint r_stream g) as [[[f dd]|e] g1];
      [|discriminate].
    unfold bind at 1. pose proof (IH g1) as H2.
    destruct (simulations rng randint r_stream n g1) as [[[fs' dds']|e] g2];
      [|discriminate].
    simpl. intros [= _ <-]. constructor; eauto.
Qed.

(** X27. A drawdown is never reported as positive: in every result the
    largest and the smallest of the simulated maximum drawdowns are NaN or
    at most zero. *)
Theorem drawdowns_are_never_positive
    (r_stream : list fl) (n : nat) (cls : list fl) (g : rng) (st : Stats) :
  fst (run_monte_carlo rng randint np_std np_percentile r_stream n cls g)
  = Ok (Some st) ->
  not_positive (max_dd_max st) /\ not_positive (max_dd_min st).
Proof.
  unfold run_monte_carlo.
  destruct r_stream as [|x xs]; [discriminate|].
  unfold bind at 1.
  pose proof (simulations_drawdowns (x :: xs) n g) as Hs.
  destruct (simulations rng randint (x :: xs) n g) as [[[fs dds]|e] g1];
    [|discriminate].
  specialize (Hs fs dds eq_refl).
  unfold bind, lift, ret. cbn [fst snd].
  destruct (tails _ _ _ _) as [tl|e]; [|discriminate].
  destruct (np_min fs) as [fmin|e]; [|discriminate].
  destruct (np_max fs) as [fmax|e]; [|discriminate].
  destruct dds as [|dd dds]; [discriminate|].
  inversion Hs; subst.
  simpl. intros [= <-]. simpl. split.
  - now apply fold_maximum_not_positive.
  - now apply fold_minimum_not_positive.
Qed.

End Drawdowns.

Lemma drawdowns_are_never_positive_witness :
  not_positive (Fin 0) /\ not_positive (Fin 0).
Proof.
  exact (drawdowns_are_never_positive nat counting_randint (fun _ => NaN)
           (fun _ _ => Ok NaN) (zeros 3) 2 [] 0%nat
           (mkStats (Fin 0) NaN (Fin 0) (Fin 0) (Fin 0) NaN (Fin 0) (Fin 0)
              ∅ ∅) eq_refl).
Defined.

End MonteCarloProps.

(** ** Scoring and ranking *)

Module ScorerProps.
Import Scorer Samples.

(** X28. The confidence of the Bayesian adjustment is always a number
    between 0 and 1, whatever the history of predictions and outcomes (a
    NaN average Brier score gives confidence 1). *)
Theorem confidence_is_in_unit_interval
    (b : Bayes.BayesianAdjustment) (prob : fl) :
  fl_le (Fin 0) (snd (Bayes.adjust b prob))
  /\ fl_le (snd (Bayes.adjust b prob)) (Fin 1).
Proof.
  unfold Bayes.adjust.
  destruct (_ <? 10)%nat; [split; simpl; discriminate|].
  cbn [snd].
  set (x := (Fin 1 - _ / _)%fl). clearbody x.
  unfold pymax, pymin, fgt.
  destruct (flt x (Fin 1)) eqn:E1.
  - destruct (flt (Fin 0) x) eqn:E0.
    + apply flt_spec in E0, E1. destruct x; simpl in *; [tauto|].
      split; now apply Qlt_le_weak.
    + split; simpl; discriminate.
  - change (flt (Fin 0) (Fin 1)) with true. cbv iota.
    split; simpl; discriminate.
Qed.

Section Score.

Variable predict_proba : Candidates.Row -> option (fl * fl).

Lemma score_one_fields cfg adj pd pu c sc :
  score_one cfg adj pd pu c = Some sc ->
  candidate sc = c
  /\ fle (Candidates.risk_points c) (Fin 0) = false
  /\ flt (p_win sc) (min_prob cfg) = false
  /\ fgt (p_win sc) (max_prob cfg) = false
  /\ R_target sc
     = (Candidates.reward_points c / Candidates.risk_points c)%fl
  /\ ev_r sc = (p_win sc * R_target sc - (Fin 1 - p_win sc) * Fin 1)%fl
  /\ (adj = None ->
      confidence sc = Fin 1
      /\ p_win sc = if String.eqb (Candidates.side c) "long" then pu else pd).
Proof.
  unfold score_one.
  destruct (fle (Candidates.risk_points c) (Fin 0)); [discriminate|].
  destruct (match adj with Some _ => _ | None => _ end) as [p conf] eqn:Hadj.
  destruct (flt p (min_prob cfg)) eqn:Hlo; [discriminate|].
  destruct (fgt p (max_prob cfg)) eqn:Hhi; [discriminate|].
  simpl. intros [= <-]. simpl. repeat split; auto;
    subst adj; now injection Hadj as <- <-.
Qed.

(** X29. Scoring drops candidates but neither reorders nor invents them:
    the scored candidates, without their scores, are a subsequence of the
    input.  Each one kept has a risk that is not at or below zero and a
    win probability that is neither below min_prob nor above max_prob, its
    R_target is reward/risk and its ev_r is p_win * R_target - (1 - p_win);
    without an adjuster the confidence is 1 and p_win is prob_up for a long
    and prob_down otherwise. *)
Theorem scoring_filters_in_order
    (candidates : list Candidates.Candidate) (df : list Candidates.Row)
    (cfg : Cfg) (adj : option Bayes.BayesianAdjustment) :
  sublist (map candidate (score_candidates predict_proba candidates df cfg adj))
    candidates
  /\ Forall (fun sc =>
       fle (Candidates.risk_points (candidate sc)) (Fin 0) = false
       /\ flt (p_win sc) (min_prob cfg) = false
       /\ fgt (p_win sc) (max_prob cfg) = false
       /\ R_target sc = (Candidates.reward_points (candidate sc)
                         / Candidates.risk_points (candidate sc))%fl
       /\ ev_r sc = (p_win sc * R_target sc - (Fin 1 - p_win sc) * Fin 1)%fl
       /\ (adj = None -> confidence sc = Fin 1))
     (score_candidates predict_proba candidates df cfg adj).
Proof.
  unfold score_candidates.
  destruct candidates as [|c0 cs]; [split; constructor|].
  destruct (last df) as [latest|]; [|split; [apply sublist_nil_l | constructor]].
  destruct (predict_proba latest) as [[pd pu]|];
    [|split; [apply sublist_nil_l | constructor]].
  generalize (c0 :: cs). clear c0 cs.
  induction l as [|c l [IH1 IH2]]; [split; constructor|].
  cbn [omap list_omap].
  destruct (score_one cfg adj pd pu c) as [sc|] eqn:Hsc.
  - destruct (score_one_fields _ _ _ _ _ _ Hsc)
      as (Hc & Hr & Hlo & Hhi & HR & Hev & Hnone).
    split.
    + cbn [map]. rewrite Hc. now apply sublist_skip.
    + constructor; [|exact IH2]. rewrite Hc.
      repeat split; auto. intros H. now apply Hnone.
  - split; [now apply sublist_cons | exact IH2].
Qed.

End Score.

(** *** Ranking *)

Lemma key_lt_spec a1 a2 a3 b1 b2 b3 :
  key_lt (Fin a1, Fin a2, Fin a3) (Fin b1, Fin b2, Fin b3) = true
  <-> (a1 < b1 \/ (a1 == b1 /\ (a2 < b2 \/ (a2 == b2 /\ a3 < b3))))%Q.
Proof.
  unfold key_lt, feq.
  destruct (Qeq_bool a1 b1) eqn:E1.
  - apply Qeq_bool_iff in E1.
    destruct (Qeq_bool a2 b2) eqn:E2.
    + apply Qeq_bool_iff in E2. rewrite flt_spec. simpl. split; intros H; lra.
    + apply Qeq_bool_neq in E2. rewrite flt_spec. simpl. split; intros H; lra.
  - apply Qeq_bool_neq in E1. rewrite flt_spec. simpl. split; intros H; lra.
Qed.

Lemma finite_key_inv c :
  finite_key c -> exists a b d, key c = (Fin a, Fin b, Fin d).
Proof.
  unfold finite_key, key. intros (H1 & H2 & H3).
  destruct (ev_r c), (p_win c), (confidence c); try discriminate. eauto.
Qed.

Lemma not_below_trans x y z :
  finite_key x -> finite_key y -> finite_key z ->
  not_below x y -> not_below y z -> not_below x z.
Proof.
  unfold not_below.
  intros (a1 & a2 & a3 & ->)%finite_key_inv (b1 & b2 & b3 & ->)%finite_key_inv
         (c1 & c2 & c3 & ->)%finite_key_inv.
  rewrite <- !not_true_iff_false, !key_lt_spec. intros H1 H2. lra.
Qed.

Lemma below_not_below x y :
  finite_key x -> finite_key y ->
  key_lt (key x) (key y) = true -> not_below y x.
Proof.
  unfold not_below.
  intros (a1 & a2 & a3 & ->)%finite_key_inv (b1 & b2 & b3 & ->)%finite_key_inv.
  rewrite <- not_true_iff_false, !key_lt_spec. intros H. lra.
Qed.

Lemma insert_desc_perm x l : Permutation (insert_desc x l) (x :: l).
Proof.
  induction l as [|y l IH]; cbn [insert_desc]; [reflexivity|].
  destruct (key_lt (key x) (key y)); [|reflexivity].
  rewrite IH. apply perm_swap.
Qed.

Lemma sorted_desc_perm l : Permutation (sorted_desc l) l.
Proof.
  induction l as [|x l IH]; simpl; [reflexivity|].
  rewrite insert_desc_perm. now constructor.
Qed.

Lemma insert_desc_descending x l :
  finite_key x -> Forall finite_key l -> descending l ->
  descending (insert_desc x l).
Proof.
  intros Hx. induction l as [|y l IH]; intros Hl Hd;
    cbn [insert_desc descending].
  - split; [constructor | exact I].
  - inversion Hl as [|? ? Hy Hl']; subst. destruct Hd as [Hyl Hd].
    destruct (key_lt (key x) (key y)) eqn:E; cbn [descending].
    + split; [|now apply IH].
      rewrite (insert_desc_perm x l). constructor; [|exact Hyl].
      now apply below_not_below.
    + split; [|split; assumption].
      constructor; [exact E|].
      rewrite Forall_forall in Hyl, Hl' |- *. intros z Hz.
      apply not_below_trans with y; auto.
Qed.

Lemma sorted_desc_descending l :
  Forall finite_key l -> descending (sorted_desc l).
Proof.
  induction l as [|x l IH]; intros Hl; simpl; [exact I|].
  inversion Hl; subst. apply insert_desc_descending; auto.
  now rewrite sorted_desc_perm.
Qed.

Lemma descending_split k : forall l,
  descending l ->
  descending (take k l)
  /\ forall x y, In x (take k l) -> In y (drop k l) -> not_below x y.
Proof.
  induction k as [|k IH]; intros l Hd.
  - simpl. split; [exact I | intros x y []].
  - destruct l as [|z l]; simpl; [split; [exact I | intros x y []]|].
    destruct Hd as [Hz Hd]. destruct (IH l Hd) as [IH1 IH2].
    split.
    + split; [|exact IH1]. rewrite Forall_forall in Hz |- *.
      intros w Hw. apply Hz. eapply subseteq_take, Hw.
    + intros x y [<-|Hx] Hy; [|now apply IH2].
      rewrite Forall_forall in Hz. apply Hz.
      apply list_elem_of_In in Hy. eapply subseteq_drop, Hy.
Qed.

(** X30. Ranking keeps the best: for scored candidates whose keys are
    numbers, the top_k returned are a prefix of a rearrangement of the
    input, min(top_k, n) of them, in descending order of (ev_r, p_win,
    confidence), and none of them ranks below a candidate that was left
    out. *)
Theorem ranking_keeps_the_best (l : list Scored) (top_k : nat) :
  Forall finite_key l ->
  exists rest,
    Permutation (rank_candidates l top_k ++ rest) l
    /\ length (rank_candidates l top_k) = Nat.min top_k (length l)
    /\ descending (rank_candidates l top_k)
    /\ forall x y, In x (rank_candidates l top_k) -> In y rest ->
                   not_below x y.
Proof.
  intros Hl. unfold rank_candidates.
  destruct l as [|c l'] eqn:El.
  { exists []. simpl. repeat split; auto; [lia | intros x y []]. }
  rewrite <- El in *. clear El c l'.
  exists (drop top_k (sorted_desc l)).
  destruct (descending_split top_k _ (sorted_desc_descending l Hl)) as [H1 H2].
  rewrite take_drop, length_take.
  rewrite (Permutation_length (sorted_desc_perm l)).
  split; [apply sorted_desc_perm|]. split; [reflexivity|]. split; assumption.
Qed.

Lemma ranking_keeps_the_best_witness :
  exists rest,
    Permutation (rank_candidates two_scored 1 ++ rest) two_scored
    /\ length (rank_candidates two_scored 1) = Nat.min 1 (length two_scored)
    /\ descending (rank_candidates two_scored 1)
    /\ forall x y, In x (rank_candidates two_scored 1) -> In y rest ->
                   not_below x y.
Proof.
  apply (ranking_keeps_the_best two_scored 1).
  repeat constructor.
Defined.

End ScorerProps.
